(** * Fates-3GX-SDK: the hook-injection scripts, embedded and verified

    Shallow embedding of [scripts/make_inline.py] and [scripts/make_bps.py].
    Python values are modelled as follows:
    - [bytes] / [bytearray]  : [list byte];
    - [int]                  : [Z];
    - [str]                  : [string], processed as [list ascii] (one
                               element per code point below 256);
    - the [hooks] mapping    : an association list in insertion order;
    - files on disk          : a [gmap] from path to content;
    - [SystemExit] and uncaught exceptions : the [Fatal] outcome.
    The Keystone assembler and the FLIPS patcher are external programs: they
    are Section variables of the embedding. *)

From Stdlib Require Import ZArith List String Ascii Bool Lia.
From Stdlib.Strings Require Import Byte.
From stdpp Require Import gmap strings.
Import ListNotations.

Local Open Scope Z_scope.

(* ===================================================================== *)
(** * Part I: the embedding                                                *)
(* ===================================================================== *)

(** ** Failures and the outcome monad *)

Inductive failure : Type :=
  | ValueError          (* uncaught ValueError (bad token, bad int literal) *)
  | KsError             (* the assembler raised, or could not be used *)
  | BadDetourSize       (* "[x] detour assembled to N bytes" *)
  | NoCodeCave          (* "[x] No suitable code cave found for trampolines." *)
  | FlipsMissing        (* "[x] FLIPS not found in PATH." *)
  | FlipsCreateFailed   (* "[x] FLIPS failed to create BPS." *)
  | FlipsApplyFailed    (* "[x] FLIPS failed to apply BPS." *)
  | RoundtripMismatch   (* "[x] BPS roundtrip mismatch!" *)
  | MissingBase         (* "[x] Missing base code.bin at ..." *)
  | FileNotFound.       (* uncaught FileNotFoundError *)

Inductive outcome (A : Type) : Type :=
  | Ok (a : A)
  | Fatal (e : failure).

Arguments Ok {A} a.
Arguments Fatal {A} e.

Definition obind {A B} (m : outcome A) (k : A -> outcome B) : outcome B :=
  match m with
  | Ok a => k a
  | Fatal e => Fatal e
  end.

Notation "'do' x <- m ; k" := (obind m (fun x => k))
  (at level 10, x pattern, m at level 100, k at level 200).

Definition of_option {A} (e : failure) (o : option A) : outcome A :=
  match o with
  | Some a => Ok a
  | None => Fatal e
  end.

Fixpoint omap {A B} (f : A -> outcome B) (l : list A) : outcome (list B) :=
  match l with
  | [] => Ok []
  | x :: r => do y <- f x; do ys <- omap f r; Ok (y :: ys)
  end.

Fixpoint ofold {S A} (f : S -> A -> outcome S) (l : list A) (s : S) : outcome S :=
  match l with
  | [] => Ok s
  | x :: r => do s' <- f s x; ofold f r s'
  end.

(** ** Python primitives *)

Module Py.

Definition len {A} (l : list A) : Z := Z.of_nat (length l).

(** Normalisation of one slice bound against a sequence of length [n]. *)
Definition index (n i : Z) : Z :=
  if i <? 0 then Z.max (i + n) 0 else Z.min i n.

(** [l[a:b]] *)
Definition slice {A} (l : list A) (a b : Z) : list A :=
  let n := len l in
  let lo := index n a in
  let hi := index n b in
  firstn (Z.to_nat (hi - lo)) (skipn (Z.to_nat lo) l).

(** [l[a:b] = x] on a [bytearray]: the slice is replaced, the length may
    change. *)
Definition slice_assign {A} (l : list A) (a b : Z) (x : list A) : list A :=
  let n := len l in
  let lo := index n a in
  let hi := Z.max lo (index n b) in
  firstn (Z.to_nat lo) l ++ x ++ skipn (Z.to_nat hi) l.

(** [range(a, b)] *)
Definition range (a b : Z) : list Z :=
  map (fun k => a + Z.of_nat k) (seq 0 (Z.to_nat (b - a))).

(** [range(a, -1, -1)] *)
Definition range_down (a : Z) : list Z :=
  map (fun k => a - Z.of_nat k) (seq 0 (Z.to_nat (a + 1))).

(** [zip(w, p, m)] *)
Fixpoint zip3 {A B C} (w : list A) (p : list B) (m : list C) : list (A * B * C) :=
  match w, p, m with
  | a :: w', b :: p', c :: m' => (a, b, c) :: zip3 w' p' m'
  | _, _, _ => []
  end.

(** Byte values. *)
Definition b2z (b : byte) : Z := Z.of_N (Byte.to_N b).

(** The range check of [bytearray.append]. *)
Definition z2b (z : Z) : option byte :=
  if (0 <=? z) && (z <? 256) then Byte.of_N (Z.to_N z) else None.

(** [x == y] on [bytes]. *)
Fixpoint bytes_eqb (x y : list byte) : bool :=
  match x, y with
  | [], [] => true
  | a :: x', b :: y' => Byte.eqb a b && bytes_eqb x' y'
  | _, _ => false
  end.

(** [a & b] on byte values. *)
Definition band (a b : byte) : Z := Z.land (b2z a) (b2z b).

Definition code (c : ascii) : Z := Z.of_N (N_of_ascii c).

(** [str.isspace] on the code points below 256. *)
Definition isspace (c : ascii) : bool :=
  let n := code c in
  ((9 <=? n) && (n <=? 13)) || ((28 <=? n) && (n <=? 32))
  || (n =? 133) || (n =? 160).

Fixpoint lstrip (s : list ascii) : list ascii :=
  match s with
  | c :: r => if isspace c then lstrip r else s
  | [] => []
  end.

(** [s.strip()] *)
Definition strip (s : list ascii) : list ascii :=
  rev (lstrip (rev (lstrip s))).

(** [s.split(sep)] for a one-character separator: empty pieces are kept. *)
Fixpoint split_on (sep : ascii) (s : list ascii) : list (list ascii) :=
  match s with
  | [] => [[]]
  | c :: r =>
      if Ascii.eqb c sep then [] :: split_on sep r
      else match split_on sep r with
           | w :: ws => (c :: w) :: ws
           | [] => [[c]]
           end
  end.

(** [s.split()]: split on runs of whitespace, no empty piece. *)
Fixpoint split_ws_aux (s : list ascii) (cur : list ascii) : list (list ascii) :=
  match s with
  | [] => match cur with [] => [] | _ => [rev cur] end
  | c :: r =>
      if isspace c
      then match cur with
           | [] => split_ws_aux r []
           | _ => rev cur :: split_ws_aux r []
           end
      else split_ws_aux r (c :: cur)
  end.

Definition split_ws (s : list ascii) : list (list ascii) := split_ws_aux s [].

(** Value of one hexadecimal digit, as [int(ch, 16)] reads it. *)
Definition hex_digit (c : ascii) : option Z :=
  let n := code c in
  if (48 <=? n) && (n <=? 57) then Some (n - 48)
  else if (97 <=? n) && (n <=? 102) then Some (n - 87)
  else if (65 <=? n) && (n <=? 70) then Some (n - 55)
  else None.

Definition is_underscore (c : ascii) : bool := Ascii.eqb c "_"%char.

(** The digit loop of [int(s, 16)]: hexadecimal digits, single underscores
    between them, no trailing underscore. *)
Fixpoint int16_digits (cs : list ascii) (acc : Z) (prev_us : bool) : option Z :=
  match cs with
  | [] => if prev_us then None else Some acc
  | c :: r =>
      if is_underscore c
      then (if prev_us then None else int16_digits r acc true)
      else match hex_digit c with
           | Some d => int16_digits r (16 * acc + d) false
           | None => None
           end
  end.

(** The whitespace [int()] skips around a literal: the ASCII whitespace
    0x09-0x0D and 0x20, and the spaces above 0x7F (0x85 and 0xA0), which
    the conversion turns into blanks first. Unlike [str.isspace] it does
    not take the separators 0x1C-0x1F for whitespace. *)
Definition int_space (c : ascii) : bool :=
  let n := code c in
  ((9 <=? n) && (n <=? 13)) || (n =? 32) || (n =? 133) || (n =? 160).

Fixpoint int_lstrip (s : list ascii) : list ascii :=
  match s with
  | c :: r => if int_space c then int_lstrip r else s
  | [] => []
  end.

Definition int_strip (s : list ascii) : list ascii :=
  rev (int_lstrip (rev (int_lstrip s))).

(** [int(s, 16)]: surrounding whitespace, an optional sign, an optional
    [0x] prefix (one underscore may follow it), then the digits. [None] is
    ValueError. *)
Definition int16 (s : list ascii) : option Z :=
  let s0 := int_strip s in
  let '(neg, s1) :=
    match s0 with
    | c :: r => if Ascii.eqb c "+"%char then (false, r)
                else if Ascii.eqb c "-"%char then (true, r)
                else (false, s0)
    | [] => (false, s0)
    end in
  let s2 :=
    match s1 with
    | z :: x :: r =>
        if Ascii.eqb z "0"%char && (Ascii.eqb x "x"%char || Ascii.eqb x "X"%char)
        then match r with
             | u :: r' => if is_underscore u then r' else r
             | [] => r
             end
        else s1
    | _ => s1
    end in
  match s2 with
  | [] => None
  | c :: _ =>
      if is_underscore c then None
      else match int16_digits s2 0 false with
           | Some v => Some (if neg then - v else v)
           | None => None
           end
  end.

(** Truth value of an optional string ([None] and [""] are false). *)
Definition truthy (s : option string) : option string :=
  match s with
  | Some EmptyString => None
  | Some t => Some t
  | None => None
  end.

End Py.

(** ** The hook specification input (the [hooks] mapping of the YAML file) *)

(** One address entry after [int(str(addr), 0)]: the integer it denotes, or
    [ABad] when the conversion raises. *)
Inductive addr_val : Type :=
  | AInt (z : Z)
  | ABad.

(** The [addr] key: absent, one value, or a list whose entries may be null. *)
Inductive addr_field : Type :=
  | AddrNone
  | AddrOne (a : addr_val)
  | AddrList (l : list (option addr_val)).

Record hook_spec : Type := HookSpec {
  addr : addr_field;
  aob : option string;
  guard : option string
}.

Definition hooks_map : Type := list (string * hook_spec).

(** Filler bytes of a code cave: [x in (0x00, 0xFF)]. *)
Definition is_filler (b : byte) : bool :=
  Byte.eqb b x00 || Byte.eqb b xff.

(* ===================================================================== *)
(** ** [scripts/make_inline.py]                                            *)
(* ===================================================================== *)

Module Inline.

Definition CODE_BASE : Z := 0x00100000.
Definition STOLEN_SIZE : Z := 8.
Definition per_tramp : Z := 0x60.

(** [_hex_nibble]: [Ok None] for ['?'], the digit value for a hexadecimal
    digit, ValueError otherwise. *)
Definition _hex_nibble (ch : ascii) : outcome (option Z) :=
  if Ascii.eqb ch "?"%char then Ok None
  else match Py.hex_digit ch with
       | Some d => Ok (Some d)
       | None => Fatal ValueError
       end.

(** [_parse_token]: the pair [(val, msk)] of one token. *)
Definition _parse_token (tok : list ascii) : outcome (Z * Z) :=
  match Py.strip tok with
  | [c0; c1] =>
      do hi <- _hex_nibble c0;
      do lo <- _hex_nibble c1;
      match hi with
      | None =>
          match lo with
          | None => Ok (0x00, 0x00)
          | Some l => Ok (Z.lor 0 l, Z.lor 0 0x0F)
          end
      | Some h =>
          let val := Z.lor 0 (Z.shiftl h 4) in
          let msk := Z.lor 0 0xF0 in
          match lo with
          | None => Ok (val, msk)
          | Some l => Ok (Z.lor val l, Z.lor msk 0x0F)
          end
      end
  | _ => Fatal ValueError
  end.

(** The tokens of an AOB string:
    [[t for t in aob.replace("\t", " ").split(" ") if t]]. *)
Definition tokens (aob : string) : list (list ascii) :=
  let s := map (fun c => if Ascii.eqb c "009"%char then " "%char else c)
               (list_ascii_of_string aob) in
  List.filter (fun t => negb (Nat.eqb (length t) 0)) (Py.split_on " "%char s).

(** [pat.append(v); msk.append(m)] for one token. *)
Definition token_bytes (t : list ascii) : outcome (byte * byte) :=
  do vm <- _parse_token t;
  do v <- of_option ValueError (Py.z2b (fst vm));
  do m <- of_option ValueError (Py.z2b (snd vm));
  Ok (v, m).

Definition aob_to_pat_mask (aob : string) : outcome (list byte * list byte) :=
  do vms <- omap token_bytes (tokens aob);
  Ok (map fst vms, map snd vms).

(** The inner comparison of [scan]: [m and ((a & m) != (b & m))]. *)
Definition mismatch (a b m : byte) : bool :=
  negb (Py.b2z m =? 0) && negb (Py.band a m =? Py.band b m).

(** The [for a, b, m in zip(w, pat, msk)] loop: [ok] stays true. *)
Definition window_ok (w pat msk : list byte) : bool :=
  forallb (fun abm => match abm with (a, b, m) => negb (mismatch a b m) end)
          (Py.zip3 w pat msk).

Definition scan (buf pat msk : list byte) : Z :=
  let n := Py.len pat in
  match find (fun i => window_ok (Py.slice buf i (i + n)) pat msk)
             (Py.range 0 (Py.len buf - n + 1)) with
  | Some i => i
  | None => -1
  end.

(** The loop of [find_code_cave], from index [k - 1] down to 0, with the
    running count [run]. *)
Fixpoint cave_loop (buf : list byte) (need : Z) (k : nat) (run : Z) : Z :=
  match k with
  | O => -1
  | S i =>
      if is_filler (nth i buf x00)
      then (let run' := run + 1 in
            if need <=? run' then Z.of_nat i else cave_loop buf need i run')
      else cave_loop buf need i 0
  end.

Definition find_code_cave (buf : list byte) (need : Z) : Z :=
  cave_loop buf need (length buf) 0.

(** One row of [rows]. *)
Record row : Type := Row {
  name : string;
  site_off : Z;
  tramp_off : Z;
  guard_bytes : list byte;
  guard_len : Z
}.

(** The variables of [main] that the hook loop reads and writes. [buf] is
    the bytearray read from the base image, [mod_] (the script's [mod]) the
    copy that is patched. *)
Record state : Type := State {
  buf : list byte;
  mod_ : list byte;
  cur : Z;
  rows : list row;
  hook_ids : list string
}.

(** [num_sites], the count made before the cave is looked for. *)
Definition spec_sites (spec : hook_spec) : Z :=
  match addr spec with
  | AddrList l => Py.len l
  | AddrOne _ => 1
  | AddrNone => match Py.truthy (aob spec) with Some _ => 1 | None => 0 end
  end.

Definition num_sites (hooks : hooks_map) : Z :=
  fold_left (fun n ns => n + spec_sites (snd ns)) hooks 0.

Definition arena_need (hooks : hooks_map) : Z :=
  per_tramp * Z.max 1 (num_sites hooks).

(** Lines 211-218: locate the cave, or grow [mod] by [arena_need] zero
    bytes; the result is [(mod, arena_off)]. *)
Definition alloc_arena (mod0 : list byte) (need : Z) : list byte * Z :=
  let arena_off := find_code_cave mod0 need in
  if arena_off <? 0
  then (mod0 ++ repeat x00 (Z.to_nat need), Py.len mod0)
  else (mod0, arena_off).

(** [targets], the addresses one hook is processed for. *)
Definition targets (spec : hook_spec) : list (option addr_val) :=
  match addr spec with
  | AddrList l => l
  | AddrOne a => [Some a]
  | AddrNone => [None]
  end.

Section WithAssembler.

(** Keystone: [ks_asm to_va origin_va] is the encoding of
    [ldr pc, [pc, #-4]; .word to_va] assembled at [origin_va]; [None] when
    the assembler raises. *)
Variable ks_asm : Z -> Z -> option (list byte).

Definition asm_abs_jump_va (to_va origin_off : Z) : outcome (list byte) :=
  let origin_va := CODE_BASE + origin_off in
  match ks_asm to_va origin_va with
  | None => Fatal KsError
  | Some b => if Py.len b =? 8 then Ok b else Fatal BadDetourSize
  end.

(** [--patch-sites] *)
Variable patch_sites : bool.

(** Site resolution, lines 241-253: [Ok None] is the [[skip]] branch. *)
Definition resolve (st : state) (spec : hook_spec) (a : option addr_val)
  : outcome (option Z) :=
  do site <-
    match a with
    | Some (AInt z) => Ok (Some z)
    | Some ABad => Ok None
    | None =>
        match Py.truthy (aob spec) with
        | Some s =>
            do pm <- aob_to_pat_mask s;
            Ok (Some (scan (buf st) (fst pm) (snd pm)))
        | None => Ok None
        end
    end;
  match site with
  | Some z => if z <? 0 then Ok None else Ok (Some z)
  | None => Ok None
  end.

(** Guard snapshot, lines 255-261: [(guard_len, guard_bytes)]. *)
Definition guard_snapshot (st : state) (spec : hook_spec) (site : Z)
  : outcome (Z * list byte) :=
  match Py.truthy (guard spec) with
  | Some g =>
      do gpm <- aob_to_pat_mask g;
      let glen := Py.len (fst gpm) in
      Ok (glen, Py.slice (buf st) site (site + glen))
  | None => Ok (0, [])
  end.

(** The trampoline of a site, lines 263-273: stolen bytes, then the jump
    back to the resume address. *)
Definition build_tramp (st : state) (site : Z) : outcome (list byte) :=
  let stolen := Py.slice (mod_ st) site (site + STOLEN_SIZE) in
  let tramp_off := cur st in
  let resume_off := site + STOLEN_SIZE in
  let resume_va := CODE_BASE + resume_off in
  do j <- asm_abs_jump_va resume_va (tramp_off + Py.len stolen);
  Ok (stolen ++ j).

(** The body of [for addr in targets], lines 240-299. *)
Definition site_step (nm : string) (spec : hook_spec) (st : state)
    (a : option addr_val) : outcome state :=
  do r <- resolve st spec a;
  match r with
  | None => Ok st
  | Some site =>
      do g <- guard_snapshot st spec site;
      do tramp <- build_tramp st site;
      let tramp_off := cur st in
      let end_tramp := tramp_off + Py.len tramp in
      let mod1 := Py.slice_assign (mod_ st) tramp_off end_tramp tramp in
      let cur1 := cur st + per_tramp in
      do mod2 <-
        (if patch_sites
         then (let tramp_va := CODE_BASE + tramp_off in
               do detour <- asm_abs_jump_va tramp_va site;
               if negb (Py.len detour =? STOLEN_SIZE) then Fatal BadDetourSize
               else Ok (Py.slice_assign mod1 site (site + STOLEN_SIZE) detour))
         else Ok mod1);
      Ok {| buf := buf st;
            mod_ := mod2;
            cur := cur1;
            rows := rows st ++ [ {| name := nm; site_off := site;
                                    tramp_off := tramp_off;
                                    guard_bytes := snd g;
                                    guard_len := fst g |} ];
            hook_ids := hook_ids st ++ [nm] |}
  end.

(** The body of [for name, spec in hooks.items()]. *)
Definition hook_step (st : state) (ns : string * hook_spec) : outcome state :=
  ofold (site_step (fst ns) (snd ns)) (targets (snd ns)) st.

(** [main] from [buf = bytearray(base.read_bytes())] to the end of the hook
    loop; [mod_] of the result is what [out.write_bytes(mod)] writes. *)
Definition main_loop (image : list byte) (hooks : hooks_map) : outcome state :=
  let buf0 := image in
  let '(mod0, arena_off) := alloc_arena buf0 (arena_need hooks) in
  ofold hook_step hooks
        {| buf := buf0; mod_ := mod0; cur := arena_off;
           rows := []; hook_ids := [] |}.

End WithAssembler.

(** *** The generated header, lines 305-337 *)

(** [unique_names]: the loop [if n not in unique_names: append]. *)
Definition unique_names (ids : list string) : list string :=
  fold_left (fun acc n => if existsb (String.eqb n) acc then acc else acc ++ [n])
            ids [].

(** [pad]: eight zeros, overwritten by the first eight guard bytes. *)
Definition pad_guard (g : list byte) : list byte :=
  fold_left (fun pad ib => <[fst ib := snd ib]> pad)
            (combine (seq 0 (length (Py.slice g 0 8))) (Py.slice g 0 8))
            (repeat x00 8).

(** One [HookEntry] initialiser. *)
Record hook_entry : Type := HookEntry {
  e_name : string;
  e_site_off : Z;
  e_tramp_off : Z;
  e_guard : list byte;
  e_guard_len : Z
}.

(** The content of [hooks_table.hpp]: the enumerators of [HookId], the value
    of [kNumHooks] and the initialisers of [kHooks]. *)
Record hook_table : Type := HookTable {
  enum_names : list string;
  kNumHooks : Z;
  kHooks : list hook_entry
}.

Definition emit_entry (r : row) : hook_entry :=
  {| e_name := name r; e_site_off := site_off r; e_tramp_off := tramp_off r;
     e_guard := pad_guard (guard_bytes r); e_guard_len := guard_len r |}.

Definition emit_header (st : state) : hook_table :=
  {| enum_names := unique_names (hook_ids st);
     kNumHooks := Py.len (rows st);
     kHooks := map emit_entry (rows st) |}.

End Inline.

(* ===================================================================== *)
(** ** [scripts/make_bps.py]                                               *)
(* ===================================================================== *)

Module BPS.

Definition arena_need_each : Z := 0x40.
(** The number of stolen bytes, the literal 10 of the script. *)
Definition STOLEN_LEN : Z := 10.
Definition NOP16 : list byte := [x00; xbf].

(** Paths, relative to the repository root. *)
Definition out_mod : string := "build/code_mod.bin".
Definition out_bps : string := "patch/code.bps".
Definition verify : string := "build/code_mod_verify.bin".
Definition staged_bps : string := "dist/<TitleID>/exefs/code.bps".

(** One token of [aob_to_bytes_mask]: ["??"] is the wildcard, anything else
    goes through [int(t, 16)] and [bytearray.append]. *)
Definition token_bytes (t : list ascii) : outcome (byte * byte) :=
  if String.eqb (string_of_list_ascii t) "??" then Ok (x00, x00)
  else
    do v <- of_option ValueError (Py.int16 t);
    do b <- of_option ValueError (Py.z2b v);
    Ok (b, xff).

Definition tokens (aob : string) : list (list ascii) :=
  Py.split_ws (Py.strip (list_ascii_of_string aob)).

Definition aob_to_bytes_mask (aob : string) : outcome (list byte * list byte) :=
  do vms <- omap token_bytes (tokens aob);
  Ok (map fst vms, map snd vms).

(** [m and a != b] *)
Definition mismatch (a b m : byte) : bool :=
  negb (Py.b2z m =? 0) && negb (Byte.eqb a b).

Definition window_ok (w pat msk : list byte) : bool :=
  forallb (fun abm => match abm with (a, b, m) => negb (mismatch a b m) end)
          (Py.zip3 w pat msk).

Definition scan_aob (buf pat msk : list byte) : Z :=
  let n := Py.len pat in
  match find (fun i => window_ok (Py.slice buf i (i + n)) pat msk)
             (Py.range 0 (Py.len buf - n + 1)) with
  | Some i => i
  | None => -1
  end.

Definition find_code_cave (buf : list byte) (need : Z) (prefer_from : option Z) : Z :=
  let start :=
    match prefer_from with
    | None => Py.len buf - need
    | Some p => Z.max 0 (Z.min (Py.len buf - need) p)
    end in
  match find (fun i => forallb is_filler (Py.slice buf i (i + need)))
             (Py.range_down start) with
  | Some i => i
  | None => -1
  end.

Record hook_record : Type := HookRecord {
  name : string;
  site_off : Z;
  tramp_off : Z;
  resume_off : Z;
  stolen_len : Z
}.

Record state : Type := State {
  buf : list byte;
  mod_ : list byte;
  arena_cur : Z;
  hook_records : list hook_record
}.

Section WithTools.

(** Keystone in Thumb mode: [ks_detour lo hi] is the encoding of
    [ASM_DETOUR_TEMPLATE], [ks_bw delta origin] that of [b.w #delta]
    assembled at [origin]; [None] when the assembler raises or is missing. *)
Variable ks_detour : Z -> Z -> option (list byte).
Variable ks_bw : Z -> Z -> option (list byte).

(** FLIPS: whether the executable is found, and what [--create --bps] and
    [--apply] produce from the content of their input files ([None]: a
    non-zero return code). *)
Variable flips_found : bool.
Variable flips_create : list byte -> list byte -> option (list byte).
Variable flips_apply : list byte -> list byte -> option (list byte).

Definition assemble_detour (lo16 hi16 : Z) : outcome (list byte) :=
  match ks_detour lo16 hi16 with
  | None => Fatal KsError
  | Some b => if Py.len b =? 10 then Ok b else Fatal BadDetourSize
  end.

(** Site resolution, lines 178-189: [Ok None] is a [continue]. *)
Definition resolve (st : state) (spec : hook_spec) : outcome (option Z) :=
  match addr spec with
  | AddrOne (AInt z) => Ok (Some z)
  | AddrOne ABad => Fatal ValueError
  | AddrList _ => Fatal ValueError
  | AddrNone =>
      match Py.truthy (aob spec) with
      | Some s =>
          do pm <- aob_to_bytes_mask s;
          let site_off := scan_aob (buf st) (fst pm) (snd pm) in
          if site_off <? 0 then Ok None else Ok (Some site_off)
      | None => Ok None
      end
  end.

(** Guard check on the base, lines 191-200: [Ok false] is a [continue]. *)
Definition guard_check (st : state) (spec : hook_spec) (site : Z) : outcome bool :=
  match Py.truthy (guard spec) with
  | Some g =>
      do gpm <- aob_to_bytes_mask g;
      let head := Py.slice (buf st) site (site + Py.len (fst gpm)) in
      Ok (window_ok head (fst gpm) (snd gpm))
  | None => Ok true
  end.

(** The trampoline, lines 202-226. *)
Definition build_tramp (st : state) (site : Z) : outcome (list byte) :=
  let stolen := Py.slice (mod_ st) site (site + 10) in
  let tramp_off := arena_cur st in
  let resume := site + 10 in
  let t0 := stolen in
  let t1 := if negb (Z.land (Py.len t0) 1 =? 0) then t0 ++ NOP16 else t0 in
  let t2 := if negb (Z.land (Py.len t1) 3 =? 0) then t1 ++ NOP16 else t1 in
  let delta := resume - (tramp_off + Py.len t2 + 4) in
  match ks_bw delta (Z.lor tramp_off 1) with
  | Some enc => Ok (t2 ++ enc)
  | None => Fatal KsError
  end.

(** The body of [for name, spec in hooks.items()], lines 173-245. *)
Definition hook_step (st : state) (ns : string * hook_spec) : outcome state :=
  let nm := fst ns in
  let spec := snd ns in
  do r <- resolve st spec;
  match r with
  | None => Ok st
  | Some site =>
      do ok <- guard_check st spec site;
      if negb ok then Ok st
      else
        do tramp <- build_tramp st site;
        let tramp_off := arena_cur st in
        let mod1 := Py.slice_assign (mod_ st) tramp_off
                                    (tramp_off + Py.len tramp) tramp in
        do detour <- assemble_detour 0 0;
        let mod2 := Py.slice_assign mod1 site (site + 10) detour in
        Ok {| buf := buf st;
              mod_ := mod2;
              arena_cur := arena_cur st + arena_need_each;
              hook_records := hook_records st ++
                [ {| name := nm; site_off := site; tramp_off := tramp_off;
                     resume_off := site + 10; stolen_len := 10 |} ] |}
  end.

Definition arena_total (hooks : hooks_map) : Z :=
  arena_need_each * Z.max 1 (Py.len hooks).

(** Lines 160-245: the cave, then the hook loop. *)
Definition main_loop (image : list byte) (hooks : hooks_map) : outcome state :=
  let buf0 := image in
  let mod0 := buf0 in
  let arena_off := find_code_cave mod0 (arena_total hooks) None in
  if arena_off <? 0 then Fatal NoCodeCave
  else ofold hook_step hooks
         {| buf := buf0; mod_ := mod0; arena_cur := arena_off;
            hook_records := [] |}.

(** [flips_create_bps(base, mod, outbps)] on the file store. *)
Definition flips_create_bps (fs : gmap string (list byte)) (base md outbps : string)
  : gmap string (list byte) * outcome unit :=
  if negb flips_found then (fs, Fatal FlipsMissing)
  else match fs !! base, fs !! md with
       | Some b, Some m =>
           match flips_create b m with
           | Some patch => (<[outbps := patch]> fs, Ok tt)
           | None => (fs, Fatal FlipsCreateFailed)
           end
       | _, _ => (fs, Fatal FlipsCreateFailed)
       end.

(** [flips_apply_bps(base, bps, out)] on the file store. *)
Definition flips_apply_bps (fs : gmap string (list byte)) (base bps out : string)
  : gmap string (list byte) * outcome unit :=
  match fs !! bps, fs !! base with
  | Some p, Some b =>
      match flips_apply p b with
      | Some recon => (<[out := recon]> fs, Ok tt)
      | None => (fs, Fatal FlipsApplyFailed)
      end
  | _, _ => (fs, Fatal FlipsApplyFailed)
  end.

(** Lines 247-265: write the patched image, create the patch, re-apply it,
    compare, stage. The file store is returned in every case: what was
    written before a failure stays on disk. *)
Definition emit (fs : gmap string (list byte)) (base : string) (md : list byte)
  : gmap string (list byte) * outcome unit :=
  let fs1 := <[out_mod := md]> fs in
  match flips_create_bps fs1 base out_mod out_bps with
  | (fs2, Fatal e) => (fs2, Fatal e)
  | (fs2, Ok _) =>
      match flips_apply_bps fs2 base out_bps verify with
      | (fs3, Fatal e) => (fs3, Fatal e)
      | (fs3, Ok _) =>
          match fs3 !! verify, fs3 !! out_mod with
          | Some v, Some m =>
              if negb (Py.bytes_eqb v m) then (fs3, Fatal RoundtripMismatch)
              else match fs3 !! out_bps with
                   | Some p => (<[staged_bps := p]> fs3, Ok tt)
                   | None => (fs3, Fatal FileNotFound)
                   end
          | _, _ => (fs3, Fatal FileNotFound)
          end
      end
  end.

(** [main] after the SHA-1 validation of the base image. *)
Definition main (fs : gmap string (list byte)) (base : string) (hooks : hooks_map)
  : gmap string (list byte) * outcome unit :=
  match fs !! base with
  | None => (fs, Fatal MissingBase)
  | Some image =>
      match main_loop image hooks with
      | Fatal e => (fs, Fatal e)
      | Ok st => emit fs base (mod_ st)
      end
  end.

End WithTools.

End BPS.

(* ===================================================================== *)
(** ** Concrete tools and inputs used in the examples                      *)
(* ===================================================================== *)

Module Fixtures.

(** Byte [k] (little endian) of a 32-bit word. *)
Definition le_byte (z : Z) (k : Z) : byte :=
  match Byte.of_N (Z.to_N (Z.land (Z.shiftr z (8 * k)) 0xFF)) with
  | Some b => b
  | None => x00
  end.

Definition le32 (z : Z) : list byte :=
  [le_byte z 0; le_byte z 1; le_byte z 2; le_byte z 3].

(** The ARM encoding of [ldr pc, [pc, #-4]] (0xE51FF004) followed by
    [.word to_va] (its low 32 bits); it does not depend on the origin. *)
Definition arm_abs_jump (to_va origin_va : Z) : option (list byte) :=
  Some ([x04; xf0; x1f; xe5] ++ le32 to_va).

(** The Thumb-2 encoding of [movw r12, #0; movt r12, #0; bx r12]. *)
Definition thumb_detour (lo hi : Z) : option (list byte) :=
  if (lo =? 0) && (hi =? 0)
  then Some [x40; xf2; x00; x0c; xc0; xf2; x00; x0c; x60; x47]
  else None.

(** A deterministic stand-in for the Thumb [b.w] encoder: four bytes that
    record the requested displacement. *)
Definition stub_bw (delta origin : Z) : option (list byte) :=
  Some (le32 (delta mod 2 ^ 32)).

(** A faithful diff engine: the patch is the target itself. *)
Definition whole_file_create (base target : list byte) : option (list byte) :=
  Some target.
Definition whole_file_apply (patch base : list byte) : option (list byte) :=
  Some patch.

(** A diff engine whose reconstruction is wrong: applying a patch returns
    the base unchanged. *)
Definition broken_apply (patch base : list byte) : option (list byte) :=
  Some base.

(** A 120-byte image: sixteen code bytes, then filler. *)
Definition image1 : list byte :=
  [x11; x12; x13; x14; x15; x16; x17; x18;
   x21; x22; x23; x24; x25; x26; x27; x28] ++ repeat xff 104.

(** A 256-byte image: the same code bytes, then more filler. *)
Definition image3 : list byte :=
  [x11; x12; x13; x14; x15; x16; x17; x18;
   x21; x22; x23; x24; x25; x26; x27; x28] ++ repeat xff 240.

(** A 16-byte image without any filler byte. *)
Definition image2 : list byte :=
  [x11; x12; x13; x14; x15; x16; x17; x18;
   x21; x22; x23; x24; x25; x26; x27; x28].

Definition spec_addr (z : Z) : hook_spec :=
  {| addr := AddrOne (AInt z); aob := None; guard := None |}.

Definition spec_addrs (l : list Z) : hook_spec :=
  {| addr := AddrList (map (fun z => Some (AInt z)) l); aob := None; guard := None |}.

Definition spec_aob (s : string) : hook_spec :=
  {| addr := AddrNone; aob := Some s; guard := None |}.

Definition spec_guarded (z : Z) (g : string) : hook_spec :=
  {| addr := AddrOne (AInt z); aob := None; guard := Some g |}.

(** A file store that holds the base image only. *)
Definition disk1 : gmap string (list byte) := {[ "code.bin"%string := image1 ]}.

End Fixtures.

(* ===================================================================== *)
(** ** The SHA-1 helper of both scripts                                    *)
(* ===================================================================== *)

(** [sha1(path)], lines 36-41 of [make_inline.py] and 29-34 of
    [make_bps.py]: the file is read in chunks of [1 << 20] bytes and every
    chunk is fed to the hash object until [f.read] returns [b""]. *)
Module Digest.

Definition CHUNK : Z := Z.shiftl 1 20.

(** [f.read(n)] on a file with the given content, at position [pos]: the
    bytes read and the new position. *)
Definition read (content : list byte) (pos n : Z) : list byte * Z :=
  let chunk := Py.slice content pos (pos + n) in
  (chunk, pos + Py.len chunk).

Section WithHash.

(** [hashlib]: the state of a hash object, [hashlib.sha1()], [h.update] and
    [h.hexdigest]. *)
Variable hstate : Type.
Variable h_new : hstate.
Variable h_update : hstate -> list byte -> hstate.
Variable h_hexdigest : hstate -> string.

(** [for chunk in iter(lambda: f.read(1 << 20), b""): h.update(chunk)];
    [None] when the fuel runs out. *)
Fixpoint feed (fuel : nat) (content : list byte) (pos : Z) (h : hstate)
  : option hstate :=
  match fuel with
  | O => None
  | S fuel' =>
      let '(chunk, pos') := read content pos CHUNK in
      match chunk with
      | [] => Some h
      | _ :: _ => feed fuel' content pos' (h_update h chunk)
      end
  end.

Definition sha1 (fuel : nat) (content : list byte) : option string :=
  match feed fuel content 0 h_new with
  | Some h => Some (h_hexdigest h)
  | None => None
  end.

End WithHash.

End Digest.

(* ===================================================================== *)
(** ** The expected SHA-1 of both scripts                                  *)
(* ===================================================================== *)

(** [read_expected] of [make_inline.py] (lines 44-50), [read_expected_sha1]
    of [make_bps.py] (lines 36-44) and the comparison each [main] makes
    (lines 186-189 and 152-155), on the text [read_text()] returns and the
    digest [sha1] returns. Strings are lists of characters with code points
    below 256. *)
Module Expected.

(** The line boundaries of [str.splitlines] among these characters:
    LF, VT, FF, CR, FS, GS, RS and NEL. *)
Definition is_linebreak (c : ascii) : bool :=
  let n := Py.code c in
  ((10 <=? n) && (n <=? 13)) || ((28 <=? n) && (n <=? 30)) || (n =? 133).

(** [s.splitlines()]: [cur] is the line read so far (reversed), [after_cr]
    tells that the previous character was a CR that ended a line, so that a
    LF now belongs to the same boundary. A last line is emitted only when
    it is not empty. *)
Fixpoint splitlines_aux (s cur : list ascii) (after_cr : bool)
  : list (list ascii) :=
  match s with
  | [] => match cur with [] => [] | _ :: _ => [rev cur] end
  | c :: r =>
      if after_cr && Ascii.eqb c "010"%char then splitlines_aux r cur false
      else if is_linebreak c
           then rev cur :: splitlines_aux r [] (Ascii.eqb c "013"%char)
           else splitlines_aux r (c :: cur) false
  end.

Definition splitlines (s : list ascii) : list (list ascii) :=
  splitlines_aux s [] false.

(** [str.lower] on one character: A-Z and the capital letters of Latin-1. *)
Definition lower_char (c : ascii) : ascii :=
  let n := Py.code c in
  if ((65 <=? n) && (n <=? 90))
     || ((192 <=? n) && (n <=? 222) && negb (n =? 215))
  then ascii_of_N (Z.to_N (n + 32))
  else c.

Definition lower (s : list ascii) : list ascii := map lower_char s.

(** [line and not line.startswith("#")] *)
Definition usable (line : list ascii) : bool :=
  match line with
  | [] => false
  | c :: _ => negb (Ascii.eqb c "#"%char)
  end.

(** The loop of both functions over the lines: the first stripped line that
    is usable, in lower case; [None] is the SystemExit after the loop. *)
Definition first_usable (lines : list (list ascii)) : option (list ascii) :=
  match find usable (map Py.strip lines) with
  | Some line => Some (lower line)
  | None => None
  end.

(** [make_inline.read_expected], on the text of the [.sha1] file. *)
Definition read_expected (text : string) : option (list ascii) :=
  first_usable (splitlines (list_ascii_of_string text)).

(** [make_bps.read_expected_sha1]: the text is stripped first. *)
Definition read_expected_sha1 (text : string) : option (list ascii) :=
  first_usable (splitlines (Py.strip (list_ascii_of_string text))).

Inductive verdict : Type :=
  | NoDigest      (* SystemExit: no SHA-1 in the file *)
  | Mismatch      (* SystemExit: SHA1 mismatch *)
  | Accepted.

Definition str_eqb (a b : list ascii) : bool :=
  String.eqb (string_of_list_ascii a) (string_of_list_ascii b).

(** [make_inline.main]: [if act.lower() != exp: raise SystemExit]. *)
Definition inline_check (text : string) (act : list ascii) : verdict :=
  match read_expected text with
  | None => NoDigest
  | Some exp => if negb (str_eqb (lower act) exp) then Mismatch else Accepted
  end.

(** [make_bps.main]:
    [if actual.lower() != expected.lower(): raise SystemExit]. *)
Definition bps_check (text : string) (actual : list ascii) : verdict :=
  match read_expected_sha1 text with
  | None => NoDigest
  | Some expected =>
      if negb (str_eqb (lower actual) (lower expected)) then Mismatch else Accepted
  end.

End Expected.

(* ===================================================================== *)
(** * Part II: specification vocabulary                                    *)
(* ===================================================================== *)

Module Spec.

(** The byte at offset [k] of an image. *)
Definition byte_at (l : list byte) (k : Z) : byte := nth (Z.to_nat k) l x00.

(** The pattern matches the image at offset [i]: the window lies inside the
    image and [(candidate & mask) = (pattern & mask)] at every position. *)
Definition matches_at (buf pat msk : list byte) (i : Z) : Prop :=
  0 <= i /\ i + Py.len pat <= Py.len buf /\
  forall k, 0 <= k < Py.len pat ->
    Py.band (byte_at buf (i + k)) (byte_at msk k)
    = Py.band (byte_at pat k) (byte_at msk k).

Definition lowest_match (buf pat msk : list byte) (r : Z) : Prop :=
  matches_at buf pat msk r /\ forall j, matches_at buf pat msk j -> r <= j.

Definition no_match (buf pat msk : list byte) : Prop :=
  forall j, ~ matches_at buf pat msk j.

(** Byte-for-byte substring search: the offset of the first suffix of the
    image that starts with the pattern, -1 when there is none. *)
Fixpoint is_prefix (p l : list byte) : bool :=
  match p, l with
  | [], _ => true
  | a :: p', b :: l' => Byte.eqb a b && is_prefix p' l'
  | _ :: _, [] => false
  end.

Fixpoint substring_from (buf pat : list byte) (i : Z) : Z :=
  if is_prefix pat buf then i
  else match buf with
       | [] => -1
       | _ :: r => substring_from r pat (i + 1)
       end.

Definition substring_search (buf pat : list byte) : Z := substring_from buf pat 0.

(** The pattern bytes occur in the image at offset [i]. *)
Definition occurs_at (buf pat : list byte) (i : Z) : Prop :=
  0 <= i /\ i + Py.len pat <= Py.len buf /\
  firstn (length pat) (skipn (Z.to_nat i) buf) = pat.

(** A pattern without wildcards: every mask byte is 0xFF. *)
Definition fixed_only (msk : list byte) : Prop := Forall (fun m => m = xff) msk.

(** A mask made of 0x00 and 0xFF bytes only. *)
Definition byte_mask (msk : list byte) : Prop :=
  Forall (fun m => m = x00 \/ m = xff) msk.

(** [need] filler bytes start at offset [i]. *)
Definition filler_run (buf : list byte) (i need : Z) : Prop :=
  0 <= i /\ i + need <= Py.len buf /\
  forall k, i <= k < i + need -> is_filler (byte_at buf k) = true.

(** A one-token pattern matches the byte [b]: the token parses to one
    pattern byte and one mask byte, and the scan of the one-byte image [b]
    finds it at offset 0. *)
Definition token_matches
    (parse : string -> outcome (list byte * list byte))
    (scan : list byte -> list byte -> list byte -> Z)
    (tok : string) (b : byte) : Prop :=
  exists v m, parse tok = Ok ([v], [m]) /\ scan [b] [v] [m] = 0.

(** The hexadecimal digits with their values. *)
Definition hex_table : list (ascii * Z) :=
  [("0", 0); ("1", 1); ("2", 2); ("3", 3); ("4", 4); ("5", 5); ("6", 6);
   ("7", 7); ("8", 8); ("9", 9);
   ("a", 10); ("b", 11); ("c", 12); ("d", 13); ("e", 14); ("f", 15);
   ("A", 10); ("B", 11); ("C", 12); ("D", 13); ("E", 14); ("F", 15)]%char.

(** The two-character token made of [c0] and [c1]. *)
Definition tok2 (c0 c1 : ascii) : string := String c0 (String c1 EmptyString).

(** Deduplication in first-seen order. *)
Fixpoint first_seen (l : list string) : list string :=
  match l with
  | [] => []
  | x :: r => x :: List.filter (fun y => negb (String.eqb x y)) (first_seen r)
  end.

(** [y] is not yet in the accumulator. *)
Definition fresh (acc : list string) (y : string) : bool :=
  negb (existsb (String.eqb y) acc).

(** *** The sites of a [make_inline] run, computed on the pristine image *)

(** A state that holds nothing but the image as read from disk. *)
Definition inline_pristine (image : list byte) : Inline.state :=
  {| Inline.buf := image; Inline.mod_ := image; Inline.cur := 0;
     Inline.rows := []; Inline.hook_ids := [] |}.

(** The site of one target with its guard snapshot [(site, guard, length)],
    as resolution on the pristine image gives it; empty when the target is
    skipped. *)
Definition inline_site (image : list byte) (spec : hook_spec) (a : option addr_val)
  : list (Z * list byte * Z) :=
  match Inline.resolve (inline_pristine image) spec a with
  | Ok (Some site) =>
      match Inline.guard_snapshot (inline_pristine image) spec site with
      | Ok g => [(site, snd g, fst g)]
      | Fatal _ => []
      end
  | _ => []
  end.

(** All sites of a hook set, each with the name of its hook, in the order
    of the hook loop. *)
Definition inline_sites (image : list byte) (hooks : hooks_map)
  : list (string * (Z * list byte * Z)) :=
  flat_map (fun ns => map (fun x => (fst ns, x))
                          (flat_map (inline_site image (snd ns))
                                    (Inline.targets (snd ns))))
           hooks.

(** The rows for a list of sites: trampoline slots are handed out in order,
    [per_tramp] bytes apart, starting at [c]. *)
Fixpoint mk_rows (c : Z) (l : list (string * (Z * list byte * Z))) : list Inline.row :=
  match l with
  | [] => []
  | (nm, (site, g, glen)) :: r =>
      {| Inline.name := nm; Inline.site_off := site; Inline.tramp_off := c;
         Inline.guard_bytes := g; Inline.guard_len := glen |}
      :: mk_rows (c + Inline.per_tramp) r
  end.

(** An assembler that always returns eight bytes. *)
Definition good_asm (ks_asm : Z -> Z -> option (list byte)) : Prop :=
  forall to_va origin, exists b, ks_asm to_va origin = Some b /\ Py.len b = 8.

(** Every pattern and guard string of the hook set is accepted by [parse]. *)
Definition parseable (parse : string -> outcome (list byte * list byte))
    (hooks : hooks_map) : Prop :=
  forall nm spec, In (nm, spec) hooks ->
    (forall s, Py.truthy (aob spec) = Some s -> exists pm, parse s = Ok pm) /\
    (forall g, Py.truthy (guard spec) = Some g -> exists pm, parse g = Ok pm).

(** *** Runs of [make_inline] whose sites do not interfere *)

(** Two windows of [w] bytes that start at [a] and [b] do not overlap. *)
Definition apart (w a b : Z) : Prop := a + w <= b \/ b + w <= a.

Fixpoint pairwise_apart (w : Z) (l : list Z) : Prop :=
  match l with
  | [] => True
  | s :: r => (forall s', In s' r -> apart w s s') /\ pairwise_apart w r
  end.

(** Every site of [rows] has its stolen window inside the first [limit]
    bytes and outside the arena, and no two windows overlap. *)
Definition sites_clear (limit arena_off need : Z) (rows : list Inline.row) : Prop :=
  (forall r, In r rows ->
     0 <= Inline.site_off r /\ Inline.site_off r + 8 <= limit /\
     (Inline.site_off r + 8 <= arena_off \/ arena_off + need <= Inline.site_off r))
  /\ pairwise_apart 8 (map Inline.site_off rows).

(** The invariant of the hook loop in such a run, relative to the buffer
    [mod0] the loop starts from: the length is unchanged, the cursor is one
    slot per row past the start of the arena, bytes outside the arena and
    outside the windows of the rows are those of [mod0], and every
    trampoline written so far starts with the bytes [mod0] has at its
    site. *)
Definition inline_inv (mod0 : list byte) (arena_off need : Z) (st : Inline.state)
  : Prop :=
  Py.len (Inline.mod_ st) = Py.len mod0 /\
  Inline.cur st = arena_off + Inline.per_tramp * Py.len (Inline.rows st) /\
  (forall p, 0 <= p -> (p < arena_off \/ arena_off + need <= p) ->
     (forall r, In r (Inline.rows st) ->
        p < Inline.site_off r \/ Inline.site_off r + 8 <= p) ->
     byte_at (Inline.mod_ st) p = byte_at mod0 p) /\
  (forall r, In r (Inline.rows st) ->
     arena_off <= Inline.tramp_off r /\
     Inline.tramp_off r + Inline.per_tramp <= Inline.cur st /\
     Py.slice (Inline.mod_ st) (Inline.tramp_off r) (Inline.tramp_off r + 8)
     = Py.slice mod0 (Inline.site_off r) (Inline.site_off r + 8)).

(** *** The sites of a [make_bps] run, computed on the pristine image *)

Definition bps_pristine (image : list byte) : BPS.state :=
  {| BPS.buf := image; BPS.mod_ := image; BPS.arena_cur := 0;
     BPS.hook_records := [] |}.

(** The site of one hook when it resolves and passes its guard check on the
    pristine image; empty when the hook is skipped. *)
Definition bps_site (image : list byte) (spec : hook_spec) : list Z :=
  match BPS.resolve (bps_pristine image) spec with
  | Ok (Some site) =>
      match BPS.guard_check (bps_pristine image) spec site with
      | Ok true => [site]
      | _ => []
      end
  | _ => []
  end.

Definition bps_sites (image : list byte) (hooks : hooks_map) : list (string * Z) :=
  flat_map (fun ns => map (fun x => (fst ns, x)) (bps_site image (snd ns))) hooks.

Fixpoint mk_records (c : Z) (l : list (string * Z)) : list BPS.hook_record :=
  match l with
  | [] => []
  | (nm, site) :: r =>
      {| BPS.name := nm; BPS.site_off := site; BPS.tramp_off := c;
         BPS.resume_off := site + 10; BPS.stolen_len := 10 |}
      :: mk_records (c + BPS.arena_need_each) r
  end.

(** Thumb assemblers that do not fail: the detour is ten bytes long. *)
Definition good_thumb (ks_detour ks_bw : Z -> Z -> option (list byte)) : Prop :=
  (exists b, ks_detour 0 0 = Some b /\ Py.len b = 10) /\
  (forall delta origin, exists b, ks_bw delta origin = Some b).

(** No hook has an [addr] that [int(str(addr), 0)] rejects. *)
Definition int_addrs (hooks : hooks_map) : Prop :=
  forall nm spec, In (nm, spec) hooks ->
    addr spec = AddrNone \/ exists z, addr spec = AddrOne (AInt z).

End Spec.

(* ===================================================================== *)
(** * Part II-b: further specification vocabulary                          *)
(* ===================================================================== *)

Module SpecX.

(** The frame of the hook loop of [make_inline.py], relative to the buffer
    [mod0] the loop starts from: the length is that of [mod0], the cursor is
    one slot per row past the start of the arena, and a byte outside the
    sixteen-byte trampoline windows of the rows (and, with [--patch-sites],
    outside their stolen windows) is the byte of [mod0]. *)
Definition frame_inv (ps : bool) (mod0 : list byte) (off : Z)
    (st : Inline.state) : Prop :=
  Py.len (Inline.mod_ st) = Py.len mod0 /\
  Inline.cur st = off + Inline.per_tramp * Py.len (Inline.rows st) /\
  forall p, 0 <= p ->
    (forall r, In r (Inline.rows st) ->
       p < Inline.tramp_off r \/ Inline.tramp_off r + 16 <= p) ->
    (ps = true -> forall r, In r (Inline.rows st) ->
       p < Inline.site_off r \/ Inline.site_off r + 8 <= p) ->
    Spec.byte_at (Inline.mod_ st) p = Spec.byte_at mod0 p.

(** What the frame asks of the rows: with [--patch-sites] every stolen
    window ends inside [mod0]; the rows do not need more slots than the
    arena has. *)
Definition frame_ok (ps : bool) (mod0 : list byte) (need : Z)
    (rows : list Inline.row) : Prop :=
  (ps = true -> forall r, In r rows -> Inline.site_off r + 8 <= Py.len mod0) /\
  Inline.per_tramp * Py.len rows <= need.

(** The row [r] is wired in the buffer [m]: bytes 8-15 of its trampoline
    are the jump the assembler gives for the resume address
    [CODE_BASE + site + 8], assembled at the trampoline offset plus 8, and,
    with [--patch-sites], the eight bytes at its site are the jump to
    [CODE_BASE + tramp_off], assembled at the site. *)
Definition wired (ks : Z -> Z -> option (list byte)) (ps : bool)
    (m : list byte) (r : Inline.row) : Prop :=
  Inline.asm_abs_jump_va ks
    (Inline.CODE_BASE + (Inline.site_off r + Inline.STOLEN_SIZE))
    (Inline.tramp_off r + Inline.STOLEN_SIZE)
  = Ok (Py.slice m (Inline.tramp_off r + 8) (Inline.tramp_off r + 16)) /\
  (ps = true ->
   Inline.asm_abs_jump_va ks (Inline.CODE_BASE + Inline.tramp_off r)
                          (Inline.site_off r)
   = Ok (Py.slice m (Inline.site_off r) (Inline.site_off r + 8))).

Definition wired_inv (ks : Z -> Z -> option (list byte)) (ps : bool)
    (mod0 : list byte) (off need : Z) (st : Inline.state) : Prop :=
  Spec.inline_inv mod0 off need st /\
  forall r, In r (Inline.rows st) -> wired ks ps (Inline.mod_ st) r.

Definition wired_ok (limit off need : Z) (rows : list Inline.row) : Prop :=
  Spec.sites_clear limit off need rows /\
  Inline.per_tramp * Py.len rows <= need.

(** *** The frame of a [make_bps] run *)

(** The frame of the hook loop of [make_bps.py], relative to the base
    image: the length is that of the image, the cursor is one slot per
    record past the start of the arena, and a byte outside the slots and
    outside the ten-byte windows of the records is the byte of the image. *)
Definition bps_frame_inv (image : list byte) (off : Z) (st : BPS.state)
  : Prop :=
  Py.len (BPS.mod_ st) = Py.len image /\
  BPS.arena_cur st = off + BPS.arena_need_each * Py.len (BPS.hook_records st) /\
  forall p, 0 <= p ->
    (forall r, In r (BPS.hook_records st) ->
       p < BPS.tramp_off r \/ BPS.tramp_off r + BPS.arena_need_each <= p) ->
    (forall r, In r (BPS.hook_records st) ->
       p < BPS.site_off r \/ BPS.site_off r + 10 <= p) ->
    Spec.byte_at (BPS.mod_ st) p = Spec.byte_at image p.

(** What the frame asks of the records: every ten-byte window lies inside
    the image, and the records do not need more slots than the arena has. *)
Definition bps_frame_ok (image : list byte) (need : Z)
    (recs : list BPS.hook_record) : Prop :=
  (forall r, In r recs ->
     0 <= BPS.site_off r /\ BPS.site_off r + 10 <= Py.len image) /\
  BPS.arena_need_each * Py.len recs <= need.

(** A branch encoder whose output fits the slot behind the twelve bytes of
    stolen code and padding (a Thumb [b.w] has four bytes). *)
Definition branch_fits (ks_bw : Z -> Z -> option (list byte)) : Prop :=
  forall delta origin enc, ks_bw delta origin = Some enc -> Py.len enc <= 52.

(** *** The tokens of [make_inline.py] *)

(** A character [_hex_nibble] accepts: ['?'] or a hexadecimal digit. *)
Definition nibble_char (c : ascii) : bool :=
  Ascii.eqb c "?"%char
  || match Py.hex_digit c with Some _ => true | None => false end.

(** A token [_parse_token] accepts: two such characters once stripped. *)
Definition two_nibbles (t : list ascii) : bool :=
  match Py.strip t with
  | [c0; c1] => nibble_char c0 && nibble_char c1
  | _ => false
  end.

(** The mask bytes of [make_inline.py]. *)
Definition nibble_mask (m : byte) : Prop :=
  m = x00 \/ m = x0f \/ m = xf0 \/ m = xff.

(** *** The wiring of a [make_bps] run *)

(** The sites of the records are clear: every ten-byte window lies inside
    the image and outside the arena, no two windows overlap, and the
    records do not need more slots than the arena has. *)
Definition bps_clear (image : list byte) (off need : Z)
    (recs : list BPS.hook_record) : Prop :=
  (forall r, In r recs ->
     0 <= BPS.site_off r /\ BPS.site_off r + 10 <= Py.len image /\
     (BPS.site_off r + 10 <= off \/ off + need <= BPS.site_off r)) /\
  Spec.pairwise_apart 10 (map BPS.site_off recs) /\
  BPS.arena_need_each * Py.len recs <= need.

(** The record [r] is wired in the buffer [m]: its trampoline holds the ten
    bytes the image has at the site, one 16-bit NOP and the branch back to
    the resume offset, and the site holds the detour. *)
Definition bps_wired (kd kb : Z -> Z -> option (list byte)) (image m : list byte)
    (r : BPS.hook_record) : Prop :=
  Py.slice m (BPS.tramp_off r) (BPS.tramp_off r + 10)
  = Py.slice image (BPS.site_off r) (BPS.site_off r + 10) /\
  Py.slice m (BPS.tramp_off r + 10) (BPS.tramp_off r + 12) = BPS.NOP16 /\
  (exists enc,
     kb (BPS.site_off r + 10 - (BPS.tramp_off r + 16)) (Z.lor (BPS.tramp_off r) 1)
     = Some enc /\
     Py.slice m (BPS.tramp_off r + 12) (BPS.tramp_off r + 12 + Py.len enc) = enc) /\
  (exists d,
     BPS.assemble_detour kd 0 0 = Ok d /\
     Py.slice m (BPS.site_off r) (BPS.site_off r + 10) = d).

Definition bps_wired_inv (kd kb : Z -> Z -> option (list byte))
    (image : list byte) (off : Z) (st : BPS.state) : Prop :=
  bps_frame_inv image off st /\
  forall r, In r (BPS.hook_records st) ->
    off <= BPS.tramp_off r /\
    BPS.tramp_off r + BPS.arena_need_each <= BPS.arena_cur st /\
    bps_wired kd kb image (BPS.mod_ st) r.

(** *** The lines of a [.sha1] file *)

Definition nonnil (l : list ascii) : bool :=
  match l with [] => false | _ :: _ => true end.

(** The stripped lines that are not blank, from the state of
    [splitlines]. *)
Definition nb (s cur : list ascii) (cr : bool) : list (list ascii) :=
  List.filter nonnil (map Py.strip (Expected.splitlines_aux s cur cr)).

End SpecX.

(* ===================================================================== *)
(** * Part III: facts about the Python primitives                          *)
(* ===================================================================== *)

Module PyFacts.

Lemma len_nonneg {A} (l : list A) : 0 <= Py.len l.
Proof. unfold Py.len. lia. Qed.

Lemma len_app {A} (l1 l2 : list A) : Py.len (l1 ++ l2) = Py.len l1 + Py.len l2.
Proof. unfold Py.len. rewrite length_app. lia. Qed.

Lemma len_cons {A} (x : A) (l : list A) : Py.len (x :: l) = 1 + Py.len l.
Proof. unfold Py.len. simpl length. lia. Qed.

Lemma len_map {A B} (f : A -> B) (l : list A) : Py.len (map f l) = Py.len l.
Proof. unfold Py.len. now rewrite length_map. Qed.

Lemma len_repeat {A} (x : A) (n : nat) : Py.len (repeat x n) = Z.of_nat n.
Proof. unfold Py.len. now rewrite repeat_length. Qed.

(** ** Ranges *)

Lemma in_range a b i : In i (Py.range a b) <-> a <= i < b.
Proof.
  unfold Py.range. rewrite in_map_iff. split.
  - intros [k [<- Hk]]. apply in_seq in Hk. lia.
  - intros H. exists (Z.to_nat (i - a)). split; [lia|]. apply in_seq. lia.
Qed.

Lemma in_range_down a i : In i (Py.range_down a) <-> 0 <= i <= a.
Proof.
  unfold Py.range_down. rewrite in_map_iff. split.
  - intros [k [<- Hk]]. apply in_seq in Hk. lia.
  - intros H. exists (Z.to_nat (a - i)). split; [lia|]. apply in_seq. lia.
Qed.

(** [find] over an ascending range returns the least index that passes. *)
Lemma find_up (f : Z -> bool) (a : Z) (n s : nat) :
  match find f (map (fun k => a + Z.of_nat k) (seq s n)) with
  | Some i => a + Z.of_nat s <= i < a + Z.of_nat (s + n) /\ f i = true /\
              forall j, a + Z.of_nat s <= j < i -> f j = false
  | None => forall j, a + Z.of_nat s <= j < a + Z.of_nat (s + n) -> f j = false
  end.
Proof.
  revert s. induction n as [|n IH]; intros s; simpl.
  - intros j Hj. lia.
  - destruct (f (a + Z.of_nat s)) eqn:Hf.
    + repeat split; try lia. exact Hf.
    + specialize (IH (S s)). destruct (find _ _) as [i|].
      * destruct IH as (Hr & Hi & Hlow). repeat split; try lia; [exact Hi|].
        intros j Hj. destruct (Z.eq_dec j (a + Z.of_nat s)) as [->|Hne];
          [exact Hf | apply Hlow; lia].
      * intros j Hj. destruct (Z.eq_dec j (a + Z.of_nat s)) as [->|Hne];
          [exact Hf | apply IH; lia].
Qed.

Lemma find_range (f : Z -> bool) (a b : Z) :
  match find f (Py.range a b) with
  | Some i => a <= i < b /\ f i = true /\ forall j, a <= j < i -> f j = false
  | None => forall j, a <= j < b -> f j = false
  end.
Proof.
  unfold Py.range. pose proof (find_up f a (Z.to_nat (b - a)) 0) as H.
  destruct (find _ _) as [i|].
  - destruct H as (Hr & Hi & Hlow). repeat split; try lia; [exact Hi|].
    intros j Hj. apply Hlow. lia.
  - intros j Hj. apply H. lia.
Qed.

(** [find] over a descending range returns the greatest index that passes. *)
Lemma find_down (f : Z -> bool) (a : Z) (n s : nat) :
  match find f (map (fun k => a - Z.of_nat k) (seq s n)) with
  | Some i => a - Z.of_nat (s + n) < i <= a - Z.of_nat s /\ f i = true /\
              forall j, i < j <= a - Z.of_nat s -> f j = false
  | None => forall j, a - Z.of_nat (s + n) < j <= a - Z.of_nat s -> f j = false
  end.
Proof.
  revert s. induction n as [|n IH]; intros s; simpl.
  - intros j Hj. lia.
  - destruct (f (a - Z.of_nat s)) eqn:Hf.
    + repeat split; try lia. exact Hf.
    + specialize (IH (S s)). destruct (find _ _) as [i|].
      * destruct IH as (Hr & Hi & Hlow). repeat split; try lia; [exact Hi|].
        intros j Hj. destruct (Z.eq_dec j (a - Z.of_nat s)) as [->|Hne];
          [exact Hf | apply Hlow; lia].
      * intros j Hj. destruct (Z.eq_dec j (a - Z.of_nat s)) as [->|Hne];
          [exact Hf | apply IH; lia].
Qed.

Lemma find_range_down (f : Z -> bool) (a : Z) :
  match find f (Py.range_down a) with
  | Some i => 0 <= i <= a /\ f i = true /\ forall j, i < j <= a -> f j = false
  | None => forall j, 0 <= j <= a -> f j = false
  end.
Proof.
  unfold Py.range_down. pose proof (find_down f a (Z.to_nat (a + 1)) 0) as H.
  destruct (find _ _) as [i|].
  - destruct H as (Hr & Hi & Hlow). repeat split; try lia; [exact Hi|].
    intros j Hj. apply Hlow. lia.
  - intros j Hj. apply H. lia.
Qed.

(** ** Slices *)

Lemma index_in n i : 0 <= i <= n -> Py.index n i = i.
Proof. intros H. unfold Py.index. destruct (Z.ltb_spec i 0); lia. Qed.

Lemma index_over n i : 0 <= n <= i -> Py.index n i = n.
Proof. intros H. unfold Py.index. destruct (Z.ltb_spec i 0); lia. Qed.

Lemma slice_in {A} (l : list A) (a b : Z) :
  0 <= a -> a <= b -> b <= Py.len l ->
  Py.slice l a b = firstn (Z.to_nat (b - a)) (skipn (Z.to_nat a) l).
Proof.
  intros Ha Hab Hb. unfold Py.slice. cbv zeta.
  rewrite !index_in by lia. reflexivity.
Qed.

Lemma slice_len_in {A} (l : list A) (a b : Z) :
  0 <= a -> a <= b -> b <= Py.len l -> Py.len (Py.slice l a b) = b - a.
Proof.
  intros Ha Hab Hb. rewrite slice_in by assumption. unfold Py.len in *.
  rewrite length_firstn, length_skipn. lia.
Qed.

Lemma slice_nth_in {A} (l : list A) (a b : Z) (k : nat) (d : A) :
  0 <= a -> a <= b -> b <= Py.len l -> Z.of_nat k < b - a ->
  nth k (Py.slice l a b) d = nth (Z.to_nat a + k) l d.
Proof.
  intros Ha Hab Hb Hk. rewrite slice_in by assumption.
  rewrite nth_firstn. destruct (Nat.ltb_spec k (Z.to_nat (b - a))); [|lia].
  rewrite nth_skipn. reflexivity.
Qed.

Lemma slice_all {A} (l : list A) : Py.slice l 0 (Py.len l) = l.
Proof.
  rewrite slice_in by (pose proof (len_nonneg l); lia).
  simpl. rewrite Z.sub_0_r. unfold Py.len. rewrite Nat2Z.id. apply firstn_all.
Qed.

Lemma nth_splice {A} (l x : list A) (a p : nat) (d : A) :
  (a + length x <= length l)%nat ->
  nth p (firstn a l ++ x ++ skipn (a + length x) l) d
  = if (a <=? p)%nat && (p <? a + length x)%nat then nth (p - a) x d else nth p l d.
Proof.
  intros Hfit.
  assert (Hf : length (firstn a l) = a) by (rewrite length_firstn; lia).
  destruct (Nat.leb_spec a p) as [Hap|Hap]; simpl.
  - rewrite app_nth2 by lia. rewrite Hf.
    destruct (Nat.ltb_spec p (a + length x)) as [Hpx|Hpx].
    + rewrite app_nth1 by lia. reflexivity.
    + rewrite app_nth2 by lia. rewrite nth_skipn. f_equal. lia.
  - rewrite app_nth1 by lia. rewrite nth_firstn.
    destruct (Nat.ltb_spec p a); [reflexivity | lia].
Qed.

Lemma slice_assign_in {A} (l x : list A) (a : Z) :
  0 <= a -> a + Py.len x <= Py.len l ->
  Py.slice_assign l a (a + Py.len x) x
  = firstn (Z.to_nat a) l ++ x ++ skipn (Z.to_nat a + length x) l.
Proof.
  intros Ha Hfit. unfold Py.slice_assign. cbv zeta.
  pose proof (len_nonneg x). rewrite !index_in by lia.
  rewrite Z.max_r by lia. do 3 f_equal. unfold Py.len. lia.
Qed.

Lemma slice_assign_len {A} (l x : list A) (a : Z) :
  0 <= a -> a + Py.len x <= Py.len l ->
  Py.len (Py.slice_assign l a (a + Py.len x) x) = Py.len l.
Proof.
  intros Ha Hfit. rewrite slice_assign_in by assumption.
  unfold Py.len in *. rewrite !length_app, length_firstn, length_skipn. lia.
Qed.

Lemma slice_assign_nth {A} (l x : list A) (a p : Z) (d : A) :
  0 <= a -> a + Py.len x <= Py.len l -> 0 <= p ->
  nth (Z.to_nat p) (Py.slice_assign l a (a + Py.len x) x) d
  = if (a <=? p) && (p <? a + Py.len x) then nth (Z.to_nat (p - a)) x d
    else nth (Z.to_nat p) l d.
Proof.
  intros Ha Hfit Hp. rewrite slice_assign_in by assumption.
  rewrite nth_splice by (unfold Py.len in *; lia).
  destruct (Z.leb_spec a p), (Nat.leb_spec (Z.to_nat a) (Z.to_nat p)); try lia; simpl.
  - destruct (Z.ltb_spec p (a + Py.len x)),
             (Nat.ltb_spec (Z.to_nat p) (Z.to_nat a + length x));
      try (unfold Py.len in *; lia).
    + f_equal. lia.
    + reflexivity.
  - reflexivity.
Qed.

(** Two windows of the same length with the same bytes are equal slices. *)
Lemma slice_ext {A} (l l' : list A) (a b n : Z) (d : A) :
  0 <= a -> 0 <= b -> 0 <= n -> a + n <= Py.len l -> b + n <= Py.len l' ->
  (forall k, 0 <= k < n ->
     nth (Z.to_nat (a + k)) l d = nth (Z.to_nat (b + k)) l' d) ->
  Py.slice l a (a + n) = Py.slice l' b (b + n).
Proof.
  intros Ha Hb Hn Hl Hl' H.
  assert (L1 : length (Py.slice l a (a + n)) = Z.to_nat n).
  { pose proof (slice_len_in l a (a + n)). unfold Py.len in *. lia. }
  assert (L2 : length (Py.slice l' b (b + n)) = Z.to_nat n).
  { pose proof (slice_len_in l' b (b + n)). unfold Py.len in *. lia. }
  apply (nth_ext _ _ d d); [congruence|].
  intros k Hk. rewrite L1 in Hk.
  rewrite !slice_nth_in by lia.
  specialize (H (Z.of_nat k) ltac:(lia)).
  replace (Z.to_nat (a + Z.of_nat k)) with (Z.to_nat a + k)%nat in H by lia.
  replace (Z.to_nat (b + Z.of_nat k)) with (Z.to_nat b + k)%nat in H by lia.
  exact H.
Qed.

(** ** Bytes *)

Lemma b2z_range b : 0 <= Py.b2z b < 256.
Proof.
  unfold Py.b2z. pose proof (Byte.to_N_bounded b). lia.
Qed.

Lemma b2z_inj a b : Py.b2z a = Py.b2z b -> a = b.
Proof.
  unfold Py.b2z. intros H. apply N2Z.inj in H.
  pose proof (Byte.of_to_N a) as Ha. pose proof (Byte.of_to_N b) as Hb.
  rewrite H in Ha. congruence.
Qed.

Lemma z2b_b2z b : Py.z2b (Py.b2z b) = Some b.
Proof.
  unfold Py.z2b. pose proof (b2z_range b).
  destruct (Z.leb_spec 0 (Py.b2z b)); [|lia].
  destruct (Z.ltb_spec (Py.b2z b) 256); [|lia].
  simpl. unfold Py.b2z. rewrite N2Z.id. apply Byte.of_to_N.
Qed.

Lemma z2b_some z : 0 <= z < 256 -> exists b, Py.z2b z = Some b /\ Py.b2z b = z.
Proof.
  intros H. unfold Py.z2b.
  destruct (Z.leb_spec 0 z); [|lia]. destruct (Z.ltb_spec z 256); [|lia].
  simpl. destruct (Byte.of_N (Z.to_N z)) as [b|] eqn:E.
  - exists b. split; [reflexivity|]. apply Byte.to_of_N in E.
    unfold Py.b2z. rewrite E. lia.
  - apply Byte.of_N_None_iff in E. lia.
Qed.

Lemma z2b_inv z b : Py.z2b z = Some b -> Py.b2z b = z.
Proof.
  unfold Py.z2b. destruct (Z.leb_spec 0 z); simpl; [|discriminate].
  destruct (Z.ltb_spec z 256); [|discriminate].
  intros E. apply Byte.to_of_N in E. unfold Py.b2z. rewrite E. lia.
Qed.

Lemma byte_eqb_eq a b : Byte.eqb a b = true <-> a = b.
Proof.
  split; [apply Byte.byte_dec_bl | apply Byte.byte_dec_lb].
Qed.

Lemma byte_eqb_refl a : Byte.eqb a a = true.
Proof. now apply byte_eqb_eq. Qed.

Lemma bytes_eqb_eq x y : Py.bytes_eqb x y = true <-> x = y.
Proof.
  revert y. induction x as [|a x IH]; intros [|b y]; simpl;
    try (split; [discriminate | congruence]); try tauto.
  rewrite andb_true_iff, byte_eqb_eq, IH. split.
  - intros [-> ->]. reflexivity.
  - intros E. injection E as -> ->. tauto.
Qed.

Lemma band_ff a : Py.band a xff = Py.b2z a.
Proof. destruct a; reflexivity. Qed.

Lemma band_00 a : Py.band a x00 = 0.
Proof. unfold Py.band. simpl. apply Z.land_0_r. Qed.

Lemma band_f0 a : Py.band a xf0 = 16 * (Py.b2z a / 16).
Proof. destruct a; reflexivity. Qed.

Lemma band_0f a : Py.band a x0f = Py.b2z a mod 16.
Proof. destruct a; reflexivity. Qed.

End PyFacts.

(* ===================================================================== *)
(** * Part IV: pattern scanning                                            *)
(* ===================================================================== *)

Module ScanFacts.

Import PyFacts.

Lemma omap_ok {A B} (f : A -> outcome B) (l : list A) (ys : list B) :
  omap f l = Ok ys -> Forall2 (fun x y => f x = Ok y) l ys.
Proof.
  revert ys. induction l as [|x l IH]; intros ys; simpl.
  - intros E. injection E as <-. constructor.
  - destruct (f x) as [y|e] eqn:Ef; simpl; [|discriminate].
    destruct (omap f l) as [ys'|e] eqn:El; simpl; [|discriminate].
    intros E. injection E as <-. constructor; auto.
Qed.

Lemma omap_total {A B} (f : A -> outcome B) (l : list A) :
  Forall (fun x => exists y, f x = Ok y) l -> exists ys, omap f l = Ok ys.
Proof.
  induction 1 as [|x l [y Hy] _ [ys IH]]; simpl.
  - now exists [].
  - rewrite Hy, IH. simpl. now exists (y :: ys).
Qed.

Lemma forallb_zip3 {A B C} (f : A * B * C -> bool) (da : A) (db : B) (dc : C)
    (w : list A) (p : list B) (m : list C) :
  forallb f (Py.zip3 w p m) = true <->
  forall k : nat, (k < length w)%nat -> (k < length p)%nat -> (k < length m)%nat ->
    f (nth k w da, nth k p db, nth k m dc) = true.
Proof.
  revert p m. induction w as [|a w IH]; intros [|b p] [|c m]; simpl;
    try (split; [intros _ k; lia | reflexivity]).
  rewrite andb_true_iff, IH. split.
  - intros [H0 H] [|k] Hw Hp Hm; [exact H0 | apply H; lia].
  - intros H. split; [apply (H 0%nat); lia|].
    intros k Hw Hp Hm. apply (H (S k)); lia.
Qed.

(** ** [make_inline.scan] *)

Lemma inline_mismatch_false a b m :
  Inline.mismatch a b m = false <-> Py.band a m = Py.band b m.
Proof.
  unfold Inline.mismatch. destruct (Z.eqb_spec (Py.b2z m) 0) as [E|E]; simpl.
  - assert (m = x00) as -> by (apply b2z_inj; rewrite E; reflexivity).
    rewrite !band_00. tauto.
  - destruct (Z.eqb_spec (Py.band a m) (Py.band b m)); simpl;
      split; congruence.
Qed.

Lemma inline_window_ok buf pat msk i :
  length msk = length pat -> 0 <= i -> i + Py.len pat <= Py.len buf ->
  (Inline.window_ok (Py.slice buf i (i + Py.len pat)) pat msk = true
   <-> Spec.matches_at buf pat msk i).
Proof.
  intros Hlen Hi Hfit. unfold Inline.window_ok, Spec.matches_at.
  pose proof (len_nonneg pat) as Hn.
  rewrite (forallb_zip3 _ x00 x00 x00).
  assert (Hsl : length (Py.slice buf i (i + Py.len pat)) = length pat).
  { pose proof (slice_len_in buf i (i + Py.len pat)) as H.
    unfold Py.len in *. lia. }
  split.
  - intros H. split; [exact Hi|]. split; [exact Hfit|].
    intros k Hk. specialize (H (Z.to_nat k)).
    rewrite negb_true_iff, inline_mismatch_false in H.
    rewrite slice_nth_in in H by (unfold Py.len in *; lia).
    unfold Spec.byte_at. replace (Z.to_nat (i + k)) with (Z.to_nat i + Z.to_nat k)%nat by lia.
    apply H; unfold Py.len in *; lia.
  - intros (_ & _ & H) k Hw Hp Hm.
    rewrite negb_true_iff, inline_mismatch_false.
    rewrite slice_nth_in by (unfold Py.len in *; lia).
    specialize (H (Z.of_nat k)). unfold Spec.byte_at in H.
    replace (Z.to_nat (i + Z.of_nat k)) with (Z.to_nat i + k)%nat in H by lia.
    rewrite Nat2Z.id in H. apply H. unfold Py.len. lia.
Qed.

(** What a scan loop returns, for any window test [ok] that decides a
    predicate [P] on the offsets where the window fits. *)
Lemma scan_loop_spec (ok : Z -> bool) (P : Z -> Prop) (hi : Z) :
  (forall i, 0 <= i < hi -> (ok i = true <-> P i)) ->
  (forall i, P i -> 0 <= i < hi) ->
  let r := match find ok (Py.range 0 hi) with Some i => i | None => -1 end in
  (r = -1 /\ forall j, ~ P j) \/ (P r /\ forall j, P j -> r <= j).
Proof.
  intros Hdec Hdom r. subst r. pose proof (find_range ok 0 hi) as H.
  destruct (find ok (Py.range 0 hi)) as [i|].
  - right. destruct H as (Hr & Hi & Hlow). split; [now apply Hdec|].
    intros j Hj. destruct (Z.lt_ge_cases j i) as [Hlt|]; [|lia].
    pose proof (Hdom j Hj) as Hjr.
    assert (ok j = false) as Hf by (apply Hlow; lia).
    apply Hdec in Hj; [congruence | lia].
  - left. split; [reflexivity|]. intros j Hj.
    pose proof (Hdom j Hj) as Hjr. pose proof (H j Hjr) as Hf.
    apply Hdec in Hj; [congruence | lia].
Qed.

Lemma inline_scan_spec buf pat msk :
  length msk = length pat ->
  (Inline.scan buf pat msk = -1 /\ Spec.no_match buf pat msk)
  \/ Spec.lowest_match buf pat msk (Inline.scan buf pat msk).
Proof.
  intros Hlen. unfold Inline.scan, Spec.no_match, Spec.lowest_match. cbv zeta.
  apply scan_loop_spec.
  - intros i Hi. apply inline_window_ok; [exact Hlen | lia | lia].
  - intros i (H0 & Hfit & _). lia.
Qed.

Lemma inline_scan_nonneg buf pat msk :
  length msk = length pat ->
  (Inline.scan buf pat msk < 0 <-> Spec.no_match buf pat msk).
Proof.
  intros Hlen. destruct (inline_scan_spec buf pat msk Hlen) as [[E H]|[H Hmin]].
  - rewrite E. split; [intros _; exact H | lia].
  - split.
    + intros Hneg. destruct H as (H0 & _). lia.
    + intros Hno. exfalso. exact (Hno _ H).
Qed.

(** ** [make_bps.scan_aob] *)

Lemma bps_mismatch_false a b m :
  m = x00 \/ m = xff ->
  (BPS.mismatch a b m = false <-> Py.band a m = Py.band b m).
Proof.
  intros [-> | ->]; unfold BPS.mismatch.
  - simpl. rewrite !band_00. tauto.
  - rewrite !band_ff. simpl. rewrite negb_false_iff, byte_eqb_eq.
    split; [congruence | apply b2z_inj].
Qed.

Lemma byte_mask_nth msk k : Spec.byte_mask msk -> nth k msk x00 = x00 \/ nth k msk x00 = xff.
Proof.
  intros H. destruct (Nat.lt_ge_cases k (length msk)) as [Hk|Hk].
  - eapply (Forall_nth (fun m => m = x00 \/ m = xff)) in H; eauto.
  - left. now apply nth_overflow.
Qed.

Lemma bps_window_ok buf pat msk i :
  Spec.byte_mask msk ->
  length msk = length pat -> 0 <= i -> i + Py.len pat <= Py.len buf ->
  (BPS.window_ok (Py.slice buf i (i + Py.len pat)) pat msk = true
   <-> Spec.matches_at buf pat msk i).
Proof.
  intros Hbm Hlen Hi Hfit. unfold BPS.window_ok, Spec.matches_at.
  pose proof (len_nonneg pat) as Hn.
  rewrite (forallb_zip3 _ x00 x00 x00).
  assert (Hsl : length (Py.slice buf i (i + Py.len pat)) = length pat).
  { pose proof (slice_len_in buf i (i + Py.len pat)) as H.
    unfold Py.len in *. lia. }
  split.
  - intros H. split; [exact Hi|]. split; [exact Hfit|].
    intros k Hk. specialize (H (Z.to_nat k)).
    rewrite negb_true_iff, bps_mismatch_false in H by (now apply byte_mask_nth).
    rewrite slice_nth_in in H by (unfold Py.len in *; lia).
    unfold Spec.byte_at. replace (Z.to_nat (i + k)) with (Z.to_nat i + Z.to_nat k)%nat by lia.
    apply H; unfold Py.len in *; lia.
  - intros (_ & _ & H) k Hw Hp Hm.
    rewrite negb_true_iff, bps_mismatch_false by (now apply byte_mask_nth).
    rewrite slice_nth_in by (unfold Py.len in *; lia).
    specialize (H (Z.of_nat k)). unfold Spec.byte_at in H.
    replace (Z.to_nat (i + Z.of_nat k)) with (Z.to_nat i + k)%nat in H by lia.
    rewrite Nat2Z.id in H. apply H. unfold Py.len. lia.
Qed.

Lemma bps_scan_spec buf pat msk :
  Spec.byte_mask msk -> length msk = length pat ->
  (BPS.scan_aob buf pat msk = -1 /\ Spec.no_match buf pat msk)
  \/ Spec.lowest_match buf pat msk (BPS.scan_aob buf pat msk).
Proof.
  intros Hbm Hlen. unfold BPS.scan_aob, Spec.no_match, Spec.lowest_match. cbv zeta.
  apply scan_loop_spec.
  - intros i Hi. apply bps_window_ok; [exact Hbm | exact Hlen | lia | lia].
  - intros i (H0 & Hfit & _). lia.
Qed.

Lemma bps_scan_nonneg buf pat msk :
  Spec.byte_mask msk -> length msk = length pat ->
  (BPS.scan_aob buf pat msk < 0 <-> Spec.no_match buf pat msk).
Proof.
  intros Hbm Hlen.
  destruct (bps_scan_spec buf pat msk Hbm Hlen) as [[E H]|[H Hmin]].
  - rewrite E. split; [intros _; exact H | lia].
  - split.
    + intros Hneg. destruct H as (H0 & _). lia.
    + intros Hno. exfalso. exact (Hno _ H).
Qed.

(** ** What the two parsers return *)

Lemma inline_parse_lengths s pat msk :
  Inline.aob_to_pat_mask s = Ok (pat, msk) -> length msk = length pat.
Proof.
  unfold Inline.aob_to_pat_mask.
  destruct (omap _ _) as [vms|e]; simpl; [|discriminate].
  intros E. injection E as <- <-. now rewrite !length_map.
Qed.

Lemma bps_token_mask t v m :
  BPS.token_bytes t = Ok (v, m) -> m = x00 \/ m = xff.
Proof.
  unfold BPS.token_bytes. destruct (String.eqb _ _).
  - intros E. injection E as <- <-. now left.
  - destruct (Py.int16 t) as [z|]; simpl; [|discriminate].
    destruct (Py.z2b z) as [b|]; simpl; [|discriminate].
    intros E. injection E as <- <-. now right.
Qed.

Lemma bps_parse_shape s pat msk :
  BPS.aob_to_bytes_mask s = Ok (pat, msk) ->
  length msk = length pat /\ Spec.byte_mask msk.
Proof.
  unfold BPS.aob_to_bytes_mask.
  destruct (omap _ _) as [vms|e] eqn:Em; simpl; [|discriminate].
  intros E. injection E as <- <-. split; [now rewrite !length_map|].
  apply omap_ok in Em. unfold Spec.byte_mask.
  induction Em as [|t [v m] ts vms Ht _ IH]; simpl; constructor; auto.
  eapply bps_token_mask; eauto.
Qed.

End ScanFacts.

Module SubstringFacts.

Import PyFacts ScanFacts.

Lemma is_prefix_spec p l : Spec.is_prefix p l = true <-> firstn (length p) l = p.
Proof.
  revert l. induction p as [|a p IH]; intros [|b l]; simpl.
  - tauto.
  - tauto.
  - split; discriminate.
  - rewrite andb_true_iff, byte_eqb_eq, IH. split.
    + intros [-> ->]. reflexivity.
    + intros E. injection E as -> E. tauto.
Qed.

Lemma substring_from_spec pat buf i0 :
  (Spec.substring_from buf pat i0 = -1 /\
   forall k : nat, (k <= length buf)%nat -> firstn (length pat) (skipn k buf) <> pat)
  \/ (exists k : nat,
        Spec.substring_from buf pat i0 = i0 + Z.of_nat k /\ (k <= length buf)%nat /\
        firstn (length pat) (skipn k buf) = pat /\
        forall j : nat, (j < k)%nat -> firstn (length pat) (skipn j buf) <> pat).
Proof.
  revert i0. induction buf as [|b r IH]; intros i0; simpl.
  - destruct (Spec.is_prefix pat []) eqn:E.
    + right. exists 0%nat. apply is_prefix_spec in E.
      repeat split; [lia | lia | exact E | intros j Hj; lia].
    + left. split; [reflexivity|]. intros k Hk. simpl in Hk.
      assert (k = 0%nat) as -> by lia. simpl. intros H.
      apply is_prefix_spec in H. congruence.
  - destruct (Spec.is_prefix pat (b :: r)) eqn:E.
    + right. exists 0%nat. apply is_prefix_spec in E.
      repeat split; [lia | lia | exact E | intros j Hj; lia].
    + assert (Hno : firstn (length pat) (b :: r) <> pat).
      { intros H. apply is_prefix_spec in H. congruence. }
      destruct (IH (i0 + 1)) as [[E1 H1] | (k & E1 & Hk & Hat & Hlow)].
      * left. split; [exact E1|]. intros [|k] Hk; [exact Hno|].
        simpl. apply H1. simpl in Hk. lia.
      * right. exists (S k). repeat split.
        -- rewrite E1. lia.
        -- simpl. lia.
        -- exact Hat.
        -- intros [|j] Hj; [exact Hno|]. simpl. apply Hlow. lia.
Qed.

Lemma occurs_at_nat buf pat (k : nat) :
  (k <= length buf)%nat ->
  (firstn (length pat) (skipn k buf) = pat <-> Spec.occurs_at buf pat (Z.of_nat k)).
Proof.
  intros Hk. unfold Spec.occurs_at. rewrite Nat2Z.id. split.
  - intros H. split; [lia|]. split; [|exact H].
    apply (f_equal (@length byte)) in H.
    rewrite length_firstn, length_skipn in H. unfold Py.len. lia.
  - intros (_ & _ & H). exact H.
Qed.

Lemma substring_search_spec buf pat :
  (Spec.substring_search buf pat = -1 /\ forall j, ~ Spec.occurs_at buf pat j)
  \/ (Spec.occurs_at buf pat (Spec.substring_search buf pat) /\
      forall j, Spec.occurs_at buf pat j -> Spec.substring_search buf pat <= j).
Proof.
  unfold Spec.substring_search.
  destruct (substring_from_spec pat buf 0) as [[E H] | (k & E & Hk & Hat & Hlow)].
  - left. split; [exact E|]. intros j Hj.
    assert (Hj' := Hj). destruct Hj' as (H0 & Hfit & _).
    pose proof (len_nonneg pat) as Hn.
    apply (H (Z.to_nat j)); [unfold Py.len in *; lia|].
    apply occurs_at_nat; [unfold Py.len in *; lia|].
    now rewrite Z2Nat.id.
  - right. rewrite E. simpl. split; [now apply occurs_at_nat|].
    intros j Hj. destruct (Z.lt_ge_cases j (Z.of_nat k)) as [Hlt|]; [|lia].
    exfalso. assert (Hj' := Hj). destruct Hj' as (H0 & Hfit & _).
    pose proof (len_nonneg pat) as Hn.
    apply (Hlow (Z.to_nat j)); [lia|].
    apply occurs_at_nat; [unfold Py.len in *; lia|].
    now rewrite Z2Nat.id.
Qed.

Lemma fixed_only_nth msk k :
  Spec.fixed_only msk -> (k < length msk)%nat -> nth k msk x00 = xff.
Proof.
  intros H Hk. eapply (Forall_nth (fun m => m = xff)) in H; eauto.
Qed.

Lemma fixed_only_byte_mask msk : Spec.fixed_only msk -> Spec.byte_mask msk.
Proof.
  unfold Spec.fixed_only, Spec.byte_mask.
  induction 1 as [|m l -> _ IH]; constructor; [now right | exact IH].
Qed.

(** With a mask of 0xFF bytes, a masked match is an occurrence of the
    pattern bytes. *)
Lemma matches_at_fixed buf pat msk i :
  Spec.fixed_only msk -> length msk = length pat ->
  (Spec.matches_at buf pat msk i <-> Spec.occurs_at buf pat i).
Proof.
  intros Hfix Hlen. unfold Spec.matches_at, Spec.occurs_at.
  split; intros (H0 & Hfit & H); (split; [exact H0|]); (split; [exact Hfit|]).
  - assert (Hl : length (firstn (length pat) (skipn (Z.to_nat i) buf)) = length pat).
    { rewrite length_firstn, length_skipn. unfold Py.len in *. lia. }
    apply (nth_ext _ _ x00 x00 Hl). intros k Hk. rewrite Hl in Hk.
    rewrite nth_firstn. destruct (Nat.ltb_spec k (length pat)); [|lia].
    rewrite nth_skipn. specialize (H (Z.of_nat k)).
    unfold Spec.byte_at in H. rewrite Nat2Z.id in H.
    rewrite (fixed_only_nth msk k) in H by (auto; lia).
    rewrite !band_ff in H.
    replace (Z.to_nat (i + Z.of_nat k)) with (Z.to_nat i + k)%nat in H by lia.
    apply b2z_inj, H. unfold Py.len. lia.
  - intros k Hk. unfold Spec.byte_at.
    rewrite (fixed_only_nth msk (Z.to_nat k)) by (auto; unfold Py.len in *; lia).
    rewrite !band_ff. f_equal.
    rewrite <- H at 1. rewrite nth_firstn.
    destruct (Nat.ltb_spec (Z.to_nat k) (length pat)); [|unfold Py.len in *; lia].
    rewrite nth_skipn. f_equal. lia.
Qed.

(** Two offsets that are both "the lowest match, or -1" are equal. *)
Lemma lowest_unique (P Q : Z -> Prop) (r s : Z) :
  (forall i, P i <-> Q i) -> (forall i, P i -> 0 <= i) ->
  ((r = -1 /\ forall j, ~ P j) \/ (P r /\ forall j, P j -> r <= j)) ->
  ((s = -1 /\ forall j, ~ Q j) \/ (Q s /\ forall j, Q j -> s <= j)) ->
  r = s.
Proof.
  intros HPQ Hpos [[-> Hr] | [Hr Hrmin]] [[-> Hs] | [Hs Hsmin]].
  - reflexivity.
  - exfalso. apply (Hr s). now apply HPQ.
  - exfalso. apply (Hs r). now apply HPQ.
  - apply HPQ in Hr as Hr'. apply HPQ in Hs as Hs'.
    pose proof (Hrmin s Hs'). pose proof (Hsmin r Hr'). lia.
Qed.

Lemma inline_scan_fixed buf pat msk :
  Spec.fixed_only msk -> length msk = length pat ->
  Inline.scan buf pat msk = Spec.substring_search buf pat.
Proof.
  intros Hfix Hlen.
  apply (lowest_unique (Spec.matches_at buf pat msk) (Spec.occurs_at buf pat)).
  - intros i. now apply matches_at_fixed.
  - intros i (H0 & _). exact H0.
  - now apply inline_scan_spec.
  - apply substring_search_spec.
Qed.

Lemma bps_scan_fixed buf pat msk :
  Spec.fixed_only msk -> length msk = length pat ->
  BPS.scan_aob buf pat msk = Spec.substring_search buf pat.
Proof.
  intros Hfix Hlen.
  apply (lowest_unique (Spec.matches_at buf pat msk) (Spec.occurs_at buf pat)).
  - intros i. now apply matches_at_fixed.
  - intros i (H0 & _). exact H0.
  - apply bps_scan_spec; [now apply fixed_only_byte_mask | exact Hlen].
  - apply substring_search_spec.
Qed.

End SubstringFacts.

(* ===================================================================== *)
(** * Part V: the hook loop of [make_inline.py]                            *)
(* ===================================================================== *)

Module InlineRun.

Import PyFacts ScanFacts.

Lemma mk_rows_app c l1 l2 :
  Spec.mk_rows c (l1 ++ l2)
  = Spec.mk_rows c l1 ++ Spec.mk_rows (c + Inline.per_tramp * Py.len l1) l2.
Proof.
  revert c. induction l1 as [|[nm [[site g] glen]] l1 IH]; intros c; simpl.
  - f_equal. unfold Py.len. simpl. lia.
  - f_equal. rewrite IH. do 2 f_equal. rewrite len_cons. lia.
Qed.

Lemma mk_rows_length c l : length (Spec.mk_rows c l) = length l.
Proof.
  revert c. induction l as [|[nm [[site g] glen]] l IH]; intros c; simpl; auto.
Qed.

Lemma mk_rows_names c l : map Inline.name (Spec.mk_rows c l) = map fst l.
Proof.
  revert c. induction l as [|[nm [[site g] glen]] l IH]; intros c; simpl; f_equal; auto.
Qed.

Lemma mk_rows_sites c l :
  map Inline.site_off (Spec.mk_rows c l) = map (fun x => fst (fst (snd x))) l.
Proof.
  revert c. induction l as [|[nm [[site g] glen]] l IH]; intros c; simpl; f_equal; auto.
Qed.

Lemma mk_rows_keys c l :
  map (fun r => (Inline.name r,
                 (Inline.site_off r, Inline.guard_bytes r, Inline.guard_len r)))
      (Spec.mk_rows c l) = l.
Proof.
  revert c. induction l as [|[nm [[site g] glen]] l IH]; intros c; simpl;
    [reflexivity | now rewrite IH].
Qed.

(** Resolution and guard snapshot read the [buf] field only. *)
Lemma resolve_buf st spec a :
  Inline.resolve st spec a = Inline.resolve (Spec.inline_pristine (Inline.buf st)) spec a.
Proof. reflexivity. Qed.

Lemma guard_snapshot_buf st spec site :
  Inline.guard_snapshot st spec site
  = Inline.guard_snapshot (Spec.inline_pristine (Inline.buf st)) spec site.
Proof. reflexivity. Qed.

Section Loop.

Variable ks_asm : Z -> Z -> option (list byte).
Variable patch_sites : bool.

Local Abbreviation site_step := (Inline.site_step ks_asm patch_sites).
Local Abbreviation hook_step := (Inline.hook_step ks_asm patch_sites).

(** One target: the state after a successful step. *)
Lemma site_step_ok nm spec st a st' :
  site_step nm spec st a = Ok st' ->
  Inline.buf st' = Inline.buf st /\
  Inline.rows st' = Inline.rows st ++
    Spec.mk_rows (Inline.cur st)
      (map (fun x => (nm, x)) (Spec.inline_site (Inline.buf st) spec a)) /\
  Inline.hook_ids st' = Inline.hook_ids st ++
    map (fun _ => nm) (Spec.inline_site (Inline.buf st) spec a) /\
  Inline.cur st' = Inline.cur st
    + Inline.per_tramp * Py.len (Spec.inline_site (Inline.buf st) spec a).
Proof.
  unfold Inline.site_step, Spec.inline_site.
  rewrite (resolve_buf st).
  destruct (Inline.resolve _ spec a) as [[site|]|e]; simpl; [| |discriminate].
  - rewrite (guard_snapshot_buf st).
    destruct (Inline.guard_snapshot _ spec site) as [g|e]; simpl; [|discriminate].
    destruct (Inline.build_tramp ks_asm st site) as [tramp|e]; simpl; [|discriminate].
    destruct patch_sites; simpl.
    + destruct (Inline.asm_abs_jump_va ks_asm _ site) as [detour|e]; simpl; [|discriminate].
      destruct (negb _); [discriminate|].
      intros E. injection E as <-. simpl. unfold Py.len. simpl.
      repeat split; reflexivity.
    + intros E. injection E as <-. simpl. unfold Py.len. simpl.
      repeat split; reflexivity.
  - intros E. injection E as <-. unfold Py.len. simpl.
    rewrite !app_nil_r. repeat split; lia.
Qed.

Lemma targets_fold_ok nm spec ts st st' :
  ofold (site_step nm spec) ts st = Ok st' ->
  Inline.buf st' = Inline.buf st /\
  Inline.rows st' = Inline.rows st ++
    Spec.mk_rows (Inline.cur st)
      (map (fun x => (nm, x)) (flat_map (Spec.inline_site (Inline.buf st) spec) ts)) /\
  Inline.hook_ids st' = Inline.hook_ids st ++
    map (fun _ => nm) (flat_map (Spec.inline_site (Inline.buf st) spec) ts) /\
  Inline.cur st' = Inline.cur st
    + Inline.per_tramp * Py.len (flat_map (Spec.inline_site (Inline.buf st) spec) ts).
Proof.
  revert st. induction ts as [|a ts IH]; intros st; simpl.
  - intros E. injection E as <-. unfold Py.len. simpl.
    rewrite !app_nil_r. repeat split; lia.
  - destruct (site_step nm spec st a) as [st1|e] eqn:E1; simpl; [|discriminate].
    intros E. apply site_step_ok in E1 as (Hb1 & Hr1 & Hi1 & Hc1).
    apply IH in E as (Hb & Hr & Hi & Hc). rewrite Hb1 in *.
    repeat split.
    + exact Hb.
    + rewrite Hr, Hr1, map_app, mk_rows_app, <- app_assoc, Hc1, len_map. reflexivity.
    + rewrite Hi, Hi1, map_app, <- app_assoc. reflexivity.
    + rewrite Hc, Hc1, len_app. lia.
Qed.

Lemma hooks_fold_ok hooks st st' :
  ofold hook_step hooks st = Ok st' ->
  Inline.buf st' = Inline.buf st /\
  Inline.rows st' = Inline.rows st ++
    Spec.mk_rows (Inline.cur st) (Spec.inline_sites (Inline.buf st) hooks) /\
  Inline.hook_ids st' = Inline.hook_ids st ++
    map fst (Spec.inline_sites (Inline.buf st) hooks) /\
  Inline.cur st' = Inline.cur st
    + Inline.per_tramp * Py.len (Spec.inline_sites (Inline.buf st) hooks).
Proof.
  revert st. induction hooks as [|[nm spec] hooks IH]; intros st; simpl.
  - intros E. injection E as <-. unfold Py.len. simpl.
    rewrite !app_nil_r. repeat split; lia.
  - destruct (hook_step st (nm, spec)) as [st1|e] eqn:E1; simpl; [|discriminate].
    intros E. unfold Inline.hook_step in E1. simpl in E1.
    apply targets_fold_ok in E1 as (Hb1 & Hr1 & Hi1 & Hc1).
    apply IH in E as (Hb & Hr & Hi & Hc). rewrite Hb1 in *.
    repeat split.
    + exact Hb.
    + rewrite Hr, Hr1, mk_rows_app, <- app_assoc, Hc1, len_map. reflexivity.
    + rewrite Hi, Hi1, map_app, <- app_assoc. do 2 f_equal.
      rewrite map_map. reflexivity.
    + rewrite Hc, Hc1, len_app, len_map. lia.
Qed.

(** The rows of a successful run, in full. *)
Lemma main_loop_rows image hooks st :
  Inline.main_loop ks_asm patch_sites image hooks = Ok st ->
  Inline.buf st = image /\
  Inline.rows st
    = Spec.mk_rows (snd (Inline.alloc_arena image (Inline.arena_need hooks)))
                   (Spec.inline_sites image hooks) /\
  Inline.hook_ids st = map fst (Spec.inline_sites image hooks).
Proof.
  unfold Inline.main_loop.
  destruct (Inline.alloc_arena image (Inline.arena_need hooks)) as [mod0 off].
  intros E. apply hooks_fold_ok in E as (Hb & Hr & Hi & _). simpl in *.
  auto.
Qed.

(** A hook without any countable site leaves the state as it is. *)
Lemma hook_step_no_site nm spec st :
  Inline.spec_sites spec = 0 -> hook_step st (nm, spec) = Ok st.
Proof.
  unfold Inline.spec_sites, Inline.hook_step, Inline.targets. simpl.
  destruct (addr spec) as [|a|l] eqn:Ea.
  - destruct (Py.truthy (aob spec)) eqn:Et; [lia|]. intros _. simpl.
    unfold Inline.site_step, Inline.resolve. rewrite Et. reflexivity.
  - lia.
  - destruct l; [reflexivity|]. rewrite len_cons. pose proof (len_nonneg l). lia.
Qed.

(** *** The loop does not fail when the assembler and the parser do not *)

Lemma asm_abs_jump_va_good to_va origin_off :
  Spec.good_asm ks_asm ->
  exists b, Inline.asm_abs_jump_va ks_asm to_va origin_off = Ok b /\ Py.len b = 8.
Proof.
  intros Hks. unfold Inline.asm_abs_jump_va.
  destruct (Hks to_va (Inline.CODE_BASE + origin_off)) as (b & -> & Hb).
  rewrite Hb. simpl. eauto.
Qed.

Lemma site_step_resolved nm spec st a site g :
  Spec.good_asm ks_asm ->
  Inline.resolve st spec a = Ok (Some site) ->
  Inline.guard_snapshot st spec site = Ok g ->
  exists st', site_step nm spec st a = Ok st'.
Proof.
  intros Hks Hres Hg. unfold Inline.site_step. rewrite Hres. simpl.
  rewrite Hg. simpl. unfold Inline.build_tramp.
  destruct (asm_abs_jump_va_good
              (Inline.CODE_BASE + (site + Inline.STOLEN_SIZE))
              (Inline.cur st + Py.len (Py.slice (Inline.mod_ st) site (site + Inline.STOLEN_SIZE)))
              Hks) as (j & -> & Hj).
  simpl. destruct patch_sites; simpl; [|eauto].
  destruct (asm_abs_jump_va_good (Inline.CODE_BASE + Inline.cur st) site Hks)
    as (d & -> & Hd).
  simpl. rewrite Hd. simpl. eauto.
Qed.

Lemma site_step_total nm spec st a :
  Spec.good_asm ks_asm ->
  (forall s, Py.truthy (aob spec) = Some s -> exists pm, Inline.aob_to_pat_mask s = Ok pm) ->
  (forall g, Py.truthy (guard spec) = Some g -> exists pm, Inline.aob_to_pat_mask g = Ok pm) ->
  exists st', site_step nm spec st a = Ok st'.
Proof.
  intros Hks Haob Hguard.
  assert (exists r, Inline.resolve st spec a = Ok r) as [r Hr].
  { unfold Inline.resolve. destruct a as [[z|]|]; simpl.
    - destruct (z <? 0); eauto.
    - eauto.
    - destruct (Py.truthy (aob spec)) as [s|]; simpl; [|eauto].
      destruct (Haob s eq_refl) as [pm ->]. simpl.
      destruct (_ <? 0); eauto. }
  destruct r as [site|].
  - assert (exists g, Inline.guard_snapshot st spec site = Ok g) as [g Hg].
    { unfold Inline.guard_snapshot. destruct (Py.truthy (guard spec)) as [s|]; [|eauto].
      destruct (Hguard s eq_refl) as [pm ->]. simpl. eauto. }
    eapply site_step_resolved; eauto.
  - unfold Inline.site_step. rewrite Hr. simpl. eauto.
Qed.

Lemma targets_fold_total nm spec ts st :
  Spec.good_asm ks_asm ->
  (forall s, Py.truthy (aob spec) = Some s -> exists pm, Inline.aob_to_pat_mask s = Ok pm) ->
  (forall g, Py.truthy (guard spec) = Some g -> exists pm, Inline.aob_to_pat_mask g = Ok pm) ->
  exists st', ofold (site_step nm spec) ts st = Ok st'.
Proof.
  intros Hks Haob Hguard. revert st. induction ts as [|a ts IH]; intros st; simpl.
  - eauto.
  - destruct (site_step_total nm spec st a Hks Haob Hguard) as [st1 ->]. simpl.
    apply IH.
Qed.

Lemma hooks_fold_total hooks st :
  Spec.good_asm ks_asm -> Spec.parseable Inline.aob_to_pat_mask hooks ->
  exists st', ofold hook_step hooks st = Ok st'.
Proof.
  intros Hks. revert st. induction hooks as [|[nm spec] hooks IH]; intros st Hp; simpl.
  - eauto.
  - destruct (Hp nm spec (or_introl eq_refl)) as [Haob Hguard].
    unfold Inline.hook_step at 1. simpl.
    destruct (targets_fold_total nm spec (Inline.targets spec) st Hks Haob Hguard)
      as [st1 ->].
    simpl. apply IH. intros nm' spec' Hin. apply (Hp nm' spec'). now right.
Qed.

Lemma main_loop_total image hooks :
  Spec.good_asm ks_asm -> Spec.parseable Inline.aob_to_pat_mask hooks ->
  exists st, Inline.main_loop ks_asm patch_sites image hooks = Ok st.
Proof.
  intros Hks Hp. unfold Inline.main_loop.
  destruct (Inline.alloc_arena image (Inline.arena_need hooks)) as [mod0 off].
  now apply hooks_fold_total.
Qed.

End Loop.

End InlineRun.

(* ===================================================================== *)
(** * Part VI: the hook loop of [make_bps.py]                              *)
(* ===================================================================== *)

Module BPSRun.

Import PyFacts ScanFacts.

Lemma mk_records_app c l1 l2 :
  Spec.mk_records c (l1 ++ l2)
  = Spec.mk_records c l1 ++ Spec.mk_records (c + BPS.arena_need_each * Py.len l1) l2.
Proof.
  revert c. induction l1 as [|[nm site] l1 IH]; intros c; simpl.
  - f_equal. unfold Py.len. simpl. lia.
  - f_equal. rewrite IH. do 2 f_equal. rewrite len_cons. lia.
Qed.

Lemma mk_records_sites c l : map BPS.site_off (Spec.mk_records c l) = map snd l.
Proof.
  revert c. induction l as [|[nm site] l IH]; intros c; simpl; f_equal; auto.
Qed.

Lemma mk_records_keys c l :
  map (fun r => (BPS.name r, BPS.site_off r)) (Spec.mk_records c l) = l.
Proof.
  revert c. induction l as [|[nm site] l IH]; intros c; simpl;
    [reflexivity | now rewrite IH].
Qed.

Lemma bps_resolve_buf st spec :
  BPS.resolve st spec = BPS.resolve (Spec.bps_pristine (BPS.buf st)) spec.
Proof. reflexivity. Qed.

Lemma guard_check_buf st spec site :
  BPS.guard_check st spec site
  = BPS.guard_check (Spec.bps_pristine (BPS.buf st)) spec site.
Proof. reflexivity. Qed.

Section Loop.

Variable ks_detour ks_bw : Z -> Z -> option (list byte).

Local Abbreviation hook_step := (BPS.hook_step ks_detour ks_bw).

Lemma hook_step_ok nm spec st st' :
  hook_step st (nm, spec) = Ok st' ->
  BPS.buf st' = BPS.buf st /\
  BPS.hook_records st' = BPS.hook_records st ++
    Spec.mk_records (BPS.arena_cur st)
      (map (fun x => (nm, x)) (Spec.bps_site (BPS.buf st) spec)) /\
  BPS.arena_cur st' = BPS.arena_cur st
    + BPS.arena_need_each * Py.len (Spec.bps_site (BPS.buf st) spec).
Proof.
  unfold BPS.hook_step, Spec.bps_site. cbv zeta. simpl fst. simpl snd.
  rewrite (bps_resolve_buf st).
  destruct (BPS.resolve _ spec) as [[site|]|e]; simpl; [| |discriminate].
  - rewrite (guard_check_buf st).
    destruct (BPS.guard_check _ spec site) as [[|]|e]; simpl; [| |discriminate].
    + destruct (BPS.build_tramp ks_bw st site) as [tramp|e]; simpl; [|discriminate].
      destruct (BPS.assemble_detour ks_detour 0 0) as [detour|e]; simpl; [|discriminate].
      intros E. injection E as <-. simpl. unfold Py.len. simpl.
      repeat split; reflexivity.
    + intros E. injection E as <-. unfold Py.len. simpl.
      rewrite !app_nil_r. repeat split; lia.
  - intros E. injection E as <-. unfold Py.len. simpl.
    rewrite !app_nil_r. repeat split; lia.
Qed.

Lemma bps_hooks_fold_ok hooks st st' :
  ofold hook_step hooks st = Ok st' ->
  BPS.buf st' = BPS.buf st /\
  BPS.hook_records st' = BPS.hook_records st ++
    Spec.mk_records (BPS.arena_cur st) (Spec.bps_sites (BPS.buf st) hooks) /\
  BPS.arena_cur st' = BPS.arena_cur st
    + BPS.arena_need_each * Py.len (Spec.bps_sites (BPS.buf st) hooks).
Proof.
  revert st. induction hooks as [|[nm spec] hooks IH]; intros st; simpl.
  - intros E. injection E as <-. unfold Py.len. simpl.
    rewrite !app_nil_r. repeat split; lia.
  - destruct (hook_step st (nm, spec)) as [st1|e] eqn:E1; simpl; [|discriminate].
    intros E. apply hook_step_ok in E1 as (Hb1 & Hr1 & Hc1).
    apply IH in E as (Hb & Hr & Hc). rewrite Hb1 in *.
    repeat split.
    + exact Hb.
    + rewrite Hr, Hr1, mk_records_app, <- app_assoc, Hc1, len_map. reflexivity.
    + rewrite Hc, Hc1, len_app, len_map. lia.
Qed.

Lemma main_loop_records image hooks st :
  BPS.main_loop ks_detour ks_bw image hooks = Ok st ->
  BPS.buf st = image /\
  BPS.hook_records st
    = Spec.mk_records (BPS.find_code_cave image (BPS.arena_total hooks) None)
                      (Spec.bps_sites image hooks).
Proof.
  unfold BPS.main_loop. cbv zeta.
  destruct (_ <? 0); [discriminate|].
  intros E. apply bps_hooks_fold_ok in E as (Hb & Hr & _). simpl in *. auto.
Qed.

Lemma hook_step_total nm spec st :
  Spec.good_thumb ks_detour ks_bw ->
  (addr spec = AddrNone \/ exists z, addr spec = AddrOne (AInt z)) ->
  (forall s, Py.truthy (aob spec) = Some s -> exists pm, BPS.aob_to_bytes_mask s = Ok pm) ->
  (forall g, Py.truthy (guard spec) = Some g -> exists pm, BPS.aob_to_bytes_mask g = Ok pm) ->
  exists st', hook_step st (nm, spec) = Ok st'.
Proof.
  intros [(d & Hd & Hdl) Hbw] Haddr Haob Hguard.
  unfold BPS.hook_step. cbv zeta. simpl fst. simpl snd.
  assert (exists r, BPS.resolve st spec = Ok r) as [r ->].
  { unfold BPS.resolve. destruct Haddr as [-> | [z ->]]; [|eauto].
    destruct (Py.truthy (aob spec)) as [s|]; simpl; [|eauto].
    destruct (Haob s eq_refl) as [pm ->]. simpl.
    destruct (_ <? 0); eauto. }
  simpl. destruct r as [site|]; [|eauto].
  assert (exists g, BPS.guard_check st spec site = Ok g) as [g ->].
  { unfold BPS.guard_check. destruct (Py.truthy (guard spec)) as [s|]; [|eauto].
    destruct (Hguard s eq_refl) as [pm ->]. simpl. eauto. }
  simpl. destruct g; simpl; [|eauto].
  unfold BPS.build_tramp. cbv zeta.
  match goal with |- context [ks_bw ?x ?y] => destruct (Hbw x y) as [enc ->] end.
  simpl. unfold BPS.assemble_detour. rewrite Hd, Hdl. simpl. eauto.
Qed.

Lemma bps_hooks_fold_total hooks st :
  Spec.good_thumb ks_detour ks_bw -> Spec.int_addrs hooks ->
  Spec.parseable BPS.aob_to_bytes_mask hooks ->
  exists st', ofold hook_step hooks st = Ok st'.
Proof.
  intros Hks. revert st. induction hooks as [|[nm spec] hooks IH]; intros st Ha Hp; simpl.
  - eauto.
  - destruct (Hp nm spec (or_introl eq_refl)) as [Haob Hguard].
    destruct (hook_step_total nm spec st Hks (Ha nm spec (or_introl eq_refl)) Haob Hguard)
      as [st1 ->].
    simpl. apply IH.
    + intros nm' spec' Hin. apply (Ha nm' spec'). now right.
    + intros nm' spec' Hin. apply (Hp nm' spec'). now right.
Qed.

End Loop.

End BPSRun.

(* ===================================================================== *)
(** * Part VII: the code cave                                              *)
(* ===================================================================== *)

Module CaveFacts.

Import PyFacts ScanFacts.

Lemma byte_at_filler_in buf k :
  is_filler (Spec.byte_at buf k) = false -> 0 <= k -> k < Py.len buf.
Proof.
  intros H Hk. destruct (Z.lt_ge_cases k (Py.len buf)) as [|Hge]; [assumption|].
  unfold Spec.byte_at in H. rewrite nth_overflow in H by (unfold Py.len in Hge; lia).
  discriminate.
Qed.

(** The invariant of the backward loop: [run] filler bytes start at [k],
    the byte after them is not filler (or is the end of the image), and no
    cave of [need] bytes starts at [k] or later. *)
Lemma cave_loop_spec buf need (k : nat) run :
  1 <= need -> (k <= length buf)%nat -> 0 <= run < need ->
  (forall j, Z.of_nat k <= j < Z.of_nat k + run ->
             is_filler (Spec.byte_at buf j) = true) ->
  (Z.of_nat k + run = Py.len buf \/
   is_filler (Spec.byte_at buf (Z.of_nat k + run)) = false) ->
  (forall j, Spec.filler_run buf j need -> j < Z.of_nat k) ->
  (Inline.cave_loop buf need k run = -1 /\ forall j, ~ Spec.filler_run buf j need)
  \/ (Spec.filler_run buf (Inline.cave_loop buf need k run) need /\
      forall j, Spec.filler_run buf j need -> j <= Inline.cave_loop buf need k run).
Proof.
  intros Hneed. revert run. induction k as [|i IH]; intros run Hk Hrun Hfill Hstop Hnone.
  - left. split; [reflexivity|]. intros j Hj. pose proof (Hnone j Hj) as H.
    destruct Hj as (H0 & _). lia.
  - simpl. assert (Hbyte : nth i buf x00 = Spec.byte_at buf (Z.of_nat i)).
    { unfold Spec.byte_at. now rewrite Nat2Z.id. }
    rewrite Hbyte.
    assert (Hend : Z.of_nat (S i) + run <= Py.len buf).
    { destruct Hstop as [E|E]; [lia|]. apply byte_at_filler_in in E; lia. }
    destruct (is_filler (Spec.byte_at buf (Z.of_nat i))) eqn:Hf.
    + destruct (Z.leb_spec need (run + 1)) as [Hge|Hlt].
      * right. split.
        -- split; [lia|]. split; [lia|]. intros j Hj.
           destruct (Z.eq_dec j (Z.of_nat i)) as [->|Hne]; [exact Hf|].
           apply Hfill. lia.
        -- intros j Hj. pose proof (Hnone j Hj). lia.
      * apply IH; [lia | lia | | | ].
        -- intros j Hj. destruct (Z.eq_dec j (Z.of_nat i)) as [->|Hne]; [exact Hf|].
           apply Hfill. lia.
        -- replace (Z.of_nat i + (run + 1)) with (Z.of_nat (S i) + run) by lia.
           exact Hstop.
        -- intros j Hj. pose proof (Hnone j Hj) as Hlt'.
           destruct (Z.eq_dec j (Z.of_nat i)) as [->|Hne]; [|lia].
           exfalso. destruct Hj as (_ & Hfit & Hall).
           destruct Hstop as [E|E]; [lia|].
           rewrite Hall in E by lia. discriminate.
    + apply IH; [lia | lia | | | ].
      * intros j Hj. lia.
      * right. now rewrite Z.add_0_r.
      * intros j Hj. pose proof (Hnone j Hj) as Hlt'.
        destruct (Z.eq_dec j (Z.of_nat i)) as [->|Hne]; [|lia].
        exfalso. destruct Hj as (_ & Hfit & Hall).
        rewrite Hall in Hf by lia. discriminate.
Qed.

(** [make_inline.find_code_cave] returns the end-most cave, or -1. *)
Lemma inline_cave_spec buf need :
  1 <= need ->
  (Inline.find_code_cave buf need = -1 /\ forall j, ~ Spec.filler_run buf j need)
  \/ (Spec.filler_run buf (Inline.find_code_cave buf need) need /\
      forall j, Spec.filler_run buf j need -> j <= Inline.find_code_cave buf need).
Proof.
  intros Hneed. unfold Inline.find_code_cave.
  apply cave_loop_spec; [lia | lia | lia | | | ].
  - intros j Hj. lia.
  - left. unfold Py.len. lia.
  - intros j (H0 & Hfit & _). unfold Py.len in Hfit. lia.
Qed.

Lemma forallb_nth {A} (f : A -> bool) (d : A) (l : list A) :
  forallb f l = true <-> forall k : nat, (k < length l)%nat -> f (nth k l d) = true.
Proof.
  induction l as [|a l IH]; simpl.
  - split; [intros _ k; lia | reflexivity].
  - rewrite andb_true_iff, IH. split.
    + intros [H0 H] [|k] Hk; [exact H0 | apply H; lia].
    + intros H. split; [apply (H 0%nat); lia|]. intros k Hk. apply (H (S k)). lia.
Qed.

Lemma bps_window_filler buf need i :
  0 <= need -> 0 <= i -> i + need <= Py.len buf ->
  (forallb is_filler (Py.slice buf i (i + need)) = true <-> Spec.filler_run buf i need).
Proof.
  intros Hneed Hi Hfit. unfold Spec.filler_run.
  rewrite (forallb_nth _ x00).
  assert (Hsl : Z.of_nat (length (Py.slice buf i (i + need))) = need).
  { pose proof (slice_len_in buf i (i + need)) as H. unfold Py.len in *. lia. }
  split.
  - intros H. split; [exact Hi|]. split; [exact Hfit|]. intros k Hk.
    specialize (H (Z.to_nat (k - i))).
    rewrite slice_nth_in in H by lia.
    unfold Spec.byte_at. replace (Z.to_nat k) with (Z.to_nat i + Z.to_nat (k - i))%nat by lia.
    apply H. lia.
  - intros (_ & _ & H) k Hk. rewrite slice_nth_in by lia.
    specialize (H (i + Z.of_nat k)). unfold Spec.byte_at in H.
    replace (Z.to_nat (i + Z.of_nat k)) with (Z.to_nat i + k)%nat in H by lia.
    apply H. lia.
Qed.

(** [make_bps.find_code_cave] (without [prefer_from]) returns the end-most
    cave, or -1. *)
Lemma bps_cave_spec buf need :
  1 <= need ->
  (BPS.find_code_cave buf need None = -1 /\ forall j, ~ Spec.filler_run buf j need)
  \/ (Spec.filler_run buf (BPS.find_code_cave buf need None) need /\
      forall j, Spec.filler_run buf j need -> j <= BPS.find_code_cave buf need None).
Proof.
  intros Hneed. unfold BPS.find_code_cave.
  pose proof (find_range_down
                (fun i => forallb is_filler (Py.slice buf i (i + need)))
                (Py.len buf - need)) as H.
  destruct (find _ _) as [i|].
  - right. destruct H as (Hr & Hi & Hmax). split.
    + apply bps_window_filler; [lia | lia | lia | exact Hi].
    + intros j Hj. destruct (Z.lt_ge_cases i j) as [Hlt|]; [|lia].
      exfalso. assert (Hj' := Hj). destruct Hj' as (H0 & Hfit & _).
      apply bps_window_filler in Hj; [|lia|lia|lia].
      rewrite Hmax in Hj by lia. discriminate.
  - left. split; [reflexivity|]. intros j Hj.
    assert (Hj' := Hj). destruct Hj' as (H0 & Hfit & _).
    apply bps_window_filler in Hj; [|lia|lia|lia].
    rewrite H in Hj by lia. discriminate.
Qed.

(** Two offsets that are both "the end-most cave, or -1" are equal. *)
Lemma greatest_unique (P : Z -> Prop) (r s : Z) :
  (forall i, P i -> 0 <= i) ->
  ((r = -1 /\ forall j, ~ P j) \/ (P r /\ forall j, P j -> j <= r)) ->
  ((s = -1 /\ forall j, ~ P j) \/ (P s /\ forall j, P j -> j <= s)) ->
  r = s.
Proof.
  intros Hpos [[-> Hr] | [Hr Hrmax]] [[-> Hs] | [Hs Hsmax]].
  - reflexivity.
  - exfalso. exact (Hr s Hs).
  - exfalso. exact (Hs r Hr).
  - pose proof (Hrmax s Hs). pose proof (Hsmax r Hr). lia.
Qed.

Lemma caves_agree buf need :
  1 <= need -> BPS.find_code_cave buf need None = Inline.find_code_cave buf need.
Proof.
  intros Hneed. apply (greatest_unique (fun j => Spec.filler_run buf j need)).
  - intros i (H0 & _). exact H0.
  - now apply bps_cave_spec.
  - now apply inline_cave_spec.
Qed.

Lemma inline_cave_neg buf need :
  1 <= need ->
  (Inline.find_code_cave buf need < 0 <-> forall j, ~ Spec.filler_run buf j need).
Proof.
  intros Hneed. destruct (inline_cave_spec buf need Hneed) as [[E H] | [H Hmax]].
  - rewrite E. split; [intros _; exact H | lia].
  - split.
    + intros Hneg. destruct H as (H0 & _). lia.
    + intros Hno. exfalso. exact (Hno _ H).
Qed.

(** ** The size of the request *)

Lemma spec_sites_nonneg spec : 0 <= Inline.spec_sites spec.
Proof.
  unfold Inline.spec_sites. destruct (addr spec).
  - destruct (Py.truthy _); lia.
  - lia.
  - apply len_nonneg.
Qed.

Lemma num_sites_fold hooks n :
  fold_left (fun n ns => n + Inline.spec_sites (snd ns)) hooks n
  = n + Inline.num_sites hooks.
Proof.
  unfold Inline.num_sites. revert n. induction hooks as [|ns hooks IH]; intros n; simpl.
  - lia.
  - rewrite (IH (n + _)), (IH (0 + _)). lia.
Qed.

Lemma num_sites_cons ns hooks :
  Inline.num_sites (ns :: hooks) = Inline.spec_sites (snd ns) + Inline.num_sites hooks.
Proof.
  unfold Inline.num_sites at 1. simpl. apply num_sites_fold.
Qed.

Lemma num_sites_nonneg hooks : 0 <= Inline.num_sites hooks.
Proof.
  induction hooks as [|ns hooks IH]; [unfold Inline.num_sites; simpl; lia|].
  rewrite num_sites_cons. pose proof (spec_sites_nonneg (snd ns)). lia.
Qed.

Lemma arena_need_min hooks : 0x60 <= Inline.arena_need hooks.
Proof.
  unfold Inline.arena_need, Inline.per_tramp. lia.
Qed.

Lemma arena_total_min hooks : 0x40 <= BPS.arena_total hooks.
Proof.
  unfold BPS.arena_total, BPS.arena_need_each. lia.
Qed.

(** Every target yields at most one site, so the request has a slot for
    every site of the run. *)
Lemma inline_site_le1 image spec a : Py.len (Spec.inline_site image spec a) <= 1.
Proof.
  unfold Spec.inline_site. destruct (Inline.resolve _ _ _) as [[site|]|e];
    try (unfold Py.len; simpl; lia).
  destruct (Inline.guard_snapshot _ _ _); unfold Py.len; simpl; lia.
Qed.

Lemma inline_sites_targets image spec ts :
  Py.len (flat_map (Spec.inline_site image spec) ts) <= Py.len ts.
Proof.
  induction ts as [|a ts IH]; simpl; [unfold Py.len; simpl; lia|].
  rewrite len_app, len_cons. pose proof (inline_site_le1 image spec a). lia.
Qed.

Lemma inline_sites_spec image spec :
  Py.len (flat_map (Spec.inline_site image spec) (Inline.targets spec))
  <= Inline.spec_sites spec.
Proof.
  unfold Inline.targets, Inline.spec_sites. destruct (addr spec) as [|a|l] eqn:Ea.
  - simpl. rewrite app_nil_r. destruct (Py.truthy (aob spec)) as [s|] eqn:Et.
    + apply inline_site_le1.
    + unfold Spec.inline_site, Inline.resolve. rewrite Et. unfold Py.len. simpl. lia.
  - pose proof (inline_sites_targets image spec [Some a]) as H.
    unfold Py.len in *. simpl in *. lia.
  - apply inline_sites_targets.
Qed.

Lemma inline_sites_bound image hooks :
  Py.len (Spec.inline_sites image hooks) <= Inline.num_sites hooks.
Proof.
  induction hooks as [|[nm spec] hooks IH].
  - unfold Py.len, Inline.num_sites. simpl. lia.
  - rewrite num_sites_cons. unfold Spec.inline_sites in *. simpl.
    rewrite len_app, len_map. pose proof (inline_sites_spec image spec). lia.
Qed.

End CaveFacts.

(* ===================================================================== *)
(** * Part VII-b: trampolines of a run whose sites do not interfere        *)
(* ===================================================================== *)

Module TrampFacts.

Import PyFacts ScanFacts CaveFacts.

Lemma pairwise_apart_app_l w l1 l2 :
  Spec.pairwise_apart w (l1 ++ l2) -> Spec.pairwise_apart w l1.
Proof.
  induction l1 as [|s l1 IH]; simpl; [tauto|].
  intros [H1 H2]. split; [|now apply IH].
  intros s' Hs'. apply H1. apply in_or_app. now left.
Qed.

Lemma pairwise_apart_snoc w l s :
  Spec.pairwise_apart w (l ++ [s]) -> forall s', In s' l -> Spec.apart w s' s.
Proof.
  induction l as [|x l IH]; simpl; [tauto|].
  intros [H1 H2] s' [<-|Hs'].
  - apply H1. apply in_or_app. right. now left.
  - now apply IH.
Qed.

Lemma sites_clear_app_l limit off need l1 l2 :
  Spec.sites_clear limit off need (l1 ++ l2) -> Spec.sites_clear limit off need l1.
Proof.
  intros [H1 H2]. split.
  - intros r Hr. apply H1. apply in_or_app. now left.
  - rewrite map_app in H2. now apply pairwise_apart_app_l in H2.
Qed.

Lemma asm_len ks t o b : Inline.asm_abs_jump_va ks t o = Ok b -> Py.len b = 8.
Proof.
  unfold Inline.asm_abs_jump_va. destruct (ks _ _) as [x|]; [|discriminate].
  destruct (Z.eqb_spec (Py.len x) 8); [|discriminate]. intros E. injection E as <-. auto.
Qed.


(** The buffer after one accepted site: the trampoline is written at [cur],
    and, with [--patch-sites], the detour at [site]. *)
Lemma site_writes (m tramp : list byte) (cur site : Z) (m2 : list byte) :
  0 <= cur -> cur + Py.len tramp <= Py.len m -> 0 <= site -> site + 8 <= Py.len m ->
  (m2 = Py.slice_assign m cur (cur + Py.len tramp) tramp \/
   exists detour, Py.len detour = 8 /\
     m2 = Py.slice_assign (Py.slice_assign m cur (cur + Py.len tramp) tramp)
                          site (site + 8) detour) ->
  Py.len m2 = Py.len m /\
  forall p, 0 <= p -> (p < site \/ site + 8 <= p) ->
    Spec.byte_at m2 p
    = if (cur <=? p) && (p <? cur + Py.len tramp)
      then Spec.byte_at tramp (p - cur) else Spec.byte_at m p.
Proof.
  intros Hc Hcf Hs Hsf Hm2.
  pose proof (slice_assign_len m tramp cur Hc Hcf) as L1.
  destruct Hm2 as [-> | (detour & Hd & ->)].
  - split; [exact L1|]. intros p Hp _. unfold Spec.byte_at.
    now apply slice_assign_nth.
  - rewrite <- Hd. split.
    + rewrite slice_assign_len by lia. exact L1.
    + intros p Hp Hout. unfold Spec.byte_at.
      rewrite slice_assign_nth by lia.
      destruct (Z.leb_spec site p), (Z.ltb_spec p (site + Py.len detour));
        try lia; simpl; now apply slice_assign_nth.
Qed.

Section Inv.

Variable ks : Z -> Z -> option (list byte).
Variable ps : bool.
Variables (mod0 : list byte) (arena_off need limit : Z).
Hypothesis Hoff : 0 <= arena_off.
Hypothesis Hfit : arena_off + need <= Py.len mod0.
Hypothesis Hlimit : limit <= Py.len mod0.

Lemma site_step_inv nm spec st a st' :
  Spec.inline_inv mod0 arena_off need st ->
  Inline.site_step ks ps nm spec st a = Ok st' ->
  Spec.sites_clear limit arena_off need (Inline.rows st') ->
  Inline.per_tramp * Py.len (Inline.rows st') <= need ->
  Spec.inline_inv mod0 arena_off need st'.
Proof.
  intros Hinv Hstep Hclear Hslots.
  assert (Hinv' := Hinv). destruct Hinv' as (Ilen & Icur & Iout & Itr).
  unfold Inline.site_step in Hstep.
  destruct (Inline.resolve st spec a) as [[site|]|e]; simpl in Hstep; try discriminate.
  2: { injection Hstep as <-. exact Hinv. }
  destruct (Inline.guard_snapshot st spec site) as [g|e]; simpl in Hstep; try discriminate.
  unfold Inline.build_tramp in Hstep.
  destruct (Inline.asm_abs_jump_va ks _ _) as [j|e] eqn:Ej; simpl in Hstep; try discriminate.
  apply asm_len in Ej.
  set (stolen := Py.slice (Inline.mod_ st) site (site + Inline.STOLEN_SIZE)) in *.
  set (tramp := stolen ++ j) in *.
  set (new := {| Inline.name := nm; Inline.site_off := site;
                 Inline.tramp_off := Inline.cur st;
                 Inline.guard_bytes := snd g; Inline.guard_len := fst g |}) in *.
  assert (Hst' : exists m2,
             st' = {| Inline.buf := Inline.buf st; Inline.mod_ := m2;
                      Inline.cur := Inline.cur st + Inline.per_tramp;
                      Inline.rows := Inline.rows st ++ [new];
                      Inline.hook_ids := Inline.hook_ids st ++ [nm] |} /\
             (m2 = Py.slice_assign (Inline.mod_ st) (Inline.cur st)
                     (Inline.cur st + Py.len tramp) tramp \/
              exists detour, Py.len detour = 8 /\
                m2 = Py.slice_assign
                       (Py.slice_assign (Inline.mod_ st) (Inline.cur st)
                          (Inline.cur st + Py.len tramp) tramp)
                       site (site + 8) detour)).
  { destruct ps.
    - destruct (Inline.asm_abs_jump_va ks _ site) as [detour|e] eqn:Ed;
        simpl in Hstep; try discriminate.
      apply asm_len in Ed. unfold Inline.STOLEN_SIZE in Hstep.
      rewrite Ed in Hstep. simpl in Hstep. injection Hstep as <-.
      eexists. split; [reflexivity|]. right. exists detour. split; [exact Ed | reflexivity].
    - simpl in Hstep. injection Hstep as <-.
      eexists. split; [reflexivity|]. now left. }
  clear Hstep. destruct Hst' as (m2 & -> & Hm2). simpl in Hclear, Hslots |- *.
  destruct Hclear as [Hrows Hpair].
  assert (Hnew_in : In new (Inline.rows st ++ [new]))
    by (apply in_or_app; right; left; reflexivity).
  destruct (Hrows new Hnew_in) as (Hs0 & Hslim & Hsarena).
  simpl in Hs0, Hslim, Hsarena.
  rewrite map_app in Hpair. simpl in Hpair.
  pose proof (pairwise_apart_snoc _ _ _ Hpair) as Hapart.
  rewrite len_app in Hslots. change (Py.len [new]) with 1 in Hslots.
  pose proof (len_nonneg (Inline.rows st)) as Hnr.
  unfold Inline.per_tramp in *.
  assert (Hstolen : Py.len stolen = 8).
  { subst stolen. unfold Inline.STOLEN_SIZE. rewrite slice_len_in; lia. }
  assert (Htramp : Py.len tramp = 16).
  { subst tramp. rewrite len_app. lia. }
  destruct (site_writes (Inline.mod_ st) tramp (Inline.cur st) site m2)
    as (Hlen2 & Hbytes); [lia | lia | lia | lia | exact Hm2 |].
  clear Hm2. rewrite Htramp in Hbytes.
  assert (Hold : forall r, In r (Inline.rows st) ->
            Inline.site_off r + 8 <= site \/ site + 8 <= Inline.site_off r).
  { intros r Hr. apply (Hapart (Inline.site_off r)). now apply in_map. }
  (* the stolen bytes are those of [mod0] *)
  assert (Horig : forall k, 0 <= k < 8 ->
            Spec.byte_at stolen k = Spec.byte_at mod0 (site + k)).
  { intros k Hk. subst stolen. unfold Spec.byte_at, Inline.STOLEN_SIZE.
    rewrite slice_nth_in by lia.
    replace (Z.to_nat site + Z.to_nat k)%nat with (Z.to_nat (site + k)) by lia.
    apply Iout; [lia | lia |].
    intros r Hr. specialize (Hold r Hr). lia. }
  unfold Spec.inline_inv.
  cbn [Inline.mod_ Inline.cur Inline.rows Inline.buf]. unfold Inline.per_tramp.
  split; [|split; [|split]].
  - lia.
  - rewrite len_app. change (Py.len [new]) with 1. lia.
  - intros p Hp Harena Hwin.
    assert (Hps : p < site \/ site + 8 <= p).
    { apply (Hwin new). apply in_or_app. right. now left. }
    rewrite Hbytes by assumption.
    assert (Hmod : Spec.byte_at (Inline.mod_ st) p = Spec.byte_at mod0 p).
    { apply Iout; auto. intros r Hr. apply Hwin. apply in_or_app. now left. }
    destruct (Z.leb_spec (Inline.cur st) p), (Z.ltb_spec p (Inline.cur st + 16));
      simpl; try exact Hmod. lia.
  - intros r Hr. apply in_app_or in Hr as [Hr | [<- | []]].
    + destruct (Itr r Hr) as (H1 & H2 & H3).
      split; [exact H1|]. split; [lia|]. rewrite <- H3.
      destruct (Hrows r (in_or_app _ _ _ (or_introl Hr))) as (Hr0 & Hrlim & Hrarena).
      apply (slice_ext _ _ _ _ 8 x00); try lia.
      intros k Hk. fold (Spec.byte_at m2 (Inline.tramp_off r + k)).
      fold (Spec.byte_at (Inline.mod_ st) (Inline.tramp_off r + k)).
      rewrite Hbytes by lia.
      destruct (Z.leb_spec (Inline.cur st) (Inline.tramp_off r + k)); simpl; [lia|].
      reflexivity.
    + cbn [Inline.tramp_off Inline.site_off new].
      split; [lia|]. split; [lia|].
      apply (slice_ext _ _ _ _ 8 x00); try lia.
      intros k Hk. fold (Spec.byte_at m2 (Inline.cur st + k)).
      fold (Spec.byte_at mod0 (site + k)).
      rewrite Hbytes by lia.
      destruct (Z.leb_spec (Inline.cur st) (Inline.cur st + k)),
               (Z.ltb_spec (Inline.cur st + k) (Inline.cur st + 16));
        simpl; try lia.
      replace (Inline.cur st + k - Inline.cur st) with k by lia.
      rewrite <- Horig by lia. subst tramp. unfold Spec.byte_at.
      apply app_nth1. unfold Py.len in Hstolen. lia.
Qed.

Lemma targets_inv nm spec ts st st' :
  Spec.inline_inv mod0 arena_off need st ->
  ofold (Inline.site_step ks ps nm spec) ts st = Ok st' ->
  Spec.sites_clear limit arena_off need (Inline.rows st') ->
  Inline.per_tramp * Py.len (Inline.rows st') <= need ->
  Spec.inline_inv mod0 arena_off need st'.
Proof.
  revert st. induction ts as [|a ts IH]; intros st Hinv Hfold Hclear Hslots; simpl in Hfold.
  - injection Hfold as <-. exact Hinv.
  - destruct (Inline.site_step ks ps nm spec st a) as [st1|e] eqn:E1;
      simpl in Hfold; [|discriminate].
    destruct (InlineRun.targets_fold_ok ks ps nm spec ts st1 st' Hfold) as (_ & Hr & _).
    apply (IH st1); auto.
    apply (site_step_inv nm spec st a st1 Hinv E1).
    + rewrite Hr in Hclear. now apply sites_clear_app_l in Hclear.
    + rewrite Hr, len_app in Hslots.
      pose proof (len_nonneg (Spec.mk_rows (Inline.cur st1)
                    (map (fun x => (nm, x))
                       (flat_map (Spec.inline_site (Inline.buf st1) spec) ts)))).
      unfold Inline.per_tramp in *. lia.
Qed.

Lemma hooks_inv hooks st st' :
  Spec.inline_inv mod0 arena_off need st ->
  ofold (Inline.hook_step ks ps) hooks st = Ok st' ->
  Spec.sites_clear limit arena_off need (Inline.rows st') ->
  Inline.per_tramp * Py.len (Inline.rows st') <= need ->
  Spec.inline_inv mod0 arena_off need st'.
Proof.
  revert st. induction hooks as [|[nm spec] hooks IH];
    intros st Hinv Hfold Hclear Hslots; simpl in Hfold.
  - injection Hfold as <-. exact Hinv.
  - destruct (Inline.hook_step ks ps st (nm, spec)) as [st1|e] eqn:E1;
      simpl in Hfold; [|discriminate].
    destruct (InlineRun.hooks_fold_ok ks ps hooks st1 st' Hfold) as (_ & Hr & _).
    apply (IH st1); auto.
    unfold Inline.hook_step in E1. simpl in E1.
    apply (targets_inv nm spec (Inline.targets spec) st st1 Hinv E1).
    + rewrite Hr in Hclear. now apply sites_clear_app_l in Hclear.
    + rewrite Hr, len_app in Hslots.
      pose proof (len_nonneg (Spec.mk_rows (Inline.cur st1)
                    (Spec.inline_sites (Inline.buf st1) hooks))).
      unfold Inline.per_tramp in *. lia.
Qed.

End Inv.

(** In a run of [make_inline.py] whose sites are clear of one another and
    of the arena, every trampoline of the final image starts with the bytes
    the original image has at its site. *)
Lemma main_loop_trampolines ks ps image hooks st :
  Inline.main_loop ks ps image hooks = Ok st ->
  Spec.sites_clear (Py.len image)
    (snd (Inline.alloc_arena image (Inline.arena_need hooks)))
    (Inline.arena_need hooks) (Inline.rows st) ->
  forall r, In r (Inline.rows st) ->
    Py.slice (Inline.mod_ st) (Inline.tramp_off r) (Inline.tramp_off r + 8)
    = Py.slice image (Inline.site_off r) (Inline.site_off r + 8).
Proof.
  intros Hrun Hclear r Hr.
  pose proof (InlineRun.main_loop_rows ks ps image hooks st Hrun) as (_ & Hrows & _).
  pose proof (arena_need_min hooks) as Hneed.
  pose proof (len_nonneg image) as Himg.
  unfold Inline.main_loop in Hrun.
  destruct (Inline.alloc_arena image (Inline.arena_need hooks)) as [mod0 off] eqn:Ea.
  simpl in Hclear, Hrows.
  assert (Hgeom : 0 <= off /\ off + Inline.arena_need hooks <= Py.len mod0 /\
                  Py.len image <= Py.len mod0 /\
                  forall k, 0 <= k < Py.len image ->
                    Spec.byte_at mod0 k = Spec.byte_at image k).
  { unfold Inline.alloc_arena in Ea.
    destruct (inline_cave_spec image (Inline.arena_need hooks) ltac:(lia))
      as [[E _] | [(H0 & Hfit & _) _]].
    - rewrite E in Ea. simpl in Ea. injection Ea as <- <-.
      rewrite len_app, len_repeat. repeat split; try lia.
      intros k Hk. unfold Spec.byte_at. apply app_nth1. unfold Py.len in Hk. lia.
    - destruct (Z.ltb_spec (Inline.find_code_cave image (Inline.arena_need hooks)) 0);
        [lia|]. injection Ea as <- <-. repeat split; try lia. }
  destruct Hgeom as (Hoff & Hfit & Hlim & Hsame).
  assert (Hslots : Inline.per_tramp * Py.len (Inline.rows st) <= Inline.arena_need hooks).
  { rewrite Hrows. unfold Py.len. rewrite InlineRun.mk_rows_length.
    pose proof (inline_sites_bound image hooks) as Hb.
    unfold Inline.arena_need, Inline.per_tramp, Py.len in *. lia. }
  assert (Hinv0 : Spec.inline_inv mod0 off (Inline.arena_need hooks)
                    {| Inline.buf := image; Inline.mod_ := mod0; Inline.cur := off;
                       Inline.rows := []; Inline.hook_ids := [] |}).
  { unfold Spec.inline_inv. simpl. repeat split; try tauto.
    unfold Py.len. simpl. lia. }
  pose proof (hooks_inv ks ps mod0 off (Inline.arena_need hooks) (Py.len image)
                Hoff Hfit Hlim hooks _ st Hinv0 Hrun Hclear Hslots)
    as (_ & _ & _ & Htr).
  destruct (Htr r Hr) as (_ & _ & ->).
  destruct Hclear as [Hb _]. destruct (Hb r Hr) as (Hs0 & Hs1 & _).
  apply (slice_ext _ _ _ _ 8 x00); try lia.
  intros k Hk. apply Hsame. lia.
Qed.

End TrampFacts.

(* ===================================================================== *)
(** * Part VIII: the generated hook table                                  *)
(* ===================================================================== *)

Module EmitFacts.

Import PyFacts.

Lemma string_eqb_true x y : String.eqb x y = true <-> x = y.
Proof. apply String.eqb_eq. Qed.

Lemma existsb_eqb_In (n : string) (acc : list string) :
  existsb (String.eqb n) acc = true <-> In n acc.
Proof.
  rewrite existsb_exists. split.
  - intros [y [Hy E]]. apply String.eqb_eq in E. now subst.
  - intros H. exists n. split; [exact H | apply String.eqb_refl].
Qed.

Lemma filter_comm {A} (p q : A -> bool) (l : list A) :
  List.filter p (List.filter q l) = List.filter q (List.filter p l).
Proof.
  induction l as [|a l IH]; simpl; [reflexivity|].
  destruct (q a) eqn:Eq, (p a) eqn:Ep; simpl; rewrite ?Eq, ?Ep, ?IH; reflexivity.
Qed.

Lemma filter_absorb (p : string -> bool) (a : string) (l : list string) :
  p a = false ->
  List.filter p (List.filter (fun y => negb (String.eqb a y)) l) = List.filter p l.
Proof.
  intros Hp. induction l as [|b l IH]; simpl; [reflexivity|].
  destruct (String.eqb_spec a b) as [<-|Hne]; simpl.
  - rewrite Hp. exact IH.
  - rewrite IH. reflexivity.
Qed.

Lemma first_seen_filter (p : string -> bool) (l : list string) :
  Spec.first_seen (List.filter p l) = List.filter p (Spec.first_seen l).
Proof.
  induction l as [|a l IH]; simpl; [reflexivity|].
  destruct (p a) eqn:Ep; simpl.
  - rewrite ?Ep. f_equal. rewrite IH. apply filter_comm.
  - rewrite ?Ep, IH. symmetry. now apply filter_absorb.
Qed.

Lemma filter_and {A} (p q : A -> bool) (l : list A) :
  List.filter (fun y => p y && q y) l = List.filter q (List.filter p l).
Proof.
  induction l as [|a l IH]; simpl; [reflexivity|].
  destruct (p a); simpl; [destruct (q a)|]; rewrite ?IH; reflexivity.
Qed.

Lemma fresh_snoc acc x y :
  Spec.fresh (acc ++ [x]) y = Spec.fresh acc y && negb (String.eqb x y).
Proof.
  unfold Spec.fresh. rewrite existsb_app. simpl. rewrite orb_false_r, negb_orb.
  f_equal. f_equal. apply String.eqb_sym.
Qed.

(** The accumulating loop of the script computes the first-seen
    deduplication. *)
Lemma unique_loop l acc :
  fold_left (fun acc n => if existsb (String.eqb n) acc then acc else acc ++ [n]) l acc
  = acc ++ Spec.first_seen (List.filter (Spec.fresh acc) l).
Proof.
  revert acc. induction l as [|x l IH]; intros acc; simpl.
  - now rewrite app_nil_r.
  - unfold Spec.fresh at 1. destruct (existsb (String.eqb x) acc) eqn:E; simpl.
    + apply IH.
    + rewrite IH, <- app_assoc. simpl. do 2 f_equal.
      rewrite <- first_seen_filter. f_equal.
      rewrite <- filter_and. apply filter_ext. intros y. apply fresh_snoc.
Qed.

Lemma unique_names_first_seen ids : Inline.unique_names ids = Spec.first_seen ids.
Proof.
  unfold Inline.unique_names. rewrite unique_loop. simpl. f_equal.
  induction ids as [|x l IH]; simpl; [reflexivity | now rewrite IH].
Qed.

Lemma in_cons_iff {A} (x y : A) (l : list A) : In y (x :: l) <-> x = y \/ In y l.
Proof. reflexivity. Qed.

Lemma first_seen_In n l : In n (Spec.first_seen l) <-> In n l.
Proof.
  induction l as [|x l IH]; [simpl; tauto|].
  change (Spec.first_seen (x :: l))
    with (x :: List.filter (fun y => negb (String.eqb x y)) (Spec.first_seen l)).
  rewrite !in_cons_iff, filter_In, IH. split.
  - intros [H | [H _]]; auto.
  - intros [H | H]; [now left|].
    destruct (String.eqb_spec x n) as [E|E]; [now left | right; split; auto].
Qed.

Lemma first_seen_NoDup l : List.NoDup (Spec.first_seen l).
Proof.
  induction l as [|x l IH]; simpl; [apply List.NoDup_nil | apply List.NoDup_cons].
  - rewrite filter_In. intros [_ H]. rewrite String.eqb_refl in H. discriminate.
  - now apply List.NoDup_filter.
Qed.

(** The guard column: the first eight guard bytes, zero padded. *)
Lemma pad_loop (g pad : list byte) (s : nat) :
  (s + length g <= length pad)%nat ->
  fold_left (fun pad ib => <[fst ib := snd ib]> pad) (combine (seq s (length g)) g) pad
  = firstn s pad ++ g ++ skipn (s + length g) pad.
Proof.
  revert pad s. induction g as [|b g IH]; intros pad s Hlen; simpl.
  - rewrite Nat.add_0_r. symmetry. apply firstn_skipn.
  - rewrite IH by (rewrite length_insert; simpl in Hlen; lia).
    simpl in Hlen.
    rewrite (take_S_r _ s b) by (apply list_lookup_insert_eq; lia).
    rewrite take_insert_ge by lia. rewrite drop_insert_lt by lia.
    rewrite <- app_assoc. simpl.
    replace (S (s + length g)) with (s + S (length g))%nat by lia. reflexivity.
Qed.

Lemma pad_guard_spec g :
  Inline.pad_guard g
  = Py.slice g 0 8 ++ repeat x00 (8 - length (Py.slice g 0 8)).
Proof.
  unfold Inline.pad_guard.
  assert (Hl : (length (Py.slice g 0 8) <= 8)%nat).
  { unfold Py.slice. cbv zeta. rewrite length_firstn.
    unfold Py.index. simpl. lia. }
  rewrite pad_loop by (rewrite repeat_length; lia).
  simpl. f_equal. generalize (length (Py.slice g 0 8)) Hl. intros n Hn.
  do 9 (destruct n as [|n]; [reflexivity|]). lia.
Qed.

Lemma pad_guard_length g : length (Inline.pad_guard g) = 8%nat.
Proof.
  rewrite pad_guard_spec, length_app, repeat_length.
  assert (Hl : (length (Py.slice g 0 8) <= 8)%nat).
  { unfold Py.slice. cbv zeta. rewrite length_firstn.
    unfold Py.index. simpl. lia. }
  lia.
Qed.

End EmitFacts.

(* ===================================================================== *)
(** * Part IX: pattern tokens                                              *)
(* ===================================================================== *)

Module TokenFacts.

Import PyFacts ScanFacts.

Lemma hex_digit_table c d : Py.hex_digit c = Some d -> In (c, d) Spec.hex_table.
Proof.
  destruct c as [[] [] [] [] [] [] [] []]; vm_compute; intros E;
    try discriminate; injection E as <-;
    repeat (first [left; reflexivity | right]).
Qed.

Lemma hex_digit_range c d : Py.hex_digit c = Some d -> 0 <= d < 16.
Proof.
  intros H. apply hex_digit_table in H. unfold Spec.hex_table in H.
  repeat (destruct H as [H|H]; [injection H as <- <-; lia|]). destruct H.
Qed.

Ltac each_hex H :=
  unfold Spec.hex_table in H;
  repeat (destruct H as [H|H]; [injection H as <- <-|]); [..|destruct H].

(** ** One-byte scans *)

Lemma inline_scan_one b v m :
  Inline.scan [b] [v] [m] = 0 <-> Inline.mismatch b v m = false.
Proof.
  unfold Inline.scan.
  change (Py.range 0 (Py.len [b] - Py.len [v] + 1)) with [0].
  change (Py.slice [b] 0 (0 + Py.len [v])) with [b].
  unfold Inline.window_ok. simpl.
  destruct (Inline.mismatch b v m); simpl; split; (discriminate || reflexivity || lia).
Qed.

Lemma bps_scan_one b v m :
  BPS.scan_aob [b] [v] [m] = 0 <-> BPS.mismatch b v m = false.
Proof.
  unfold BPS.scan_aob.
  change (Py.range 0 (Py.len [b] - Py.len [v] + 1)) with [0].
  change (Py.slice [b] 0 (0 + Py.len [v])) with [b].
  unfold BPS.window_ok. simpl.
  destruct (BPS.mismatch b v m); simpl; split; (discriminate || reflexivity || lia).
Qed.

Lemma inline_token_iff tok v m b :
  Inline.aob_to_pat_mask tok = Ok ([v], [m]) ->
  (Spec.token_matches Inline.aob_to_pat_mask Inline.scan tok b
   <-> Py.band b m = Py.band v m).
Proof.
  intros Hp. unfold Spec.token_matches. split.
  - intros (v' & m' & E & Hs). rewrite Hp in E. injection E as <- <-.
    now apply inline_mismatch_false, inline_scan_one.
  - intros H. exists v, m. split; [exact Hp|].
    now apply inline_scan_one, inline_mismatch_false.
Qed.

Lemma bps_token_iff tok v m b :
  BPS.aob_to_bytes_mask tok = Ok ([v], [m]) ->
  (Spec.token_matches BPS.aob_to_bytes_mask BPS.scan_aob tok b
   <-> BPS.mismatch b v m = false).
Proof.
  intros Hp. unfold Spec.token_matches. split.
  - intros (v' & m' & E & Hs). rewrite Hp in E. injection E as <- <-.
    now apply bps_scan_one.
  - intros H. exists v, m. split; [exact Hp|]. now apply bps_scan_one.
Qed.

Lemma token_fatal parse scan tok e b :
  parse tok = Fatal e -> ~ Spec.token_matches parse scan tok b.
Proof.
  intros Hp (v & m & E & _). rewrite Hp in E. discriminate.
Qed.

(** ** What [make_inline] makes of the four kinds of token *)

Lemma inline_parse_any :
  Inline.aob_to_pat_mask "??" = Ok ([x00], [x00]).
Proof. reflexivity. Qed.

Lemma inline_parse_high h A :
  In (h, A) Spec.hex_table ->
  exists v, Inline.aob_to_pat_mask (Spec.tok2 h "?") = Ok ([v], [xf0])
            /\ Py.b2z v = 16 * A.
Proof.
  intros H. each_hex H; eexists; split; reflexivity.
Qed.

Lemma inline_parse_low l L :
  In (l, L) Spec.hex_table ->
  exists v, Inline.aob_to_pat_mask (Spec.tok2 "?" l) = Ok ([v], [x0f])
            /\ Py.b2z v = L.
Proof.
  intros H. each_hex H; eexists; split; reflexivity.
Qed.

Lemma inline_parse_fixed h H l L :
  In (h, H) Spec.hex_table -> In (l, L) Spec.hex_table ->
  exists v, Inline.aob_to_pat_mask (Spec.tok2 h l) = Ok ([v], [xff])
            /\ Py.b2z v = 16 * H + L.
Proof.
  intros Hh Hl. each_hex Hh; each_hex Hl; eexists; split; reflexivity.
Qed.

(** ** What [make_bps] makes of them *)

Lemma bps_parse_any :
  BPS.aob_to_bytes_mask "??" = Ok ([x00], [x00]).
Proof. reflexivity. Qed.

Lemma bps_parse_high h A :
  In (h, A) Spec.hex_table ->
  BPS.aob_to_bytes_mask (Spec.tok2 h "?") = Fatal ValueError.
Proof.
  intros H. each_hex H; reflexivity.
Qed.

Lemma bps_parse_low l L :
  In (l, L) Spec.hex_table ->
  BPS.aob_to_bytes_mask (Spec.tok2 "?" l) = Fatal ValueError.
Proof.
  intros H. each_hex H; reflexivity.
Qed.

Lemma bps_parse_fixed h H l L :
  In (h, H) Spec.hex_table -> In (l, L) Spec.hex_table ->
  exists v, BPS.aob_to_bytes_mask (Spec.tok2 h l) = Ok ([v], [xff])
            /\ Py.b2z v = 16 * H + L.
Proof.
  intros Hh Hl. each_hex Hh; each_hex Hl; eexists; split; reflexivity.
Qed.

End TokenFacts.

(* ===================================================================== *)
(** * Part IX-b: frame and wiring of the hook loop of [make_inline.py]     *)
(* ===================================================================== *)

Module LoopFacts.

Import PyFacts ScanFacts CaveFacts TrampFacts.

Lemma slice_len_le {A} (l : list A) (a b : Z) :
  0 <= a -> a <= b -> Py.len (Py.slice l a b) <= b - a.
Proof.
  intros Ha Hab. unfold Py.slice. cbv zeta. unfold Py.len.
  rewrite length_firstn, length_skipn. unfold Py.index.
  destruct (Z.ltb_spec a 0), (Z.ltb_spec b 0); lia.
Qed.

Lemma slice_beyond {A} (l : list A) (a b : Z) :
  Py.len l <= a -> a <= b -> Py.slice l a b = [].
Proof.
  intros Ha Hab. unfold Py.slice. cbv zeta. pose proof (len_nonneg l).
  rewrite !index_over by lia. rewrite Z.sub_diag. reflexivity.
Qed.

Lemma slice_assign_beyond {A} (l x : list A) (a b : Z) :
  Py.len l <= a -> a <= b -> Py.slice_assign l a b x = l ++ x.
Proof.
  intros Ha Hab. unfold Py.slice_assign. cbv zeta. pose proof (len_nonneg l).
  rewrite !index_over by lia. rewrite Z.max_id.
  unfold Py.len. rewrite Nat2Z.id, firstn_all, skipn_all. now rewrite app_nil_r.
Qed.

Lemma resolve_nonneg st spec a site :
  Inline.resolve st spec a = Ok (Some site) -> 0 <= site.
Proof.
  unfold Inline.resolve.
  destruct a as [[z|]|]; simpl.
  - destruct (Z.ltb_spec z 0); intros E; [discriminate|]. injection E as <-. lia.
  - discriminate.
  - destruct (Py.truthy (aob spec)); [|discriminate].
    destruct (Inline.aob_to_pat_mask _) as [pm|e]; simpl; [|discriminate].
    destruct (Z.ltb_spec (Inline.scan (Inline.buf st) (fst pm) (snd pm)) 0);
      intros E; [discriminate|]. injection E as <-. lia.
Qed.

Section Shape.

Variable ks : Z -> Z -> option (list byte).
Variable ps : bool.

(** What a successful step did: nothing, or one trampoline written at the
    cursor and, with [--patch-sites], one detour written at the site. *)
Lemma site_step_shape nm spec st a st' :
  Inline.site_step ks ps nm spec st a = Ok st' ->
  st' = st \/
  exists site g j m2,
    Inline.resolve st spec a = Ok (Some site) /\ 0 <= site /\
    let stolen := Py.slice (Inline.mod_ st) site (site + 8) in
    let m1 := Py.slice_assign (Inline.mod_ st) (Inline.cur st)
                (Inline.cur st + Py.len (stolen ++ j)) (stolen ++ j) in
    Inline.asm_abs_jump_va ks (Inline.CODE_BASE + (site + 8))
                           (Inline.cur st + Py.len stolen) = Ok j /\
    ((ps = false /\ m2 = m1) \/
     (ps = true /\ exists d,
        Inline.asm_abs_jump_va ks (Inline.CODE_BASE + Inline.cur st) site = Ok d /\
        m2 = Py.slice_assign m1 site (site + 8) d)) /\
    st' = {| Inline.buf := Inline.buf st; Inline.mod_ := m2;
             Inline.cur := Inline.cur st + Inline.per_tramp;
             Inline.rows := Inline.rows st ++
               [ {| Inline.name := nm; Inline.site_off := site;
                    Inline.tramp_off := Inline.cur st;
                    Inline.guard_bytes := snd g; Inline.guard_len := fst g |} ];
             Inline.hook_ids := Inline.hook_ids st ++ [nm] |}.
Proof.
  unfold Inline.site_step.
  destruct (Inline.resolve st spec a) as [[site|]|e] eqn:Er; simpl; [| |discriminate].
  2: { intros E. injection E as <-. now left. }
  destruct (Inline.guard_snapshot st spec site) as [g|e]; simpl; [|discriminate].
  unfold Inline.build_tramp, Inline.STOLEN_SIZE.
  destruct (Inline.asm_abs_jump_va ks _ _) as [j|e] eqn:Ej; simpl; [|discriminate].
  intros Hstep. right. exists site, g, j.
  pose proof (resolve_nonneg _ _ _ _ Er) as Hs.
  destruct ps.
  - destruct (Inline.asm_abs_jump_va ks _ site) as [d|e] eqn:Ed;
      simpl in Hstep; [|discriminate].
    pose proof (asm_len _ _ _ _ Ed) as Hd. rewrite Hd in Hstep. simpl in Hstep.
    injection Hstep as <-. eexists. split; [reflexivity|]. split; [exact Hs|].
    cbv zeta. split; [exact Ej|]. split; [|reflexivity].
    right. split; [reflexivity|]. exists d. split; [first [exact Ed | reflexivity] | reflexivity].
  - simpl in Hstep. injection Hstep as <-.
    eexists. split; [reflexivity|]. split; [exact Hs|].
    cbv zeta. split; [exact Ej|]. split; [|reflexivity].
    left. split; reflexivity.
Qed.

(** An invariant of the steps whose side condition on the rows is closed
    under prefixes is an invariant of the whole loop. *)
Lemma loop_invariant (I : Inline.state -> Prop) (C : list Inline.row -> Prop) :
  (forall l1 l2, C (l1 ++ l2) -> C l1) ->
  (forall nm spec st a st',
     I st -> Inline.site_step ks ps nm spec st a = Ok st' ->
     C (Inline.rows st') -> I st') ->
  forall hooks st st',
    I st -> ofold (Inline.hook_step ks ps) hooks st = Ok st' ->
    C (Inline.rows st') -> I st'.
Proof.
  intros Hpre Hstep.
  assert (Htargets : forall nm spec ts st st',
            I st -> ofold (Inline.site_step ks ps nm spec) ts st = Ok st' ->
            C (Inline.rows st') -> I st').
  { intros nm spec ts. induction ts as [|a ts IH]; intros st st' Hi Hf Hc; simpl in Hf.
    - injection Hf as <-. exact Hi.
    - destruct (Inline.site_step ks ps nm spec st a) as [st1|e] eqn:E1;
        simpl in Hf; [|discriminate].
      destruct (InlineRun.targets_fold_ok ks ps nm spec ts st1 st' Hf) as (_ & Hr & _).
      apply (IH st1 st'); auto. apply (Hstep nm spec st a st1 Hi E1).
      rewrite Hr in Hc. now apply Hpre in Hc. }
  intros hooks. induction hooks as [|[nm spec] hooks IH]; intros st st' Hi Hf Hc;
    simpl in Hf.
  - injection Hf as <-. exact Hi.
  - destruct (Inline.hook_step ks ps st (nm, spec)) as [st1|e] eqn:E1;
      simpl in Hf; [|discriminate].
    destruct (InlineRun.hooks_fold_ok ks ps hooks st1 st' Hf) as (_ & Hr & _).
    apply (IH st1 st'); auto.
    unfold Inline.hook_step in E1. simpl in E1.
    apply (Htargets nm spec (Inline.targets spec) st st1 Hi E1).
    rewrite Hr in Hc. now apply Hpre in Hc.
Qed.

End Shape.

(** Where the arena lies after allocation. *)
Lemma alloc_geometry image need mod0 off :
  1 <= need -> Inline.alloc_arena image need = (mod0, off) ->
  0 <= off /\ off + need <= Py.len mod0 /\ Py.len image <= Py.len mod0 /\
  (forall k, 0 <= k < Py.len image -> Spec.byte_at mod0 k = Spec.byte_at image k) /\
  (Py.len mod0 = Py.len image \/
   (off = Py.len image /\ mod0 = image ++ repeat x00 (Z.to_nat need))).
Proof.
  intros Hneed Ea. pose proof (len_nonneg image) as Himg.
  unfold Inline.alloc_arena in Ea.
  destruct (inline_cave_spec image need Hneed) as [[E _] | [(H0 & Hfit & _) _]].
  - rewrite E in Ea. simpl in Ea. injection Ea as <- <-.
    rewrite len_app, len_repeat. repeat split; try lia.
    + intros k Hk. unfold Spec.byte_at. apply app_nth1. unfold Py.len in Hk. lia.
    + right. split; reflexivity.
  - destruct (Z.ltb_spec (Inline.find_code_cave image need) 0); [lia|].
    injection Ea as <- <-. repeat split; try lia.
Qed.


Lemma frame_ok_prefix ps mod0 need l1 l2 :
  SpecX.frame_ok ps mod0 need (l1 ++ l2) -> SpecX.frame_ok ps mod0 need l1.
Proof.
  intros [H1 H2]. split.
  - intros Hps r Hr. apply (H1 Hps). apply in_or_app. now left.
  - rewrite len_app in H2. pose proof (len_nonneg l2).
    unfold Inline.per_tramp in *. lia.
Qed.

Lemma wired_ok_prefix limit off need l1 l2 :
  SpecX.wired_ok limit off need (l1 ++ l2) -> SpecX.wired_ok limit off need l1.
Proof.
  intros [H1 H2]. split.
  - now apply sites_clear_app_l in H1.
  - rewrite len_app in H2. pose proof (len_nonneg l2).
    unfold Inline.per_tramp in *. lia.
Qed.

Section Frame.

Variable ks : Z -> Z -> option (list byte).
Variable ps : bool.
Variables (mod0 : list byte) (off need : Z).
Hypothesis Hoff : 0 <= off.
Hypothesis Hfit : off + need <= Py.len mod0.

Lemma frame_step nm spec st a st' :
  SpecX.frame_inv ps mod0 off st ->
  Inline.site_step ks ps nm spec st a = Ok st' ->
  SpecX.frame_ok ps mod0 need (Inline.rows st') ->
  SpecX.frame_inv ps mod0 off st'.
Proof.
  intros Hinv Hstep Hok.
  destruct (site_step_shape ks ps nm spec st a st' Hstep)
    as [-> | (site & g & j & m2 & Hres & Hs & Hj & Hm2 & ->)]; [exact Hinv|].
  cbv zeta in Hj, Hm2.
  destruct Hinv as (Ilen & Icur & Iout). destruct Hok as [Hin Hslots].
  cbn [Inline.rows Inline.mod_ Inline.cur] in *.
  set (new := {| Inline.name := nm; Inline.site_off := site;
                 Inline.tramp_off := Inline.cur st;
                 Inline.guard_bytes := snd g; Inline.guard_len := fst g |}) in *.
  assert (Hnew : In new (Inline.rows st ++ [new]))
    by (apply in_or_app; right; now left).
  set (stolen := Py.slice (Inline.mod_ st) site (site + 8)) in *.
  pose proof (slice_len_le (Inline.mod_ st) site (site + 8) Hs ltac:(lia)) as Hst.
  fold stolen in Hst. pose proof (len_nonneg stolen) as Hst0.
  pose proof (asm_len _ _ _ _ Hj) as Hjl.
  assert (Htr : Py.len (stolen ++ j) <= 16) by (rewrite len_app; lia).
  pose proof (len_nonneg (stolen ++ j)) as Htr0.
  rewrite len_app in Hslots. change (Py.len [new]) with 1 in Hslots.
  pose proof (len_nonneg (Inline.rows st)) as Hnr.
  unfold Inline.per_tramp in *.
  set (m1 := Py.slice_assign (Inline.mod_ st) (Inline.cur st)
               (Inline.cur st + Py.len (stolen ++ j)) (stolen ++ j)) in *.
  assert (L1 : Py.len m1 = Py.len (Inline.mod_ st))
    by (apply slice_assign_len; lia).
  assert (B1 : forall p, 0 <= p ->
                 (p < Inline.cur st \/ Inline.cur st + 16 <= p) ->
                 Spec.byte_at m1 p = Spec.byte_at (Inline.mod_ st) p).
  { intros p Hp Hout. unfold Spec.byte_at, m1.
    rewrite slice_assign_nth by lia.
    destruct (Z.leb_spec (Inline.cur st) p),
             (Z.ltb_spec p (Inline.cur st + Py.len (stolen ++ j)));
      simpl; try reflexivity. exfalso; lia. }
  unfold SpecX.frame_inv, Inline.per_tramp. cbn [Inline.rows Inline.mod_ Inline.cur].
  destruct Hm2 as [[Hps ->] | (Hps & d & Hd & ->)].
  - split; [lia|]. split; [rewrite len_app; change (Py.len [new]) with 1; lia|].
    intros p Hp Hslot Hwin. rewrite B1; [| assumption | exact (Hslot new Hnew)].
    apply Iout; auto.
    + intros r Hr. apply Hslot. apply in_or_app. now left.
    + intros Hps'. congruence.
  - pose proof (asm_len _ _ _ _ Hd) as Hdl.
    assert (Hsite : site + 8 <= Py.len mod0) by (apply (Hin Hps new Hnew)).
    replace (Py.slice_assign m1 site (site + 8) d)
      with (Py.slice_assign m1 site (site + Py.len d) d) by (rewrite Hdl; reflexivity).
    split; [rewrite slice_assign_len by lia; lia|].
    split; [rewrite len_app; change (Py.len [new]) with 1; lia|].
    intros p Hp Hslot Hwin.
    assert (Hpw : p < site \/ site + 8 <= p) by (apply (Hwin Hps new Hnew)).
    unfold Spec.byte_at at 1. rewrite slice_assign_nth by lia.
    destruct (Z.leb_spec site p), (Z.ltb_spec p (site + Py.len d)); simpl; try lia;
      fold (Spec.byte_at m1 p);
      (rewrite B1; [| assumption | exact (Hslot new Hnew)]);
      (apply Iout;
       [ assumption
       | intros r Hr; apply Hslot; apply in_or_app; now left
       | intros _ r Hr; apply (Hwin Hps r); apply in_or_app; now left ]).
Qed.

End Frame.

Section Wired.

Variable ks : Z -> Z -> option (list byte).
Variable ps : bool.
Variables (mod0 : list byte) (off need limit : Z).
Hypothesis Hoff : 0 <= off.
Hypothesis Hfit : off + need <= Py.len mod0.
Hypothesis Hlimit : limit <= Py.len mod0.

Lemma wired_step nm spec st a st' :
  SpecX.wired_inv ks ps mod0 off need st ->
  Inline.site_step ks ps nm spec st a = Ok st' ->
  SpecX.wired_ok limit off need (Inline.rows st') ->
  SpecX.wired_inv ks ps mod0 off need st'.
Proof.
  intros [Hinv Hw] Hstep [Hclear Hslots].
  split.
  { apply (site_step_inv ks ps mod0 off need limit Hoff Hfit Hlimit nm spec st a st');
      assumption. }
  destruct (site_step_shape ks ps nm spec st a st' Hstep)
    as [-> | (site & g & j & m2 & Hres & Hs & Hj & Hm2 & ->)]; [exact Hw|].
  cbv zeta in Hj, Hm2.
  destruct Hinv as (Ilen & Icur & _ & Itr).
  cbn [Inline.rows Inline.mod_ Inline.cur] in *.
  set (new := {| Inline.name := nm; Inline.site_off := site;
                 Inline.tramp_off := Inline.cur st;
                 Inline.guard_bytes := snd g; Inline.guard_len := fst g |}) in *.
  set (stolen := Py.slice (Inline.mod_ st) site (site + 8)) in *.
  destruct Hclear as [Hrows Hpair].
  assert (Hnew_in : In new (Inline.rows st ++ [new]))
    by (apply in_or_app; right; left; reflexivity).
  destruct (Hrows new Hnew_in) as (Hs0 & Hslim & Hsarena).
  cbn [Inline.site_off new] in Hs0, Hslim, Hsarena.
  rewrite map_app in Hpair. simpl in Hpair.
  pose proof (pairwise_apart_snoc _ _ _ Hpair) as Hapart.
  rewrite len_app in Hslots. change (Py.len [new]) with 1 in Hslots.
  pose proof (len_nonneg (Inline.rows st)) as Hnr.
  unfold Inline.per_tramp in *.
  assert (Hstolen : Py.len stolen = 8).
  { subst stolen. rewrite slice_len_in; lia. }
  pose proof (asm_len _ _ _ _ Hj) as Hjl.
  assert (Htramp : Py.len (stolen ++ j) = 16) by (rewrite len_app; lia).
  rewrite Hstolen in Hj.
  assert (Hm2' :
    m2 = Py.slice_assign (Inline.mod_ st) (Inline.cur st)
           (Inline.cur st + Py.len (stolen ++ j)) (stolen ++ j) \/
    exists detour, Py.len detour = 8 /\
      m2 = Py.slice_assign
             (Py.slice_assign (Inline.mod_ st) (Inline.cur st)
                (Inline.cur st + Py.len (stolen ++ j)) (stolen ++ j))
             site (site + 8) detour).
  { destruct Hm2 as [[_ ->] | (_ & d & Hd & ->)]; [now left|].
    right. exists d. split; [exact (asm_len _ _ _ _ Hd) | reflexivity]. }
  destruct (site_writes (Inline.mod_ st) (stolen ++ j) (Inline.cur st) site m2)
    as (Hlen2 & Hbytes); [lia | lia | lia | lia | exact Hm2' |].
  clear Hm2'. rewrite Htramp in Hbytes.
  assert (Hold : forall r, In r (Inline.rows st) ->
            Inline.site_off r + 8 <= site \/ site + 8 <= Inline.site_off r).
  { intros r Hr. apply (Hapart (Inline.site_off r)). now apply in_map. }
  intros r Hr. apply in_app_or in Hr as [Hr | [<- | []]].
  - destruct (Hw r Hr) as [Wj Wd].
    destruct (Itr r Hr) as (T1 & T2 & _).
    destruct (Hrows r (in_or_app _ _ _ (or_introl Hr))) as (Hr0 & Hrlim & Hrarena).
    unfold Inline.per_tramp in T2.
    split.
    + rewrite Wj. f_equal. unfold Inline.STOLEN_SIZE.
      replace (Inline.tramp_off r + 16) with (Inline.tramp_off r + 8 + 8) by lia.
      apply (slice_ext _ _ _ _ 8 x00); try lia.
      intros k Hk. fold (Spec.byte_at (Inline.mod_ st) (Inline.tramp_off r + 8 + k)).
      fold (Spec.byte_at m2 (Inline.tramp_off r + 8 + k)).
      rewrite Hbytes by lia.
      destruct (Z.leb_spec (Inline.cur st) (Inline.tramp_off r + 8 + k)); simpl; [lia|].
      reflexivity.
    + intros Hps. rewrite (Wd Hps). f_equal. specialize (Hold r Hr).
      apply (slice_ext _ _ _ _ 8 x00); try lia.
      intros k Hk. fold (Spec.byte_at (Inline.mod_ st) (Inline.site_off r + k)).
      fold (Spec.byte_at m2 (Inline.site_off r + k)).
      rewrite Hbytes by lia.
      destruct (Z.leb_spec (Inline.cur st) (Inline.site_off r + k)),
               (Z.ltb_spec (Inline.site_off r + k) (Inline.cur st + 16));
        simpl; try reflexivity. exfalso; lia.
  - unfold SpecX.wired. cbn [Inline.tramp_off Inline.site_off new].
    unfold Inline.STOLEN_SIZE. split.
    + rewrite Hj. f_equal.
      rewrite <- (slice_all j) at 1. rewrite Hjl.
      replace (Inline.cur st + 16) with (Inline.cur st + 8 + 8) by lia.
      change 8 with (0 + 8) at 1.
      apply (slice_ext _ _ _ _ 8 x00); try lia.
      intros k Hk. fold (Spec.byte_at m2 (Inline.cur st + 8 + k)).
      rewrite Hbytes by lia.
      destruct (Z.leb_spec (Inline.cur st) (Inline.cur st + 8 + k)),
               (Z.ltb_spec (Inline.cur st + 8 + k) (Inline.cur st + 16));
        simpl; try lia.
      unfold Spec.byte_at. rewrite app_nth2 by (unfold Py.len in Hstolen; lia).
      f_equal. unfold Py.len in Hstolen. lia.
    + intros Hps. destruct Hm2 as [[Hf _] | (_ & d & Hd & ->)]; [congruence|].
      rewrite Hd. f_equal. pose proof (asm_len _ _ _ _ Hd) as Hdl.
      rewrite <- (slice_all d) at 1. rewrite Hdl.
      change 8 with (0 + 8) at 1.
      assert (L1 : Py.len (Py.slice_assign (Inline.mod_ st) (Inline.cur st)
                     (Inline.cur st + Py.len (stolen ++ j)) (stolen ++ j))
                   = Py.len (Inline.mod_ st)) by (apply slice_assign_len; lia).
      apply (slice_ext _ _ _ _ 8 x00); try lia.
      intros k Hk.
      replace (site + 8) with (site + Py.len d) by lia.
      rewrite slice_assign_nth by lia.
      destruct (Z.leb_spec site (site + k)), (Z.ltb_spec (site + k) (site + Py.len d));
        simpl; try lia.
      f_equal. lia.
Qed.

End Wired.

(** The rows of a run never need more slots than the arena was sized for. *)
Lemma rows_fit ks ps image hooks st :
  Inline.main_loop ks ps image hooks = Ok st ->
  Inline.per_tramp * Py.len (Inline.rows st) <= Inline.arena_need hooks.
Proof.
  intros Hrun.
  pose proof (InlineRun.main_loop_rows ks ps image hooks st Hrun) as (_ & Hrows & _).
  rewrite Hrows. unfold Py.len. rewrite InlineRun.mk_rows_length.
  pose proof (inline_sites_bound image hooks) as Hb. unfold Py.len in Hb.
  unfold Inline.arena_need, Inline.per_tramp. lia.
Qed.

Lemma mk_rows_nth c l i r :
  nth_error (Spec.mk_rows c l) i = Some r ->
  Inline.tramp_off r = c + Inline.per_tramp * Z.of_nat i.
Proof.
  revert c i. induction l as [|[nm [[site g] glen]] l IH]; intros c i H.
  - destruct i; discriminate.
  - destruct i as [|i]; simpl in H.
    + injection H as <-. simpl. lia.
    + apply IH in H. rewrite H. unfold Inline.per_tramp. lia.
Qed.

End LoopFacts.

(* ===================================================================== *)
(** * Part IX-c: frame and slots of the hook loop of [make_bps.py]         *)
(* ===================================================================== *)

Module BpsFacts.

Import PyFacts ScanFacts CaveFacts LoopFacts.

Lemma bps_site_le1 image spec : Py.len (Spec.bps_site image spec) <= 1.
Proof.
  unfold Spec.bps_site. destruct (BPS.resolve _ _) as [[site|]|e];
    try (unfold Py.len; simpl; lia).
  destruct (BPS.guard_check _ _ _) as [[|]|e]; unfold Py.len; simpl; lia.
Qed.

Lemma bps_sites_bound image hooks :
  Py.len (Spec.bps_sites image hooks) <= Py.len hooks.
Proof.
  induction hooks as [|[nm spec] hooks IH].
  - unfold Py.len. simpl. lia.
  - unfold Spec.bps_sites in *. simpl. rewrite len_app, len_map, len_cons.
    pose proof (bps_site_le1 image spec). lia.
Qed.

Lemma mk_records_nth c l i r :
  nth_error (Spec.mk_records c l) i = Some r ->
  BPS.tramp_off r = c + BPS.arena_need_each * Z.of_nat i /\
  BPS.resume_off r = BPS.site_off r + 10 /\ BPS.stolen_len r = 10.
Proof.
  revert c i. induction l as [|[nm site] l IH]; intros c i H.
  - destruct i; discriminate.
  - destruct i as [|i]; simpl in H.
    + injection H as <-. simpl. repeat split; lia.
    + apply IH in H as (H1 & H2 & H3). rewrite H1.
      unfold BPS.arena_need_each. repeat split; lia.
Qed.

Section Run.

Variable kd kb : Z -> Z -> option (list byte).

Lemma records_fit image hooks st :
  BPS.main_loop kd kb image hooks = Ok st ->
  BPS.arena_need_each * Py.len (BPS.hook_records st) <= BPS.arena_total hooks.
Proof.
  intros Hrun.
  pose proof (BPSRun.main_loop_records kd kb image hooks st Hrun) as (_ & Hrec).
  assert (Hl : Py.len (BPS.hook_records st) = Py.len (Spec.bps_sites image hooks)).
  { rewrite Hrec. rewrite <- (len_map (fun r => (BPS.name r, BPS.site_off r))).
    now rewrite BPSRun.mk_records_keys. }
  rewrite Hl. pose proof (bps_sites_bound image hooks).
  unfold BPS.arena_total, BPS.arena_need_each. lia.
Qed.

(** A run that enters the hook loop has found its arena inside the image. *)
Lemma bps_arena_inside image hooks st :
  BPS.main_loop kd kb image hooks = Ok st ->
  let off := BPS.find_code_cave image (BPS.arena_total hooks) None in
  0 <= off /\ off + BPS.arena_total hooks <= Py.len image /\
  ofold (BPS.hook_step kd kb) hooks
    {| BPS.buf := image; BPS.mod_ := image; BPS.arena_cur := off;
       BPS.hook_records := [] |} = Ok st.
Proof.
  unfold BPS.main_loop. cbv zeta. intros Hrun.
  pose proof (arena_total_min hooks) as Hmin.
  destruct (Z.ltb_spec (BPS.find_code_cave image (BPS.arena_total hooks) None) 0)
    as [Hneg|Hpos]; [discriminate|].
  destruct (bps_cave_spec image (BPS.arena_total hooks) ltac:(lia))
    as [[E _] | [(H0 & Hfit & _) _]]; [lia|].
  repeat split; assumption.
Qed.

(** The trampoline of a site whose ten bytes lie inside the buffer: the
    stolen bytes, one 16-bit NOP, the branch. *)
Lemma build_tramp_full st site tramp :
  0 <= site -> site + 10 <= Py.len (BPS.mod_ st) ->
  BPS.build_tramp kb st site = Ok tramp ->
  exists enc,
    kb (site + 10 - (BPS.arena_cur st + 16)) (Z.lor (BPS.arena_cur st) 1) = Some enc /\
    tramp = Py.slice (BPS.mod_ st) site (site + 10) ++ BPS.NOP16 ++ enc.
Proof.
  intros Hs Hfit. unfold BPS.build_tramp. cbv zeta.
  pose proof (slice_len_in (BPS.mod_ st) site (site + 10) Hs ltac:(lia) Hfit) as Hl.
  replace (site + 10 - site) with 10 in Hl by lia.
  rewrite Hl. change (negb (Z.land 10 1 =? 0)) with false. cbv iota.
  rewrite Hl. change (negb (Z.land 10 3 =? 0)) with true. cbv iota.
  rewrite len_app, Hl. change (Py.len BPS.NOP16) with 2.
  replace (BPS.arena_cur st + (10 + 2) + 4) with (BPS.arena_cur st + 16) by lia.
  destruct (kb _ _) as [enc|] eqn:E; [|discriminate].
  intros H. injection H as <-. exists enc. split; [reflexivity|].
  now rewrite <- app_assoc.
Qed.

(** What a successful step did. *)
Lemma bps_step_shape nm spec st st' :
  BPS.hook_step kd kb st (nm, spec) = Ok st' ->
  st' = st \/
  exists site tramp detour,
    BPS.resolve st spec = Ok (Some site) /\
    BPS.build_tramp kb st site = Ok tramp /\
    BPS.assemble_detour kd 0 0 = Ok detour /\
    st' = {| BPS.buf := BPS.buf st;
             BPS.mod_ := Py.slice_assign
                           (Py.slice_assign (BPS.mod_ st) (BPS.arena_cur st)
                              (BPS.arena_cur st + Py.len tramp) tramp)
                           site (site + 10) detour;
             BPS.arena_cur := BPS.arena_cur st + BPS.arena_need_each;
             BPS.hook_records := BPS.hook_records st ++
               [ {| BPS.name := nm; BPS.site_off := site;
                    BPS.tramp_off := BPS.arena_cur st;
                    BPS.resume_off := site + 10; BPS.stolen_len := 10 |} ] |}.
Proof.
  unfold BPS.hook_step. cbv zeta. simpl fst. simpl snd.
  destruct (BPS.resolve st spec) as [[site|]|e]; simpl; [| |discriminate].
  2: { intros E. injection E as <-. now left. }
  destruct (BPS.guard_check st spec site) as [[|]|e]; simpl; [| |discriminate].
  2: { intros E. injection E as <-. now left. }
  destruct (BPS.build_tramp kb st site) as [tramp|e] eqn:Et; simpl; [|discriminate].
  destruct (BPS.assemble_detour kd 0 0) as [detour|e] eqn:Ed; simpl; [|discriminate].
  intros E. injection E as <-. right. exists site, tramp, detour.
  split; [reflexivity|]. split; [first [exact Et | reflexivity]|].
  split; reflexivity.
Qed.

Lemma detour_len lo hi d : BPS.assemble_detour kd lo hi = Ok d -> Py.len d = 10.
Proof.
  unfold BPS.assemble_detour. destruct (kd lo hi) as [b|]; [|discriminate].
  destruct (Z.eqb_spec (Py.len b) 10); [|discriminate].
  intros E. injection E as <-. assumption.
Qed.

(** An invariant of the steps whose side condition on the records is closed
    under prefixes is an invariant of the loop. *)
Lemma bps_loop_invariant (I : BPS.state -> Prop) (C : list BPS.hook_record -> Prop) :
  (forall l1 l2, C (l1 ++ l2) -> C l1) ->
  (forall nm spec st st',
     I st -> BPS.hook_step kd kb st (nm, spec) = Ok st' ->
     C (BPS.hook_records st') -> I st') ->
  forall hooks st st',
    I st -> ofold (BPS.hook_step kd kb) hooks st = Ok st' ->
    C (BPS.hook_records st') -> I st'.
Proof.
  intros Hpre Hstep hooks.
  induction hooks as [|[nm spec] hooks IH]; intros st st' Hi Hf Hc; simpl in Hf.
  - injection Hf as <-. exact Hi.
  - destruct (BPS.hook_step kd kb st (nm, spec)) as [st1|e] eqn:E1;
      simpl in Hf; [|discriminate].
    destruct (BPSRun.bps_hooks_fold_ok kd kb hooks st1 st' Hf) as (_ & Hr & _).
    apply (IH st1 st'); auto.
    apply (Hstep nm spec st st1 Hi E1).
    rewrite Hr in Hc. now apply Hpre in Hc.
Qed.

End Run.

End BpsFacts.

Module BpsFrame.
Import PyFacts ScanFacts CaveFacts LoopFacts BpsFacts.

Lemma bps_frame_ok_prefix image need l1 l2 :
  SpecX.bps_frame_ok image need (l1 ++ l2) -> SpecX.bps_frame_ok image need l1.
Proof.
  intros [H1 H2]. split.
  - intros r Hr. apply H1. apply in_or_app. now left.
  - rewrite len_app in H2. pose proof (len_nonneg l2).
    unfold BPS.arena_need_each in *. lia.
Qed.

Section Frame.

Variable kd kb : Z -> Z -> option (list byte).
Variables (image : list byte) (off need : Z).
Hypothesis Hkb : SpecX.branch_fits kb.
Hypothesis Hoff : 0 <= off.
Hypothesis Hfit : off + need <= Py.len image.

Lemma bps_frame_step nm spec st st' :
  SpecX.bps_frame_inv image off st ->
  BPS.hook_step kd kb st (nm, spec) = Ok st' ->
  SpecX.bps_frame_ok image need (BPS.hook_records st') ->
  SpecX.bps_frame_inv image off st'.
Proof.
  intros Hinv Hstep Hok.
  destruct (bps_step_shape kd kb nm spec st st' Hstep)
    as [-> | (site & tramp & d & Hres & Ht & Hd & ->)]; [exact Hinv|].
  destruct Hinv as (Ilen & Icur & Iout). destruct Hok as [Hin Hslots].
  cbn [BPS.hook_records BPS.mod_ BPS.arena_cur] in *.
  set (new := {| BPS.name := nm; BPS.site_off := site;
                 BPS.tramp_off := BPS.arena_cur st;
                 BPS.resume_off := site + 10; BPS.stolen_len := 10 |}) in *.
  assert (Hnew : In new (BPS.hook_records st ++ [new]))
    by (apply in_or_app; right; now left).
  destruct (Hin new Hnew) as [Hs0 Hs1]. cbn [BPS.site_off new] in Hs0, Hs1.
  destruct (build_tramp_full kb st site tramp Hs0 ltac:(lia) Ht) as (enc & Henc & ->).
  pose proof (Hkb _ _ _ Henc) as Hel. pose proof (len_nonneg enc) as He0.
  pose proof (detour_len kd _ _ _ Hd) as Hdl.
  set (stolen := Py.slice (BPS.mod_ st) site (site + 10)) in *.
  assert (Hst : Py.len stolen = 10).
  { subst stolen. rewrite slice_len_in; lia. }
  assert (Htr : Py.len (stolen ++ BPS.NOP16 ++ enc) <= 64).
  { rewrite !len_app, Hst. change (Py.len BPS.NOP16) with 2. lia. }
  pose proof (len_nonneg (stolen ++ BPS.NOP16 ++ enc)) as Htr0.
  rewrite len_app in Hslots. change (Py.len [new]) with 1 in Hslots.
  pose proof (len_nonneg (BPS.hook_records st)) as Hnr.
  unfold BPS.arena_need_each in *.
  set (m1 := Py.slice_assign (BPS.mod_ st) (BPS.arena_cur st)
               (BPS.arena_cur st + Py.len (stolen ++ BPS.NOP16 ++ enc))
               (stolen ++ BPS.NOP16 ++ enc)) in *.
  assert (L1 : Py.len m1 = Py.len (BPS.mod_ st))
    by (apply slice_assign_len; lia).
  assert (B1 : forall p, 0 <= p ->
                 (p < BPS.arena_cur st \/ BPS.arena_cur st + 64 <= p) ->
                 Spec.byte_at m1 p = Spec.byte_at (BPS.mod_ st) p).
  { intros p Hp Hout. unfold Spec.byte_at, m1.
    rewrite slice_assign_nth by lia.
    destruct (Z.leb_spec (BPS.arena_cur st) p),
             (Z.ltb_spec p (BPS.arena_cur st + Py.len (stolen ++ BPS.NOP16 ++ enc)));
      simpl; try reflexivity. exfalso; lia. }
  unfold SpecX.bps_frame_inv, BPS.arena_need_each.
  cbn [BPS.hook_records BPS.mod_ BPS.arena_cur].
  replace (Py.slice_assign m1 site (site + 10) d)
    with (Py.slice_assign m1 site (site + Py.len d) d) by (rewrite Hdl; reflexivity).
  split; [rewrite slice_assign_len by lia; lia|].
  split; [rewrite len_app; change (Py.len [new]) with 1; lia|].
  intros p Hp Hslot Hwin.
  assert (Hpw : p < site \/ site + 10 <= p) by (apply (Hwin new Hnew)).
  unfold Spec.byte_at at 1. rewrite slice_assign_nth by lia.
  destruct (Z.leb_spec site p), (Z.ltb_spec p (site + Py.len d)); simpl; try lia;
    fold (Spec.byte_at m1 p);
    (rewrite B1; [| assumption | exact (Hslot new Hnew)]);
    (apply Iout;
     [ assumption
     | intros r Hr; apply Hslot; apply in_or_app; now left
     | intros r Hr; apply (Hwin r); apply in_or_app; now left ]).
Qed.

End Frame.

End BpsFrame.

(** ** Wiring *)

Module BpsWire.

Import PyFacts ScanFacts CaveFacts TrampFacts LoopFacts BpsFacts BpsFrame.

(** Two in-place writes: the trampoline at [cur], then the detour at
    [site]. *)
Lemma two_writes (m t d : list byte) (cur site : Z) :
  0 <= cur -> cur + Py.len t <= Py.len m ->
  0 <= site -> site + Py.len d <= Py.len m ->
  let m2 := Py.slice_assign (Py.slice_assign m cur (cur + Py.len t) t)
              site (site + Py.len d) d in
  Py.len m2 = Py.len m /\
  forall p, 0 <= p ->
    Spec.byte_at m2 p
    = if (site <=? p) && (p <? site + Py.len d) then Spec.byte_at d (p - site)
      else if (cur <=? p) && (p <? cur + Py.len t) then Spec.byte_at t (p - cur)
      else Spec.byte_at m p.
Proof.
  intros Hc Hcf Hs Hsf m2. subst m2.
  assert (L1 : Py.len (Py.slice_assign m cur (cur + Py.len t) t) = Py.len m)
    by (apply slice_assign_len; lia).
  split; [rewrite slice_assign_len by lia; exact L1|].
  intros p Hp. unfold Spec.byte_at.
  rewrite slice_assign_nth by lia.
  destruct ((site <=? p) && (p <? site + Py.len d)); [reflexivity|].
  now rewrite slice_assign_nth by lia.
Qed.

(** A slice is determined by its bytes. *)
Lemma slice_is (m x : list byte) (a : Z) :
  0 <= a -> a + Py.len x <= Py.len m ->
  (forall k, 0 <= k < Py.len x -> Spec.byte_at m (a + k) = Spec.byte_at x k) ->
  Py.slice m a (a + Py.len x) = x.
Proof.
  intros Ha Hfit H. pose proof (len_nonneg x) as Hx.
  rewrite <- (slice_all x) at 2.
  apply (slice_ext m x a 0 (Py.len x) x00); try lia.
  intros k Hk. apply H. exact Hk.
Qed.

Lemma bps_clear_prefix image off need l1 l2 :
  SpecX.bps_clear image off need (l1 ++ l2) -> SpecX.bps_clear image off need l1.
Proof.
  intros (H1 & H2 & H3). split; [|split].
  - intros r Hr. apply H1. apply in_or_app. now left.
  - rewrite map_app in H2. now apply pairwise_apart_app_l in H2.
  - rewrite len_app in H3. pose proof (len_nonneg l2).
    unfold BPS.arena_need_each in *. lia.
Qed.

Lemma bps_clear_frame_ok image off need l :
  SpecX.bps_clear image off need l -> SpecX.bps_frame_ok image need l.
Proof.
  intros (H1 & _ & H3). split; [|exact H3].
  intros r Hr. destruct (H1 r Hr) as (A & B & _). auto.
Qed.

Section Wire.

Variable kd kb : Z -> Z -> option (list byte).
Variables (image : list byte) (off need : Z).
Hypothesis Hkb : SpecX.branch_fits kb.
Hypothesis Hoff : 0 <= off.
Hypothesis Hfit : off + need <= Py.len image.

Lemma bps_wired_step nm spec st st' :
  SpecX.bps_wired_inv kd kb image off st ->
  BPS.hook_step kd kb st (nm, spec) = Ok st' ->
  SpecX.bps_clear image off need (BPS.hook_records st') ->
  SpecX.bps_wired_inv kd kb image off st'.
Proof.
  intros [Hfr Hw] Hstep Hclear.
  split.
  { apply (bps_frame_step kd kb image off need Hkb Hoff Hfit nm spec st st');
      [assumption | assumption | exact (bps_clear_frame_ok image off need _ Hclear)]. }
  destruct (bps_step_shape kd kb nm spec st st' Hstep)
    as [-> | (site & tramp & d & Hres & Ht & Hd & ->)]; [exact Hw|].
  destruct Hfr as (Ilen & Icur & Iout).
  destruct Hclear as (Hrows & Hpair & Hslots).
  cbn [BPS.hook_records BPS.mod_ BPS.arena_cur] in *.
  set (new := {| BPS.name := nm; BPS.site_off := site;
                 BPS.tramp_off := BPS.arena_cur st;
                 BPS.resume_off := site + 10; BPS.stolen_len := 10 |}) in *.
  assert (Hnew : In new (BPS.hook_records st ++ [new]))
    by (apply in_or_app; right; now left).
  destruct (Hrows new Hnew) as (Hs0 & Hs1 & Hsar).
  cbn [BPS.site_off new] in Hs0, Hs1, Hsar.
  rewrite map_app in Hpair. simpl in Hpair.
  pose proof (pairwise_apart_snoc _ _ _ Hpair) as Hapart.
  destruct (build_tramp_full kb st site tramp Hs0 ltac:(lia) Ht) as (enc & Henc & ->).
  pose proof (Hkb _ _ _ Henc) as Hel. pose proof (len_nonneg enc) as He0.
  pose proof (detour_len kd _ _ _ Hd) as Hdl.
  set (stolen := Py.slice (BPS.mod_ st) site (site + 10)) in *.
  assert (Hst : Py.len stolen = 10).
  { subst stolen. rewrite slice_len_in; lia. }
  set (tramp := stolen ++ BPS.NOP16 ++ enc) in *.
  assert (Htr : Py.len tramp = 12 + Py.len enc).
  { subst tramp. rewrite !len_app, Hst. change (Py.len BPS.NOP16) with 2. lia. }
  rewrite len_app in Hslots. change (Py.len [new]) with 1 in Hslots.
  pose proof (len_nonneg (BPS.hook_records st)) as Hnr.
  unfold BPS.arena_need_each in *.
  replace (site + 10) with (site + Py.len d) by lia.
  destruct (two_writes (BPS.mod_ st) tramp d (BPS.arena_cur st) site)
    as (Hlen2 & Hbytes); [lia | lia | lia | lia |].
  set (m2 := Py.slice_assign
               (Py.slice_assign (BPS.mod_ st) (BPS.arena_cur st)
                  (BPS.arena_cur st + Py.len tramp) tramp)
               site (site + Py.len d) d) in *.
  rewrite Hdl, Htr in Hbytes.
  assert (Hold : forall r, In r (BPS.hook_records st) ->
            BPS.site_off r + 10 <= site \/ site + 10 <= BPS.site_off r).
  { intros r Hr. apply (Hapart (BPS.site_off r)). now apply in_map. }
  (* the stolen bytes are those of the image *)
  assert (Horig : stolen = Py.slice image site (site + 10)).
  { subst stolen. apply (slice_ext _ _ _ _ 10 x00); try lia.
    intros k Hk. apply Iout; [lia | |].
    - intros r Hr. destruct (Hw r Hr) as (A & B & _). lia.
    - intros r Hr. specialize (Hold r Hr). lia. }
  (* bytes of the new trampoline *)
  assert (Htb : forall k, 0 <= k < 12 + Py.len enc ->
            Spec.byte_at m2 (BPS.arena_cur st + k) = Spec.byte_at tramp k).
  { intros k Hk. rewrite Hbytes by lia.
    destruct (Z.leb_spec site (BPS.arena_cur st + k)),
             (Z.ltb_spec (BPS.arena_cur st + k) (site + 10)); simpl;
      try (exfalso; lia);
      (destruct (Z.leb_spec (BPS.arena_cur st) (BPS.arena_cur st + k)),
                (Z.ltb_spec (BPS.arena_cur st + k)
                            (BPS.arena_cur st + (12 + Py.len enc))); simpl;
       try (exfalso; lia); f_equal; lia). }
  intros r Hr. apply in_app_or in Hr as [Hr | [<- | []]].
  - destruct (Hw r Hr) as (T1 & T2 & W1 & W2 & (e & We & W3) & (d' & Wd & W4)).
    destruct (Hrows r (in_or_app _ _ _ (or_introl Hr))) as (Hr0 & Hr1 & Hrar).
    specialize (Hold r Hr). pose proof (Hkb _ _ _ We) as Hel'.
    pose proof (len_nonneg e) as He'.
    assert (Hsame : forall p, BPS.tramp_off r <= p < BPS.tramp_off r + 64 \/
                              BPS.site_off r <= p < BPS.site_off r + 10 ->
                      Spec.byte_at m2 p = Spec.byte_at (BPS.mod_ st) p).
    { intros p Hp. rewrite Hbytes by lia.
      destruct (Z.leb_spec site p), (Z.ltb_spec p (site + 10)); simpl;
        try (exfalso; lia);
        (destruct (Z.leb_spec (BPS.arena_cur st) p),
                  (Z.ltb_spec p (BPS.arena_cur st + (12 + Py.len enc))); simpl;
         try (exfalso; lia); reflexivity). }
    split; [exact T1|]. split; [lia|].
    unfold SpecX.bps_wired. split; [|split; [|split]].
    + rewrite <- W1. apply (slice_ext _ _ _ _ 10 x00); try lia.
      intros k Hk. apply Hsame. lia.
    + rewrite <- W2.
      replace (BPS.tramp_off r + 12) with (BPS.tramp_off r + 10 + 2) by lia.
      apply (slice_ext _ _ _ _ 2 x00); try lia.
      intros k Hk. apply Hsame. lia.
    + exists e. split; [exact We|]. rewrite <- W3 at 2.
      apply (slice_ext _ _ _ _ (Py.len e) x00); try lia.
      intros k Hk. apply Hsame. lia.
    + exists d'. split; [exact Wd|]. rewrite <- W4.
      apply (slice_ext _ _ _ _ 10 x00); try lia.
      intros k Hk. apply Hsame. lia.
  - cbn [BPS.tramp_off BPS.site_off new].
    split; [lia|]. split; [lia|].
    unfold SpecX.bps_wired. cbn [BPS.tramp_off BPS.site_off new].
    split; [|split; [|split]].
    + rewrite <- Horig. rewrite <- Hst at 1. apply slice_is; [lia | lia |].
      rewrite Hst. intros k Hk. rewrite Htb by lia.
      unfold Spec.byte_at, tramp. apply app_nth1. unfold Py.len in Hst. lia.
    + replace (BPS.arena_cur st + 12)
        with (BPS.arena_cur st + 10 + Py.len BPS.NOP16)
        by (change (Py.len BPS.NOP16) with 2; lia).
      apply slice_is; [lia | change (Py.len BPS.NOP16) with 2; lia |].
      change (Py.len BPS.NOP16) with 2. intros k Hk.
      replace (BPS.arena_cur st + 10 + k) with (BPS.arena_cur st + (10 + k)) by lia.
      rewrite Htb by lia. unfold Spec.byte_at, tramp.
      rewrite app_nth2 by (unfold Py.len in Hst; lia).
      replace (Z.to_nat (10 + k) - length stolen)%nat with (Z.to_nat k)
        by (unfold Py.len in Hst; lia).
      apply app_nth1. simpl. lia.
    + exists enc. split; [exact Henc|].
      apply slice_is; [lia | lia |].
      intros k Hk.
      replace (BPS.arena_cur st + 12 + k) with (BPS.arena_cur st + (12 + k)) by lia.
      rewrite Htb by lia. unfold Spec.byte_at, tramp.
      rewrite app_nth2 by (unfold Py.len in Hst; lia).
      rewrite app_nth2 by (unfold Py.len in Hst; simpl; lia).
      f_equal. unfold Py.len in Hst. simpl. lia.
    + exists d. split; [exact Hd|].
      rewrite <- Hdl. apply slice_is; [lia | lia |].
      rewrite Hdl. intros k Hk. rewrite Hbytes by lia.
      destruct (Z.leb_spec site (site + k)), (Z.ltb_spec (site + k) (site + 10));
        simpl; try (exfalso; lia). f_equal. lia.
Qed.

End Wire.

End BpsWire.

(* ===================================================================== *)
(** * Part IX-d: the pattern parsers                                       *)
(* ===================================================================== *)

Module ParseFacts.

Import PyFacts ScanFacts TokenFacts.

Lemma hex_nibble_some c h :
  Inline._hex_nibble c = Ok (Some h) -> Py.hex_digit c = Some h /\ Ascii.eqb c "?" = false.
Proof.
  unfold Inline._hex_nibble. destruct (Ascii.eqb c "?"); [discriminate|].
  destruct (Py.hex_digit c); [|discriminate]. intros E. injection E as <-. auto.
Qed.

Lemma hex_nibble_none c :
  Inline._hex_nibble c = Ok None -> c = "?"%char.
Proof.
  unfold Inline._hex_nibble. destruct (Ascii.eqb_spec c "?"); [auto|].
  destruct (Py.hex_digit c); discriminate.
Qed.

Lemma hex_nibble_ok c :
  (exists r, Inline._hex_nibble c = Ok r) <-> SpecX.nibble_char c = true.
Proof.
  unfold Inline._hex_nibble, SpecX.nibble_char.
  destruct (Ascii.eqb c "?"); simpl; [split; eauto|].
  destruct (Py.hex_digit c); split; eauto; try discriminate.
  intros [r H]. discriminate.
Qed.

Lemma hex_nibble_fatal c e : Inline._hex_nibble c = Fatal e -> e = ValueError.
Proof.
  unfold Inline._hex_nibble. destruct (Ascii.eqb c "?"); [discriminate|].
  destruct (Py.hex_digit c); [discriminate|]. intros E. now injection E as <-.
Qed.

(** The sixteen values of a digit. *)
Lemma digit_cases h :
  0 <= h < 16 ->
  In h [0; 1; 2; 3; 4; 5; 6; 7; 8; 9; 10; 11; 12; 13; 14; 15].
Proof.
  intros H. simpl.
  assert (h = 0 \/ h = 1 \/ h = 2 \/ h = 3 \/ h = 4 \/ h = 5 \/ h = 6 \/ h = 7 \/
          h = 8 \/ h = 9 \/ h = 10 \/ h = 11 \/ h = 12 \/ h = 13 \/ h = 14 \/
          h = 15) by lia.
  intuition auto.
Qed.

Ltac each_digit H :=
  apply hex_digit_range, digit_cases in H; simpl in H;
  repeat (destruct H as [H|H]; [subst|]); [..|destruct H].

(** One token of [make_inline.py]: the mask is one of the four nibble
    masks and the value has no bit outside it. *)
Lemma inline_token_shape t v m :
  Inline.token_bytes t = Ok (v, m) ->
  SpecX.nibble_mask m /\ Py.band v m = Py.b2z v.
Proof.
  unfold Inline.token_bytes, Inline._parse_token, SpecX.nibble_mask.
  destruct (Py.strip t) as [|c0 [|c1 [|c2 r]]]; try discriminate.
  destruct (Inline._hex_nibble c0) as [[h|]|e] eqn:E0; simpl; [| |discriminate];
    (destruct (Inline._hex_nibble c1) as [[l|]|e1] eqn:E1; simpl; [| |discriminate]).
  - apply hex_nibble_some in E0 as [E0 _]. apply hex_nibble_some in E1 as [E1 _].
    each_digit E0; each_digit E1; intros E; injection E as <- <-;
      (split; [tauto | reflexivity]).
  - apply hex_nibble_some in E0 as [E0 _].
    each_digit E0; intros E; injection E as <- <-; (split; [tauto | reflexivity]).
  - apply hex_nibble_some in E1 as [E1 _].
    each_digit E1; intros E; injection E as <- <-; (split; [tauto | reflexivity]).
  - intros E; injection E as <- <-; (split; [tauto | reflexivity]).
Qed.

(** [token_bytes] fails with ValueError only, and exactly on the tokens
    that are not two nibble characters. *)
Lemma inline_token_total t :
  SpecX.two_nibbles t = true -> exists vm, Inline.token_bytes t = Ok vm.
Proof.
  unfold SpecX.two_nibbles, Inline.token_bytes, Inline._parse_token.
  destruct (Py.strip t) as [|c0 [|c1 [|c2 r]]]; try discriminate.
  rewrite andb_true_iff. intros [H0 H1].
  apply hex_nibble_ok in H0 as [[h|] H0]; apply hex_nibble_ok in H1 as [[l|] H1];
    rewrite H0, H1; simpl.
  - apply hex_nibble_some in H0 as [E0 _]. apply hex_nibble_some in H1 as [E1 _].
    each_digit E0; each_digit E1; eexists; reflexivity.
  - apply hex_nibble_some in H0 as [E0 _].
    each_digit E0; eexists; reflexivity.
  - apply hex_nibble_some in H1 as [E1 _].
    each_digit E1; eexists; reflexivity.
  - eexists; reflexivity.
Qed.

Lemma inline_token_fatal t :
  SpecX.two_nibbles t = false -> Inline.token_bytes t = Fatal ValueError.
Proof.
  unfold SpecX.two_nibbles, Inline.token_bytes, Inline._parse_token.
  destruct (Py.strip t) as [|c0 [|c1 [|c2 r]]]; try reflexivity.
  rewrite andb_false_iff.
  destruct (Inline._hex_nibble c0) as [r0|e0] eqn:E0; simpl.
  - destruct (Inline._hex_nibble c1) as [r1|e1] eqn:E1; simpl.
    + intros [H|H]; exfalso.
      * assert (Hx : SpecX.nibble_char c0 = true) by (apply hex_nibble_ok; eauto).
        congruence.
      * assert (Hx : SpecX.nibble_char c1 = true) by (apply hex_nibble_ok; eauto).
        congruence.
    + intros _. now rewrite (hex_nibble_fatal _ _ E1).
  - intros _. now rewrite (hex_nibble_fatal _ _ E0).
Qed.

Lemma omap_fatal {A B} (f : A -> outcome B) (l : list A) e :
  (forall x, In x l -> (exists y, f x = Ok y) \/ f x = Fatal e) ->
  (exists x, In x l /\ f x = Fatal e) ->
  omap f l = Fatal e.
Proof.
  induction l as [|x l IH]; intros Hall [z [Hz Hf]]; [destruct Hz|].
  simpl. destruct (Hall x (or_introl eq_refl)) as [[y Hy]|Hx].
  - rewrite Hy. simpl. destruct Hz as [->|Hz]; [congruence|].
    rewrite IH; [reflexivity | intros w Hw; apply Hall; now right | eauto].
  - now rewrite Hx.
Qed.

(** A string with a token that is not two nibble characters is rejected. *)
Lemma inline_parse_fatal s :
  forallb SpecX.two_nibbles (Inline.tokens s) = false ->
  Inline.aob_to_pat_mask s = Fatal ValueError.
Proof.
  intros H. unfold Inline.aob_to_pat_mask.
  rewrite (omap_fatal Inline.token_bytes (Inline.tokens s) ValueError);
    [reflexivity | |].
  - intros t _. destruct (SpecX.two_nibbles t) eqn:Et.
    + left. now apply inline_token_total.
    + right. now apply inline_token_fatal.
  - assert (Hex : existsb (fun t => negb (SpecX.two_nibbles t)) (Inline.tokens s)
                  = true).
    { clear - H. induction (Inline.tokens s) as [|t l IH]; simpl in *; [discriminate|].
      destruct (SpecX.two_nibbles t); simpl in *; auto. }
    apply existsb_exists in Hex as (t & Ht & Hn).
    exists t. split; [exact Ht|]. apply inline_token_fatal.
    now destruct (SpecX.two_nibbles t).
Qed.

End ParseFacts.

(** ** Agreement of the two parsers *)

Module AgreeFacts.

Import PyFacts ScanFacts TokenFacts ParseFacts.

(** ** Whitespace at the ends of a string *)

Lemma lstrip_decompose s :
  exists w, forallb Py.isspace w = true /\ s = w ++ Py.lstrip s.
Proof.
  induction s as [|c s (w & Hw & IH)]; simpl.
  - now exists [].
  - destruct (Py.isspace c) eqn:Ec.
    + exists (c :: w). simpl. rewrite Ec, Hw. split; [reflexivity | now f_equal].
    + now exists [].
Qed.

Lemma forallb_rev {A} (f : A -> bool) l : forallb f (rev l) = forallb f l.
Proof.
  induction l as [|a l IH]; simpl; [reflexivity|].
  rewrite forallb_app, IH. simpl. rewrite andb_true_r. apply andb_comm.
Qed.

Lemma strip_decompose s :
  exists w1 w2, forallb Py.isspace w1 = true /\ forallb Py.isspace w2 = true /\
                s = w1 ++ Py.strip s ++ w2.
Proof.
  destruct (lstrip_decompose s) as (w1 & H1 & E1).
  destruct (lstrip_decompose (rev (Py.lstrip s))) as (w2 & H2 & E2).
  exists w1, (rev w2). split; [exact H1|]. split; [now rewrite forallb_rev|].
  unfold Py.strip. rewrite <- rev_app_distr, <- E2, rev_involutive. exact E1.
Qed.

(** ** [str.split()] *)

Lemma split_ws_aux_sep a sp b cur :
  Py.isspace sp = true ->
  Py.split_ws_aux (a ++ sp :: b) cur = Py.split_ws_aux a cur ++ Py.split_ws b.
Proof.
  intros Hsp. revert cur. induction a as [|c a IH]; intros cur; simpl.
  - rewrite Hsp. destruct cur; reflexivity.
  - destruct (Py.isspace c).
    + destruct cur; [apply IH | simpl; f_equal; apply IH].
    + apply IH.
Qed.

Lemma split_ws_aux_trail w cur :
  forallb Py.isspace w = true ->
  Py.split_ws_aux w cur = match cur with [] => [] | _ => [rev cur] end.
Proof.
  revert cur. induction w as [|c w IH]; intros cur H; simpl in *; [reflexivity|].
  apply andb_true_iff in H as [Hc Hw]. rewrite Hc.
  destruct cur; rewrite IH by assumption; reflexivity.
Qed.

Lemma split_ws_aux_app_trail x w cur :
  forallb Py.isspace w = true ->
  Py.split_ws_aux (x ++ w) cur = Py.split_ws_aux x cur.
Proof.
  intros Hw. revert cur. induction x as [|c x IH]; intros cur; simpl.
  - now apply split_ws_aux_trail.
  - destruct (Py.isspace c); [destruct cur|]; rewrite ?IH; reflexivity.
Qed.

Lemma split_ws_lead w x :
  forallb Py.isspace w = true -> Py.split_ws (w ++ x) = Py.split_ws x.
Proof.
  unfold Py.split_ws. induction w as [|c w IH]; intros H; simpl in *; [reflexivity|].
  apply andb_true_iff in H as [Hc Hw]. rewrite Hc. now apply IH.
Qed.

Lemma split_ws_strip s : Py.split_ws (Py.strip s) = Py.split_ws s.
Proof.
  destruct (strip_decompose s) as (w1 & w2 & H1 & H2 & E).
  rewrite E at 2. rewrite split_ws_lead by assumption.
  unfold Py.split_ws. now rewrite split_ws_aux_app_trail.
Qed.

(** Replacing tabs by spaces does not change the fields. *)
Lemma split_ws_aux_tab s cur :
  Py.split_ws_aux
    (map (fun c => if Ascii.eqb c "009"%char then " "%char else c) s) cur
  = Py.split_ws_aux s cur.
Proof.
  revert cur. induction s as [|c s IH]; intros cur; simpl; [reflexivity|].
  destruct (Ascii.eqb_spec c "009"%char) as [->|Hc].
  - change (Py.isspace " ") with true. change (Py.isspace "009") with true.
    destruct cur; rewrite IH; reflexivity.
  - destruct (Py.isspace c); [destruct cur|]; rewrite IH; reflexivity.
Qed.

(** ** [str.split(" ")] *)

Lemma split_on_nonempty sep s : Py.split_on sep s <> [].
Proof.
  destruct s as [|c s]; simpl; [discriminate|].
  destruct (Ascii.eqb c sep); [discriminate|].
  destruct (Py.split_on sep s); discriminate.
Qed.

(** The fields of a string are the fields of its space-separated pieces. *)
Lemma split_ws_pieces s cur :
  match Py.split_on " "%char s with
  | p :: ps =>
      Py.split_ws_aux s cur = Py.split_ws_aux p cur ++ concat (map Py.split_ws ps)
  | [] => False
  end.
Proof.
  revert cur. induction s as [|c s IH]; intros cur; simpl.
  - now rewrite app_nil_r.
  - destruct (Ascii.eqb_spec c " "%char) as [->|Hc].
    + change (Py.isspace " ") with true. simpl.
      specialize (IH []). destruct (Py.split_on " " s) as [|p ps]; [destruct IH|].
      simpl. unfold Py.split_ws at 1. rewrite <- IH. destruct cur; reflexivity.
    + destruct (Py.split_on " " s) as [|p ps] eqn:Es.
      { exfalso. exact (split_on_nonempty _ _ Es). }
      simpl. destruct (Py.isspace c).
      * destruct cur; rewrite (IH []); reflexivity.
      * apply IH.
Qed.

(** A piece that strips to two characters that are not whitespace is one
    field. *)
Lemma split_ws_two p c0 c1 :
  Py.strip p = [c0; c1] -> Py.isspace c0 = false -> Py.isspace c1 = false ->
  Py.split_ws p = [[c0; c1]].
Proof.
  intros Hs H0 H1. rewrite <- split_ws_strip, Hs.
  unfold Py.split_ws. simpl. now rewrite H0, H1.
Qed.

Lemma nibble_char_nospace c : SpecX.nibble_char c = true -> Py.isspace c = false.
Proof.
  destruct c as [[] [] [] [] [] [] [] []]; vm_compute; congruence.
Qed.

Lemma strip_nil_split p : Py.strip p = [] -> Py.split_ws p = [].
Proof.
  intros H. rewrite <- split_ws_strip, H. reflexivity.
Qed.

(** When every token of [make_inline.py] is two nibble characters, the
    tokens of [make_bps.py] are the same tokens, stripped. *)
Lemma tokens_agree s :
  forallb SpecX.two_nibbles (Inline.tokens s) = true ->
  BPS.tokens s = map Py.strip (Inline.tokens s).
Proof.
  unfold BPS.tokens, Inline.tokens. rewrite split_ws_strip.
  set (s' := map _ (list_ascii_of_string s)).
  assert (E : Py.split_ws (list_ascii_of_string s) = Py.split_ws s')
    by (unfold Py.split_ws, s'; now rewrite split_ws_aux_tab).
  rewrite E. clear E.
  pose proof (split_ws_pieces s' []) as Hp.
  destruct (Py.split_on " " s') as [|p ps]; [destruct Hp|].
  change (Py.split_ws_aux s' []) with (Py.split_ws s') in Hp.
  change (Py.split_ws_aux p []) with (Py.split_ws p) in Hp.
  rewrite Hp. change (Py.split_ws p ++ concat (map Py.split_ws ps))
    with (concat (map Py.split_ws (p :: ps))).
  generalize (p :: ps). clear. intros l H.
  induction l as [|t l IH]; simpl in *; [reflexivity|].
  destruct t as [|c t]; simpl in *; [exact (IH H)|].
  apply andb_true_iff in H as [Ht Hl]. rewrite (IH Hl).
  unfold SpecX.two_nibbles in Ht.
  destruct (Py.strip (c :: t)) as [|c0 [|c1 [|c2 r]]] eqn:Es; try discriminate.
  apply andb_true_iff in Ht as [H0 H1].
  rewrite (split_ws_two (c :: t) c0 c1 Es) by now apply nibble_char_nospace.
  reflexivity.
Qed.

(** ** One token in both scripts *)

Lemma token_agree t v m :
  Inline.token_bytes t = Ok (v, m) -> m = x00 \/ m = xff ->
  BPS.token_bytes (Py.strip t) = Ok (v, m).
Proof.
  unfold Inline.token_bytes, Inline._parse_token, BPS.token_bytes.
  destruct (Py.strip t) as [|c0 [|c1 [|c2 r]]]; try discriminate.
  destruct (Inline._hex_nibble c0) as [[h|]|e] eqn:E0; simpl; [| |discriminate];
    (destruct (Inline._hex_nibble c1) as [[l|]|e1] eqn:E1; simpl; [| |discriminate]).
  - apply hex_nibble_some in E0 as [E0 _]. apply hex_nibble_some in E1 as [E1 _].
    apply hex_digit_table in E0. apply hex_digit_table in E1.
    each_hex E0; each_hex E1; intros E _; injection E as <- <-; reflexivity.
  - apply hex_nibble_some in E0 as [E0 _]. apply hex_digit_table in E0.
    each_hex E0; intros E Hm; injection E as <- <-;
      destruct Hm; discriminate.
  - apply hex_nibble_some in E1 as [E1 _]. apply hex_digit_table in E1.
    each_hex E1; intros E Hm; injection E as <- <-;
      destruct Hm; discriminate.
  - apply hex_nibble_none in E0. apply hex_nibble_none in E1. subst.
    intros E _. injection E as <- <-. reflexivity.
Qed.

End AgreeFacts.

(** ** Blank patterns *)

Module BlankFacts.

Import PyFacts ScanFacts AgreeFacts.

Lemma find_first_zero (f : Z -> bool) (n : Z) :
  0 <= n -> f 0 = true ->
  match find f (Py.range 0 (n + 1)) with Some i => i | None => -1 end = 0.
Proof.
  intros Hn Hf. pose proof (find_range f 0 (n + 1)) as H.
  destruct (find f (Py.range 0 (n + 1))) as [i|].
  - destruct H as (Hr & _ & Hlow). destruct (Z.eq_dec i 0) as [|Hne]; [assumption|].
    rewrite Hlow in Hf by lia. discriminate.
  - rewrite H in Hf by lia. discriminate.
Qed.

(** The empty pattern is found at offset 0 of every buffer. *)
Lemma inline_scan_empty buf : Inline.scan buf [] [] = 0.
Proof.
  unfold Inline.scan. cbv zeta. change (Py.len (@nil byte)) with 0.
  rewrite Z.sub_0_r. apply find_first_zero; [apply len_nonneg|].
  unfold Inline.window_ok. now destruct (Py.slice buf 0 (0 + 0)).
Qed.

Lemma bps_scan_empty buf : BPS.scan_aob buf [] [] = 0.
Proof.
  unfold BPS.scan_aob. cbv zeta. change (Py.len (@nil byte)) with 0.
  rewrite Z.sub_0_r. apply find_first_zero; [apply len_nonneg|].
  unfold BPS.window_ok. now destruct (Py.slice buf 0 (0 + 0)).
Qed.

(** A string of spaces and tabs has no token in either script. *)
Lemma blank_pieces l :
  Forall (fun c => c = " "%char \/ c = "009"%char) l ->
  Forall (fun p => p = []) 
    (Py.split_on " "%char
       (map (fun c => if Ascii.eqb c "009"%char then " "%char else c) l)).
Proof.
  induction 1 as [|c l Hc _ IH]; simpl.
  - repeat constructor.
  - destruct Hc as [-> | ->]; simpl; constructor; auto.
Qed.

Lemma inline_blank_tokens s :
  Forall (fun c => c = " "%char \/ c = "009"%char) (list_ascii_of_string s) ->
  Inline.tokens s = [].
Proof.
  intros H. unfold Inline.tokens. apply blank_pieces in H.
  induction H as [|p ps -> _ IH]; simpl; auto.
Qed.

Lemma bps_blank_tokens s :
  forallb Py.isspace (list_ascii_of_string s) = true -> BPS.tokens s = [].
Proof.
  intros H. unfold BPS.tokens. rewrite split_ws_strip.
  unfold Py.split_ws. now rewrite split_ws_aux_trail.
Qed.

Lemma truthy_nonempty s : s <> ""%string -> Py.truthy (Some s) = Some s.
Proof.
  destruct s; [congruence | reflexivity].
Qed.

End BlankFacts.

(** ** The guard columns *)

Module HeaderFacts.

Import PyFacts ScanFacts EmitFacts.

Lemma slice_empty {A} (l : list A) (a : Z) : Py.slice l a (a + 0) = [].
Proof.
  unfold Py.slice. cbv zeta. rewrite Z.add_0_r, Z.sub_diag. reflexivity.
Qed.

(** The snapshot is the slice of the original image that starts at the site
    and is as long as the guard pattern. *)
Lemma guard_snapshot_slice image spec site g :
  Inline.guard_snapshot (Spec.inline_pristine image) spec site = Ok g ->
  snd g = Py.slice image site (site + fst g).
Proof.
  unfold Inline.guard_snapshot.
  destruct (Py.truthy (guard spec)) as [s|].
  - destruct (Inline.aob_to_pat_mask s) as [gpm|e]; simpl; [|discriminate].
    intros E. injection E as <-. reflexivity.
  - intros E. injection E as <-. simpl. now rewrite slice_empty.
Qed.

Lemma inline_sites_snapshot image hooks nm site g glen :
  In (nm, (site, g, glen)) (Spec.inline_sites image hooks) ->
  g = Py.slice image site (site + glen).
Proof.
  unfold Spec.inline_sites. rewrite in_flat_map.
  intros ([nm' spec] & _ & Hin). simpl in Hin.
  apply in_map_iff in Hin as (x & Hx & Hin). injection Hx as <- ->.
  apply in_flat_map in Hin as (a & _ & Hin).
  unfold Spec.inline_site in Hin.
  destruct (Inline.resolve _ spec a) as [[s|]|e]; try destruct Hin.
  destruct (Inline.guard_snapshot _ spec s) as [g'|e] eqn:Eg; [|destruct Hin].
  destruct Hin as [Hin|[]]. injection Hin as <- <- <-.
  exact (guard_snapshot_slice image spec s g' Eg).
Qed.

(** Every site of [inline_sites] comes from a hook of the set, and its
    snapshot is what [guard_snapshot] returns for that hook. *)
Lemma inline_sites_hook image hooks nm site g glen :
  In (nm, (site, g, glen)) (Spec.inline_sites image hooks) ->
  exists spec, In (nm, spec) hooks /\
    Inline.guard_snapshot (Spec.inline_pristine image) spec site = Ok (glen, g).
Proof.
  unfold Spec.inline_sites. rewrite in_flat_map.
  intros ([nm' spec] & Hh & Hin). simpl in Hin.
  apply in_map_iff in Hin as (x & Hx & Hin). injection Hx as <- ->.
  apply in_flat_map in Hin as (a & _ & Hin).
  unfold Spec.inline_site in Hin.
  destruct (Inline.resolve _ spec a) as [[s|]|e]; try destruct Hin.
  destruct (Inline.guard_snapshot _ spec s) as [[gl gb]|e] eqn:Eg; [|destruct Hin].
  destruct Hin as [Hin|[]]. simpl in Hin. injection Hin as <- <- <-.
  exists spec. split; [exact Hh | exact Eg].
Qed.

(** The pattern returned by the parser has one byte per token. *)
Lemma inline_parse_tokens s pat msk :
  Inline.aob_to_pat_mask s = Ok (pat, msk) ->
  Py.len pat = Py.len (Inline.tokens s).
Proof.
  unfold Inline.aob_to_pat_mask.
  destruct (omap _ _) as [vms|e] eqn:Em; simpl; [|discriminate].
  intros E. injection E as <- _. apply omap_ok in Em.
  unfold Py.len. rewrite length_map. now rewrite (Forall2_length _ _ _ Em).
Qed.

(** The length [guard_snapshot] returns is the number of tokens of the
    guard string, and 0 without a guard. *)
Lemma guard_snapshot_len stt spec site glen g :
  Inline.guard_snapshot stt spec site = Ok (glen, g) ->
  match Py.truthy (guard spec) with
  | Some gs => glen = Py.len (Inline.tokens gs)
  | None => glen = 0
  end.
Proof.
  unfold Inline.guard_snapshot.
  destruct (Py.truthy (guard spec)) as [gs|].
  - destruct (Inline.aob_to_pat_mask gs) as [[gp gm]|e] eqn:Ep; simpl; [|discriminate].
    intros E. injection E as <- _. exact (inline_parse_tokens gs gp gm Ep).
  - intros E. injection E as <- _. reflexivity.
Qed.

Lemma slice_front {A} (l : list A) (b : Z) :
  0 <= b -> Py.slice l 0 b = firstn (Z.to_nat b) l.
Proof.
  intros Hb. unfold Py.slice, Py.index, Py.len. cbv zeta.
  destruct (Z.ltb_spec 0 0); [lia|].
  destruct (Z.ltb_spec b 0); [lia|].
  replace (Z.to_nat (Z.min 0 (Z.of_nat (length l)))) with 0%nat by lia.
  change (skipn 0 l) with l.
  destruct (Z.le_ge_cases b (Z.of_nat (length l))).
  - f_equal. lia.
  - replace (Z.to_nat (Z.min b (Z.of_nat (length l)) - Z.min 0 (Z.of_nat (length l))))
      with (length l) by lia.
    rewrite !firstn_all2 by lia. reflexivity.
Qed.

(** Byte [k] of the padded guard array. *)
Lemma pad_guard_nth g (k : nat) :
  (k < 8)%nat -> nth k (Inline.pad_guard g) x00 = nth k g x00.
Proof.
  intros Hk. rewrite pad_guard_spec, slice_front by lia.
  change (Z.to_nat 8) with 8%nat.
  destruct (Nat.lt_ge_cases k (length (firstn 8 g))) as [Hlt|Hge].
  - rewrite app_nth1 by assumption. rewrite nth_firstn.
    destruct (Nat.ltb_spec k 8); [reflexivity | lia].
  - rewrite app_nth2 by assumption. rewrite nth_repeat.
    rewrite length_firstn in Hge. symmetry. apply nth_overflow. lia.
Qed.

End HeaderFacts.

(* ===================================================================== *)
(** * Part IX-e: the chunked hash                                          *)
(* ===================================================================== *)

Module DigestFacts.

Import PyFacts.

Lemma slice_clip {A} (l : list A) (a b : Z) :
  0 <= a -> a <= Py.len l -> Py.len l <= b ->
  Py.slice l a b = skipn (Z.to_nat a) l.
Proof.
  intros Ha Hal Hb. unfold Py.slice, Py.index, Py.len in *. cbv zeta.
  destruct (Z.ltb_spec a 0); [lia|]. destruct (Z.ltb_spec b 0); [lia|].
  replace (Z.to_nat (Z.min a (Z.of_nat (length l)))) with (Z.to_nat a) by lia.
  apply firstn_all2. rewrite length_skipn. lia.
Qed.

Section Feed.

Variable hstate : Type.
Variable h_update : hstate -> list byte -> hstate.

(** From any position inside the file, with more fuel than bytes left, the
    loop ends, having fed chunks that make up the rest of the file. *)
Lemma feed_rest content (fuel : nat) (pos : Z) h :
  0 <= pos <= Py.len content ->
  Py.len content - pos < Z.of_nat fuel ->
  exists chunks,
    Digest.feed hstate h_update fuel content pos h
    = Some (fold_left h_update chunks h) /\
    concat chunks = skipn (Z.to_nat pos) content /\
    Forall (fun c => 1 <= Py.len c <= Digest.CHUNK) chunks.
Proof.
  revert pos h. induction fuel as [|fuel IH]; intros pos h Hpos Hfuel; [lia|].
  simpl. unfold Digest.read. cbv zeta.
  assert (HC : Digest.CHUNK = 1048576) by reflexivity.
  destruct (Z.eq_dec pos (Py.len content)) as [Hend|Hmore].
  - rewrite slice_clip by lia. rewrite skipn_all2 by (unfold Py.len in *; lia).
    exists []. simpl. repeat split; constructor.
  - set (chunk := Py.slice content pos (pos + Digest.CHUNK)).
    assert (Hchunk : chunk = firstn (Z.to_nat Digest.CHUNK)
                               (skipn (Z.to_nat pos) content)).
    { subst chunk. destruct (Z.le_ge_cases (pos + Digest.CHUNK) (Py.len content)).
      - rewrite slice_in by lia. f_equal. lia.
      - rewrite slice_clip by lia. symmetry. apply firstn_all2.
        rewrite length_skipn. unfold Py.len in *. lia. }
    assert (Hlen : Py.len chunk = Z.min Digest.CHUNK (Py.len content - pos)).
    { rewrite Hchunk. unfold Py.len in *. rewrite length_firstn, length_skipn. lia. }
    destruct chunk as [|b chunk'] eqn:Ec.
    { exfalso. change (Py.len (@nil byte)) with 0 in Hlen. lia. }
    rewrite <- Ec in *. clear Ec b chunk'.
    destruct (IH (pos + Py.len chunk) (h_update h chunk)) as (chunks & Hf & Hc & Hall);
      [lia | lia |].
    exists (chunk :: chunks). simpl. split; [exact Hf|]. split.
    + rewrite Hc, Hchunk. set (rest := skipn (Z.to_nat pos) content).
      replace (Z.to_nat (pos + Py.len (firstn (Z.to_nat Digest.CHUNK) rest)))
        with (length (firstn (Z.to_nat Digest.CHUNK) rest) + Z.to_nat pos)%nat
        by (unfold Py.len; lia).
      rewrite <- skipn_skipn. fold rest.
      destruct (Nat.le_ge_cases (Z.to_nat Digest.CHUNK) (length rest)) as [Hle|Hge].
      * rewrite firstn_length_le by assumption. apply firstn_skipn.
      * rewrite firstn_all2 by assumption. rewrite skipn_all. apply app_nil_r.
    + constructor; [lia | exact Hall].
Qed.

End Feed.

End DigestFacts.
Module NegFacts.

Import PyFacts LoopFacts BpsFacts.

(** Negative slice bounds count from the end. *)
Lemma slice_neg {A} (l : list A) (a b : Z) :
  - Py.len l <= a -> a <= b -> b < 0 ->
  Py.slice l a b = Py.slice l (Py.len l + a) (Py.len l + b).
Proof.
  intros Ha Hab Hb. unfold Py.slice, Py.index. cbv zeta.
  set (n := Py.len l) in *.
  destruct (Z.ltb_spec a 0); [|lia]. destruct (Z.ltb_spec b 0); [|lia].
  destruct (Z.ltb_spec (n + a) 0); [lia|]. destruct (Z.ltb_spec (n + b) 0); [lia|].
  replace (Z.max (a + n) 0) with (Z.min (n + a) n) by lia.
  replace (Z.max (b + n) 0) with (Z.min (n + b) n) by lia.
  reflexivity.
Qed.

Lemma slice_assign_neg {A} (l x : list A) (a b : Z) :
  - Py.len l <= a -> a <= b -> b < 0 ->
  Py.slice_assign l a b x = Py.slice_assign l (Py.len l + a) (Py.len l + b) x.
Proof.
  intros Ha Hab Hb. unfold Py.slice_assign, Py.index. cbv zeta.
  set (n := Py.len l) in *.
  destruct (Z.ltb_spec a 0); [|lia]. destruct (Z.ltb_spec b 0); [|lia].
  destruct (Z.ltb_spec (n + a) 0); [lia|]. destruct (Z.ltb_spec (n + b) 0); [lia|].
  replace (Z.max (a + n) 0) with (Z.min (n + a) n) by lia.
  replace (Z.max (b + n) 0) with (Z.min (n + b) n) by lia.
  reflexivity.
Qed.

End NegFacts.

(* ===================================================================== *)
(** * Part IX-f: the expected SHA-1                                        *)
(* ===================================================================== *)

Module ExpectedFacts.

Import PyFacts AgreeFacts.
Import SpecX (nonnil, nb).

(** ** Stripping *)

Lemma lstrip_space w : forallb Py.isspace w = true -> Py.lstrip w = [].
Proof.
  induction w as [|c w IH]; simpl; [reflexivity|].
  intros H. apply andb_true_iff in H as [Hc Hw]. rewrite Hc. auto.
Qed.

Lemma lstrip_lead w x :
  forallb Py.isspace w = true -> Py.lstrip (w ++ x) = Py.lstrip x.
Proof.
  induction w as [|c w IH]; simpl; [reflexivity|].
  intros H. apply andb_true_iff in H as [Hc Hw]. rewrite Hc. auto.
Qed.

Lemma lstrip_trail x w :
  forallb Py.isspace w = true ->
  Py.lstrip (x ++ w) = match Py.lstrip x with [] => [] | y => y ++ w end.
Proof.
  intros Hw. induction x as [|c x IH]; simpl.
  - now apply lstrip_space.
  - destruct (Py.isspace c); [exact IH | reflexivity].
Qed.

Lemma strip_lead w x :
  forallb Py.isspace w = true -> Py.strip (w ++ x) = Py.strip x.
Proof.
  intros H. unfold Py.strip. now rewrite lstrip_lead.
Qed.

Lemma strip_trail x w :
  forallb Py.isspace w = true -> Py.strip (x ++ w) = Py.strip x.
Proof.
  intros H. unfold Py.strip. rewrite lstrip_trail by assumption.
  destruct (Py.lstrip x) as [|c y]; [reflexivity|].
  rewrite rev_app_distr, lstrip_lead; [reflexivity|].
  now rewrite forallb_rev.
Qed.

Lemma strip_space w : forallb Py.isspace w = true -> Py.strip w = [].
Proof.
  intros H. unfold Py.strip. rewrite (lstrip_space w H). reflexivity.
Qed.

(** ** The stripped, non-blank lines *)

Lemma find_usable_nb lines :
  find Expected.usable (List.filter nonnil lines) = find Expected.usable lines.
Proof.
  induction lines as [|l lines IH]; simpl; [reflexivity|].
  destruct l as [|c l]; simpl; [exact IH|].
  destruct (negb (Ascii.eqb c "#")); [reflexivity | exact IH].
Qed.

Lemma linebreak_space c : Expected.is_linebreak c = true -> Py.isspace c = true.
Proof.
  destruct c as [[] [] [] [] [] [] [] []]; vm_compute; congruence.
Qed.

Lemma nb_end cur cr :
  nb [] cur cr = List.filter nonnil [Py.strip (rev cur)].
Proof.
  unfold nb. simpl. destruct cur; reflexivity.
Qed.

(** Whitespace at the start of the current line does not count. *)
Lemma nb_absorb s acc cur cr :
  forallb Py.isspace cur = true -> nb s (acc ++ cur) cr = nb s acc cr.
Proof.
  intros Hcur. revert acc cr. induction s as [|c r IH]; intros acc cr.
  - rewrite !nb_end, rev_app_distr, strip_lead; [reflexivity|].
    now rewrite forallb_rev.
  - unfold nb in *. simpl.
    destruct (cr && Ascii.eqb c "010"); [apply IH|].
    destruct (Expected.is_linebreak c).
    + simpl. rewrite rev_app_distr, strip_lead by (now rewrite forallb_rev).
      reflexivity.
    + apply (IH (c :: acc)).
Qed.

(** A line feed after a carriage return only ends a blank line. *)
Lemma nb_after_cr s : nb s [] true = nb s [] false.
Proof.
  destruct s as [|c r]; [reflexivity|].
  unfold nb. simpl. destruct (Ascii.eqb_spec c "010") as [->|Hc]; reflexivity.
Qed.

Lemma nb_lead_char c x :
  Py.isspace c = true -> nb (c :: x) [] false = nb x [] false.
Proof.
  intros Hc. unfold nb at 1. simpl.
  destruct (Expected.is_linebreak c).
  - simpl. fold (nb x [] (Ascii.eqb c "013")).
    destruct (Ascii.eqb c "013"); [apply nb_after_cr | reflexivity].
  - fold (nb x [c] false). apply (nb_absorb x [] [c]). simpl. now rewrite Hc.
Qed.

Lemma nb_lead w x :
  forallb Py.isspace w = true -> nb (w ++ x) [] false = nb x [] false.
Proof.
  induction w as [|c w IH]; simpl; [reflexivity|].
  intros H. apply andb_true_iff in H as [Hc Hw].
  rewrite nb_lead_char by assumption. auto.
Qed.

Lemma nb_space w cur cr :
  forallb Py.isspace w = true -> nb w cur cr = nb [] cur cr.
Proof.
  revert cur cr. induction w as [|c w IH]; intros cur cr H; [reflexivity|].
  simpl in H. apply andb_true_iff in H as [Hc Hw].
  unfold nb at 1. simpl.
  destruct (cr && Ascii.eqb c "010").
  - fold (nb w cur false). rewrite IH by assumption. now rewrite !nb_end.
  - destruct (Expected.is_linebreak c).
    + simpl. fold (nb w [] (Ascii.eqb c "013")). rewrite IH by assumption.
      rewrite !nb_end. simpl.
      destruct (nonnil (Py.strip (rev cur))); reflexivity.
    + fold (nb w (c :: cur) false). rewrite IH by assumption.
      rewrite !nb_end. simpl rev. rewrite strip_trail; [reflexivity|].
      simpl. now rewrite Hc.
Qed.

Lemma nb_trail x w cur cr :
  forallb Py.isspace w = true -> nb (x ++ w) cur cr = nb x cur cr.
Proof.
  intros Hw. revert cur cr. induction x as [|c x IH]; intros cur cr.
  - now apply nb_space.
  - unfold nb in *. simpl.
    destruct (cr && Ascii.eqb c "010"); [apply IH|].
    destruct (Expected.is_linebreak c); [simpl; now rewrite IH | apply IH].
Qed.

(** Stripping the text first does not change the line that is found. *)
Lemma first_usable_strip t :
  Expected.first_usable (Expected.splitlines (Py.strip t))
  = Expected.first_usable (Expected.splitlines t).
Proof.
  unfold Expected.first_usable, Expected.splitlines.
  rewrite <- (find_usable_nb (map Py.strip (Expected.splitlines_aux (Py.strip t) [] false))).
  rewrite <- (find_usable_nb (map Py.strip (Expected.splitlines_aux t [] false))).
  fold (nb (Py.strip t) [] false). fold (nb t [] false).
  destruct (strip_decompose t) as (w1 & w2 & H1 & H2 & E).
  rewrite E at 2. rewrite nb_lead by assumption. now rewrite nb_trail.
Qed.

Lemma lower_char_idem c :
  Expected.lower_char (Expected.lower_char c) = Expected.lower_char c.
Proof.
  destruct c as [[] [] [] [] [] [] [] []]; vm_compute; reflexivity.
Qed.

Lemma lower_idem s : Expected.lower (Expected.lower s) = Expected.lower s.
Proof.
  unfold Expected.lower. rewrite map_map. apply map_ext. apply lower_char_idem.
Qed.

Lemma first_usable_lower lines e :
  Expected.first_usable lines = Some e -> Expected.lower e = e.
Proof.
  unfold Expected.first_usable. destruct (find _ _) as [l|]; [|discriminate].
  intros E. injection E as <-. apply lower_idem.
Qed.

End ExpectedFacts.

(* ===================================================================== *)
(** * Part X: the claims                                                   *)
(* ===================================================================== *)

Import PyFacts ScanFacts SubstringFacts CaveFacts EmitFacts TokenFacts.

(** ** C5: the cave allocator *)

(** C5, the claim as stated fails in [make_bps.py]: on an image without
    any filler byte its run stops with "No suitable code cave found"; no
    region is appended. *)
Lemma C5_counterexample :
  (forall j, ~ Spec.filler_run Fixtures.image2 j
                 (BPS.arena_total [("h"%string, Fixtures.spec_addr 0)])) /\
  BPS.main_loop Fixtures.thumb_detour Fixtures.stub_bw Fixtures.image2
                [("h"%string, Fixtures.spec_addr 0)]
  = Fatal NoCodeCave.
Proof.
  split; [|reflexivity].
  destruct (bps_cave_spec Fixtures.image2
              (BPS.arena_total [("h"%string, Fixtures.spec_addr 0)]))
    as [[_ H] | [H _]].
  - unfold BPS.arena_total, BPS.arena_need_each. lia.
  - exact H.
  - assert (E : BPS.find_code_cave Fixtures.image2
                  (BPS.arena_total [("h"%string, Fixtures.spec_addr 0)]) None = -1)
      by reflexivity.
    rewrite E in H. destruct H as (H0 & _). lia.
Qed.

Lemma bps_no_cave_fatal kd kb image hooks :
  (forall j, ~ Spec.filler_run image j (BPS.arena_total hooks)) ->
  BPS.main_loop kd kb image hooks = Fatal NoCodeCave.
Proof.
  pose proof (arena_total_min hooks) as Hmin.
  intros Hno. unfold BPS.main_loop. cbv zeta.
  rewrite caves_agree by lia.
  apply inline_cave_neg in Hno; [|lia].
  destruct (Z.ltb_spec (Inline.find_code_cave image (BPS.arena_total hooks)) 0);
    [reflexivity | lia].
Qed.

(** C5 (amended). For every required byte count [need >= 1] (the scripts
    never ask for less than one slot), [find_code_cave] of [make_inline.py]
    returns the greatest offset at which [need] filler bytes (0x00 or 0xFF)
    start, that is the cave closest to the end of the image; when no offset
    has that many filler bytes it returns -1 and the allocator appends exactly
    [need] zero bytes to the image and returns the old length, which cannot
    fail. [find_code_cave] of [make_bps.py] returns the same offset, but when
    there is no cave its run stops with [NoCodeCave] instead of growing the
    image. *)
Theorem C5_cave_allocation :
  (forall buf need, 1 <= need ->
     (Spec.filler_run buf (Inline.find_code_cave buf need) need /\
      (forall j, Spec.filler_run buf j need -> j <= Inline.find_code_cave buf need) /\
      Inline.alloc_arena buf need = (buf, Inline.find_code_cave buf need))
     \/
     ((forall j, ~ Spec.filler_run buf j need) /\
      Inline.find_code_cave buf need = -1 /\
      Inline.alloc_arena buf need
      = (buf ++ repeat x00 (Z.to_nat need), Py.len buf)))
  /\
  (forall kd kb image hooks,
     BPS.find_code_cave image (BPS.arena_total hooks) None
     = Inline.find_code_cave image (BPS.arena_total hooks) /\
     ((forall j, ~ Spec.filler_run image j (BPS.arena_total hooks)) ->
      BPS.main_loop kd kb image hooks = Fatal NoCodeCave)).
Proof.
  split.
  - intros buf need Hneed. unfold Inline.alloc_arena.
    destruct (inline_cave_spec buf need Hneed) as [[E H] | [H Hmax]].
    + right. rewrite E. simpl. auto.
    + left. assert (H' := H). destruct H' as (H0 & _).
      destruct (Z.ltb_spec (Inline.find_code_cave buf need) 0); [lia|]. auto.
  - intros kd kb image hooks. pose proof (arena_total_min hooks) as Hmin.
    split; [apply caves_agree; lia | apply bps_no_cave_fatal].
Qed.

(** The amended C5 at a concrete input: 96 bytes asked of a 120-byte image
    that ends with 104 filler bytes. *)
Lemma C5_witness :
  Inline.alloc_arena Fixtures.image1 0x60 = (Fixtures.image1, 24).
Proof.
  destruct (proj1 C5_cave_allocation Fixtures.image1 0x60 ltac:(lia))
    as [(_ & _ & E) | (_ & E & _)].
  - exact E.
  - discriminate E.
Defined.

(** ** C6: pattern resolution *)

(** A token [make_bps.py] cannot convert raises ValueError. *)
Lemma bps_token_fatal t e : BPS.token_bytes t = Fatal e -> e = ValueError.
Proof.
  unfold BPS.token_bytes. destruct (String.eqb _ _); [discriminate|].
  destruct (Py.int16 t) as [z|]; simpl; [|congruence].
  destruct (Py.z2b z) as [b|]; simpl; [discriminate | congruence].
Qed.

(** One such token makes the parser of [make_bps.py] raise ValueError for
    the whole pattern. *)
Lemma bps_parse_token_fatal s t :
  In t (BPS.tokens s) -> BPS.token_bytes t = Fatal ValueError ->
  BPS.aob_to_bytes_mask s = Fatal ValueError.
Proof.
  intros Ht Hf. unfold BPS.aob_to_bytes_mask.
  rewrite (ParseFacts.omap_fatal BPS.token_bytes (BPS.tokens s) ValueError);
    [reflexivity | | eauto].
  intros x _. destruct (BPS.token_bytes x) as [y|e] eqn:E; [left; eauto|].
  right. now rewrite (bps_token_fatal x e E).
Qed.

(** C6, the claim as stated fails in [make_bps.py]: the pattern "1? 12"
    has a lowest masked match in the fixture image, at offset 0, and the
    resolver of [make_inline.py] returns it; the resolver of [make_bps.py]
    raises ValueError on the nibble wildcard and the run aborts: the hook
    is neither resolved nor skipped. *)
Lemma C6_counterexample :
  Inline.aob_to_pat_mask "1? 12" = Ok ([x10; x12], [xf0; xff]) /\
  Spec.lowest_match Fixtures.image1 [x10; x12] [xf0; xff] 0 /\
  Inline.resolve (Spec.inline_pristine Fixtures.image1)
                 (Fixtures.spec_aob "1? 12") None = Ok (Some 0) /\
  BPS.resolve (Spec.bps_pristine Fixtures.image1) (Fixtures.spec_aob "1? 12")
  = Fatal ValueError /\
  BPS.main_loop Fixtures.thumb_detour Fixtures.stub_bw Fixtures.image1
    [("h"%string, Fixtures.spec_aob "1? 12")] = Fatal ValueError.
Proof.
  split; [reflexivity|]. split; [|split; [|split]]; try (vm_compute; reflexivity).
  destruct (inline_scan_spec Fixtures.image1 [x10; x12] [xf0; xff] eq_refl)
    as [[E _] | H].
  - vm_compute in E. discriminate E.
  - exact H.
Qed.

(** C6 (amended). For a pattern-mode hook whose pattern parses to
    [(pat, msk)], the resolver returns [r] exactly when [r] is the lowest
    offset of the image at which every position satisfies
    [(byte & mask) = (pattern & mask)]; when every mask byte is 0xFF the
    scan returns what a byte-for-byte substring search returns; and when no
    offset matches, the hook is skipped: the state is unchanged and the
    loop goes on with the next hook. This holds in [make_inline.py], and in
    [make_bps.py] for the patterns its parser accepts. A pattern the parser
    of [make_bps.py] rejects aborts the run with the parser's error instead
    of being resolved or skipped, and it rejects with ValueError every
    pattern that has a token with one wildcard nibble. *)
Theorem C6_pattern_resolution :
  (forall ks ps st nm spec s pat msk rest,
     addr spec = AddrNone -> Py.truthy (aob spec) = Some s ->
     Inline.aob_to_pat_mask s = Ok (pat, msk) ->
     (forall r, Inline.resolve st spec None = Ok (Some r)
                <-> Spec.lowest_match (Inline.buf st) pat msk r) /\
     (Spec.fixed_only msk ->
      Inline.scan (Inline.buf st) pat msk
      = Spec.substring_search (Inline.buf st) pat) /\
     (Spec.no_match (Inline.buf st) pat msk ->
      Inline.resolve st spec None = Ok None /\
      ofold (Inline.hook_step ks ps) ((nm, spec) :: rest) st
      = ofold (Inline.hook_step ks ps) rest st))
  /\
  (forall kd kb st nm spec s pat msk rest,
     addr spec = AddrNone -> Py.truthy (aob spec) = Some s ->
     BPS.aob_to_bytes_mask s = Ok (pat, msk) ->
     (forall r, BPS.resolve st spec = Ok (Some r)
                <-> Spec.lowest_match (BPS.buf st) pat msk r) /\
     (Spec.fixed_only msk ->
      BPS.scan_aob (BPS.buf st) pat msk
      = Spec.substring_search (BPS.buf st) pat) /\
     (Spec.no_match (BPS.buf st) pat msk ->
      BPS.resolve st spec = Ok None /\
      ofold (BPS.hook_step kd kb) ((nm, spec) :: rest) st
      = ofold (BPS.hook_step kd kb) rest st))
  /\
  (forall kd kb st nm spec s e rest,
     addr spec = AddrNone -> Py.truthy (aob spec) = Some s ->
     BPS.aob_to_bytes_mask s = Fatal e ->
     BPS.resolve st spec = Fatal e /\
     ofold (BPS.hook_step kd kb) ((nm, spec) :: rest) st = Fatal e)
  /\
  (forall s t h A,
     In t (BPS.tokens s) -> Py.hex_digit h = Some A ->
     t = [h; "?"%char] \/ t = ["?"%char; h] ->
     BPS.aob_to_bytes_mask s = Fatal ValueError).
Proof.
  split; [|split; [|split]].
  - intros ks ps st nm spec s pat msk rest Haddr Haob Hparse.
    pose proof (inline_parse_lengths _ _ _ Hparse) as Hlen.
    assert (Hres : Inline.resolve st spec None
                   = if Inline.scan (Inline.buf st) pat msk <? 0 then Ok None
                     else Ok (Some (Inline.scan (Inline.buf st) pat msk))).
    { unfold Inline.resolve. rewrite Haob, Hparse. reflexivity. }
    split; [|split].
    + intros r. rewrite Hres.
      destruct (inline_scan_spec (Inline.buf st) pat msk Hlen) as [[E Hno] | [Hm Hmin]].
      * rewrite E. simpl. split; [discriminate|].
        intros [Hr _]. exfalso. exact (Hno r Hr).
      * assert (Hm' := Hm). destruct Hm' as (H0 & _).
        destruct (Z.ltb_spec (Inline.scan (Inline.buf st) pat msk) 0); [lia|].
        split.
        -- intros E. injection E as <-. split; assumption.
        -- intros [Hr Hrmin]. pose proof (Hmin r Hr). pose proof (Hrmin _ Hm).
           f_equal. f_equal. lia.
    + intros Hfix. now apply inline_scan_fixed.
    + intros Hno. apply inline_scan_nonneg in Hno; [|exact Hlen].
      assert (Hnone : Inline.resolve st spec None = Ok None).
      { rewrite Hres. destruct (Z.ltb_spec (Inline.scan (Inline.buf st) pat msk) 0);
          [reflexivity | lia]. }
      split; [exact Hnone|].
      simpl. unfold Inline.hook_step at 1. unfold Inline.targets. simpl.
      rewrite Haddr. simpl. unfold Inline.site_step. rewrite Hnone. reflexivity.
  - intros kd kb st nm spec s pat msk rest Haddr Haob Hparse.
    destruct (bps_parse_shape _ _ _ Hparse) as [Hlen Hbm].
    assert (Hres : BPS.resolve st spec
                   = if BPS.scan_aob (BPS.buf st) pat msk <? 0 then Ok None
                     else Ok (Some (BPS.scan_aob (BPS.buf st) pat msk))).
    { unfold BPS.resolve. rewrite Haddr, Haob, Hparse. reflexivity. }
    split; [|split].
    + intros r. rewrite Hres.
      destruct (bps_scan_spec (BPS.buf st) pat msk Hbm Hlen) as [[E Hno] | [Hm Hmin]].
      * rewrite E. simpl. split; [discriminate|].
        intros [Hr _]. exfalso. exact (Hno r Hr).
      * assert (Hm' := Hm). destruct Hm' as (H0 & _).
        destruct (Z.ltb_spec (BPS.scan_aob (BPS.buf st) pat msk) 0); [lia|].
        split.
        -- intros E. injection E as <-. split; assumption.
        -- intros [Hr Hrmin]. pose proof (Hmin r Hr). pose proof (Hrmin _ Hm).
           f_equal. f_equal. lia.
    + intros Hfix. now apply bps_scan_fixed.
    + intros Hno. apply bps_scan_nonneg in Hno; [|exact Hbm|exact Hlen].
      assert (Hnone : BPS.resolve st spec = Ok None).
      { rewrite Hres. destruct (Z.ltb_spec (BPS.scan_aob (BPS.buf st) pat msk) 0);
          [reflexivity | lia]. }
      split; [exact Hnone|].
      simpl. unfold BPS.hook_step at 1. cbv zeta. simpl fst. simpl snd.
      rewrite Hnone. reflexivity.
  - intros kd kb st nm spec s e rest Haddr Haob Hparse.
    assert (Hres : BPS.resolve st spec = Fatal e).
    { unfold BPS.resolve. rewrite Haddr, Haob, Hparse. reflexivity. }
    split; [exact Hres|].
    simpl. unfold BPS.hook_step at 1. cbv zeta. simpl fst. simpl snd.
    rewrite Hres. reflexivity.
  - intros s t h A Ht Hh Hshape. apply (bps_parse_token_fatal s t Ht).
    apply hex_digit_table in Hh.
    destruct Hshape as [-> | ->]; each_hex Hh; reflexivity.
Qed.

(** C6 (amended) at concrete inputs: the pattern "13 14" on the fixture
    image, for both scripts, and the pattern "1? 12", which [make_bps.py]
    rejects. *)
Lemma C6_witness :
  Inline.scan Fixtures.image1 [x13; x14] [xff; xff]
  = Spec.substring_search Fixtures.image1 [x13; x14]
  /\ BPS.scan_aob Fixtures.image1 [x13; x14] [xff; xff]
     = Spec.substring_search Fixtures.image1 [x13; x14]
  /\ BPS.aob_to_bytes_mask "1? 12" = Fatal ValueError.
Proof.
  split; [|split].
  - refine (proj1 (proj2 (proj1 C6_pattern_resolution
              Fixtures.arm_abs_jump true (Spec.inline_pristine Fixtures.image1)
              "h"%string (Fixtures.spec_aob "13 14") "13 14"%string
              [x13; x14] [xff; xff] [] eq_refl eq_refl eq_refl)) _).
    repeat constructor.
  - refine (proj1 (proj2 (proj1 (proj2 C6_pattern_resolution)
              Fixtures.thumb_detour Fixtures.stub_bw
              (Spec.bps_pristine Fixtures.image1)
              "h"%string (Fixtures.spec_aob "13 14") "13 14"%string
              [x13; x14] [xff; xff] [] eq_refl eq_refl eq_refl)) _).
    repeat constructor.
  - refine (proj2 (proj2 (proj2 C6_pattern_resolution))
              "1? 12"%string ["1"; "?"]%char "1"%char 1 _ eq_refl _).
    + vm_compute. left. reflexivity.
    + left. reflexivity.
Defined.

(** ** C7: pattern tokens *)

(** C7, the claim as stated fails in [make_bps.py]: the token "A?", which
    fixes the high nibble only, is rejected with ValueError, so it matches
    no byte, not even 0xA0. *)
Lemma C7_counterexample :
  ~ Spec.token_matches BPS.aob_to_bytes_mask BPS.scan_aob "A?" xa0.
Proof.
  apply (token_fatal _ _ _ ValueError). reflexivity.
Qed.

(** C7 (amended). In [make_inline.py] either nibble of a token may be a
    wildcard: "??" matches every byte; a token with high nibble [A] and a
    wildcard low nibble matches exactly the bytes 16*A .. 16*A+15; a token
    with a wildcard high nibble and low nibble [L] matches exactly the bytes
    whose low nibble is [L]; a token of two hexadecimal digits matches
    exactly the byte they denote. In [make_bps.py] only "??" and tokens of
    two hexadecimal digits behave so: a token with one wildcard nibble
    raises ValueError. *)
Theorem C7_token_wildcards :
  (forall b, Spec.token_matches Inline.aob_to_pat_mask Inline.scan "??" b)
  /\
  (forall h A, Py.hex_digit h = Some A -> forall b,
     Spec.token_matches Inline.aob_to_pat_mask Inline.scan (Spec.tok2 h "?") b
     <-> 16 * A <= Py.b2z b <= 16 * A + 15)
  /\
  (forall l L, Py.hex_digit l = Some L -> forall b,
     Spec.token_matches Inline.aob_to_pat_mask Inline.scan (Spec.tok2 "?" l) b
     <-> Py.b2z b mod 16 = L)
  /\
  (forall h H l L, Py.hex_digit h = Some H -> Py.hex_digit l = Some L -> forall b,
     Spec.token_matches Inline.aob_to_pat_mask Inline.scan (Spec.tok2 h l) b
     <-> Py.b2z b = 16 * H + L)
  /\
  (forall b, Spec.token_matches BPS.aob_to_bytes_mask BPS.scan_aob "??" b)
  /\
  (forall h H l L, Py.hex_digit h = Some H -> Py.hex_digit l = Some L -> forall b,
     Spec.token_matches BPS.aob_to_bytes_mask BPS.scan_aob (Spec.tok2 h l) b
     <-> Py.b2z b = 16 * H + L)
  /\
  (forall h A, Py.hex_digit h = Some A ->
     BPS.aob_to_bytes_mask (Spec.tok2 h "?") = Fatal ValueError /\
     BPS.aob_to_bytes_mask (Spec.tok2 "?" h) = Fatal ValueError).
Proof.
  split; [|split; [|split; [|split; [|split; [|split]]]]].
  - intros b. apply (inline_token_iff _ x00 x00); [exact inline_parse_any|].
    now rewrite !band_00.
  - intros h A H b.
    destruct (inline_parse_high h A (hex_digit_table _ _ H)) as (v & Hp & Hv).
    rewrite (inline_token_iff _ v xf0 b Hp), !band_f0, Hv.
    pose proof (b2z_range b). pose proof (hex_digit_range _ _ H).
    split; intros E; Z.div_mod_to_equations; lia.
  - intros l L H b.
    destruct (inline_parse_low l L (hex_digit_table _ _ H)) as (v & Hp & Hv).
    rewrite (inline_token_iff _ v x0f b Hp), !band_0f, Hv.
    pose proof (hex_digit_range _ _ H).
    rewrite (Z.mod_small L 16) by lia. tauto.
  - intros h H l L Hh Hl b.
    destruct (inline_parse_fixed h H l L (hex_digit_table _ _ Hh) (hex_digit_table _ _ Hl))
      as (v & Hp & Hv).
    rewrite (inline_token_iff _ v xff b Hp), !band_ff, Hv. tauto.
  - intros b. apply (bps_token_iff _ x00 x00); [exact bps_parse_any | reflexivity].
  - intros h H l L Hh Hl b.
    destruct (bps_parse_fixed h H l L (hex_digit_table _ _ Hh) (hex_digit_table _ _ Hl))
      as (v & Hp & Hv).
    rewrite (bps_token_iff _ v xff b Hp).
    rewrite (bps_mismatch_false b v xff (or_intror eq_refl)), !band_ff, Hv. tauto.
  - intros h A H. split.
    + exact (bps_parse_high h A (hex_digit_table _ _ H)).
    + exact (bps_parse_low h A (hex_digit_table _ _ H)).
Qed.

(** The amended C7 at concrete tokens: in [make_inline.py] "A?" matches
    0xA5 and "?7" matches 0x37. *)
Lemma C7_witness :
  Spec.token_matches Inline.aob_to_pat_mask Inline.scan "A?" xa5 /\
  Spec.token_matches Inline.aob_to_pat_mask Inline.scan "?7" x37.
Proof.
  split.
  - apply (proj1 (proj2 C7_token_wildcards) "A"%char 10 eq_refl xa5).
    vm_compute. split; discriminate.
  - apply (proj1 (proj2 (proj2 C7_token_wildcards)) "7"%char 7 eq_refl x37).
    reflexivity.
Defined.

(** ** C8: the emitted hook table *)

(** C8. After a successful run of [make_inline.py], the enumeration of the
    generated header is the first-seen deduplication of the hook names of
    the applied sites (no name twice, the same names as the entries), while
    [kHooks] has one entry per applied site, in application order, repeated
    names included, and [kNumHooks] is the number of applied sites. *)
Theorem C8_hook_table ks ps image hooks st :
  Inline.main_loop ks ps image hooks = Ok st ->
  let t := Inline.emit_header st in
  let sites := Spec.inline_sites image hooks in
  Inline.enum_names t = Spec.first_seen (map fst sites) /\
  List.NoDup (Inline.enum_names t) /\
  (forall n, In n (Inline.enum_names t) <-> In n (map Inline.e_name (Inline.kHooks t))) /\
  map (fun e => (Inline.e_name e, Inline.e_site_off e)) (Inline.kHooks t)
  = map (fun x => (fst x, fst (fst (snd x)))) sites /\
  Inline.kNumHooks t = Py.len sites /\
  Inline.kNumHooks t = Py.len (Inline.kHooks t).
Proof.
  intros Hrun t sites. subst t sites.
  apply InlineRun.main_loop_rows in Hrun as (Hbuf & Hrows & Hids).
  unfold Inline.emit_header. simpl.
  rewrite unique_names_first_seen, Hids, Hrows.
  set (c := snd (Inline.alloc_arena image (Inline.arena_need hooks))).
  set (sites := Spec.inline_sites image hooks).
  assert (Hnames : map Inline.e_name (map Inline.emit_entry (Spec.mk_rows c sites))
                   = map fst sites).
  { rewrite map_map. simpl. apply InlineRun.mk_rows_names. }
  repeat split.
  - apply first_seen_NoDup.
  - rewrite Hnames. apply first_seen_In.
  - rewrite Hnames. apply first_seen_In.
  - rewrite map_map. simpl. clearbody c. clear.
    revert c. induction sites as [|[nm [[site g] glen]] l IH]; intros c; simpl;
      [reflexivity | now rewrite IH].
  - unfold Py.len. now rewrite InlineRun.mk_rows_length.
  - unfold Py.len. now rewrite length_map.
Qed.

(** C8 at a concrete run: one hook "h" with two addresses gives one
    enumerator and two entries. *)
Lemma C8_witness :
  exists st,
    Inline.main_loop Fixtures.arm_abs_jump true Fixtures.image1
                     [("h"%string, Fixtures.spec_addrs [0; 8])] = Ok st /\
    Inline.enum_names (Inline.emit_header st) = ["h"%string] /\
    Inline.kNumHooks (Inline.emit_header st) = 2.
Proof.
  destruct (Inline.main_loop Fixtures.arm_abs_jump true Fixtures.image1
                             [("h"%string, Fixtures.spec_addrs [0; 8])])
    as [st|e] eqn:E; [|vm_compute in E; discriminate E].
  exists st. split; [reflexivity|].
  destruct (C8_hook_table _ _ _ _ _ E) as (Henum & _ & _ & _ & Hnum & _).
  split; [rewrite Henum | rewrite Hnum]; reflexivity.
Defined.

(** ** C9: scans and guard reads use the pristine image *)

(** C9. In both scripts, site resolution and the guard read depend on the
    [buf] copy of the image only; no step of the hook loop changes [buf];
    hence, after a successful run, the site offset and the guard snapshot of
    every record are the ones that resolution on the pristine image gives,
    whatever trampolines and detours earlier hooks wrote into [mod]. *)
Theorem C9_reads_pristine_image :
  (forall st st' spec a site, Inline.buf st = Inline.buf st' ->
     Inline.resolve st spec a = Inline.resolve st' spec a /\
     Inline.guard_snapshot st spec site = Inline.guard_snapshot st' spec site)
  /\
  (forall ks ps nm spec st a st',
     Inline.site_step ks ps nm spec st a = Ok st' -> Inline.buf st' = Inline.buf st)
  /\
  (forall ks ps image hooks st,
     Inline.main_loop ks ps image hooks = Ok st ->
     Inline.buf st = image /\
     map (fun r => (Inline.name r,
                    (Inline.site_off r, Inline.guard_bytes r, Inline.guard_len r)))
         (Inline.rows st)
     = Spec.inline_sites image hooks)
  /\
  (forall st st' spec site, BPS.buf st = BPS.buf st' ->
     BPS.resolve st spec = BPS.resolve st' spec /\
     BPS.guard_check st spec site = BPS.guard_check st' spec site)
  /\
  (forall kd kb ns st st',
     BPS.hook_step kd kb st ns = Ok st' -> BPS.buf st' = BPS.buf st)
  /\
  (forall kd kb image hooks st,
     BPS.main_loop kd kb image hooks = Ok st ->
     BPS.buf st = image /\
     map (fun r => (BPS.name r, BPS.site_off r)) (BPS.hook_records st)
     = Spec.bps_sites image hooks).
Proof.
  split; [|split; [|split; [|split; [|split]]]].
  - intros st st' spec a site E.
    rewrite (InlineRun.resolve_buf st), (InlineRun.resolve_buf st'),
            (InlineRun.guard_snapshot_buf st), (InlineRun.guard_snapshot_buf st'), E.
    split; reflexivity.
  - intros ks ps nm spec st a st' E.
    now apply InlineRun.site_step_ok in E as (Hb & _).
  - intros ks ps image hooks st E.
    apply InlineRun.main_loop_rows in E as (Hb & Hr & _). split; [exact Hb|].
    rewrite Hr. apply InlineRun.mk_rows_keys.
  - intros st st' spec site E.
    rewrite (BPSRun.bps_resolve_buf st), (BPSRun.bps_resolve_buf st'),
            (BPSRun.guard_check_buf st), (BPSRun.guard_check_buf st'), E.
    split; reflexivity.
  - intros kd kb [nm spec] st st' E.
    now apply BPSRun.hook_step_ok in E as (Hb & _).
  - intros kd kb image hooks st E.
    apply BPSRun.main_loop_records in E as (Hb & Hr). split; [exact Hb|].
    rewrite Hr. apply BPSRun.mk_records_keys.
Qed.

(** C9 at a concrete run: the second hook is found by its pattern at offset
    8 although the first hook has overwritten offsets 0 to 7 of [mod]. *)
Lemma C9_witness :
  exists st,
    Inline.main_loop Fixtures.arm_abs_jump true Fixtures.image1
      [("a"%string, Fixtures.spec_addr 0);
       ("b"%string, Fixtures.spec_aob "21 22")] = Ok st /\
    map Inline.site_off (Inline.rows st) = [0; 8] /\
    Inline.buf st = Fixtures.image1.
Proof.
  destruct (Inline.main_loop Fixtures.arm_abs_jump true Fixtures.image1
              [("a"%string, Fixtures.spec_addr 0);
               ("b"%string, Fixtures.spec_aob "21 22")])
    as [st|e] eqn:E; [|vm_compute in E; discriminate E].
  exists st. split; [reflexivity|].
  destruct (proj1 (proj2 (proj2 C9_reads_pristine_image)) _ _ _ _ _ E) as (Hb & Hr).
  split; [|exact Hb].
  transitivity (map (fun x => fst (fst (snd x)))
                    (Spec.inline_sites Fixtures.image1
                       [("a"%string, Fixtures.spec_addr 0);
                        ("b"%string, Fixtures.spec_aob "21 22")]));
    [|reflexivity].
  rewrite <- Hr, map_map. reflexivity.
Defined.

(** ** C10: the size of the cave request *)

Lemma no_sites_fold ks ps hooks st :
  Inline.num_sites hooks = 0 -> ofold (Inline.hook_step ks ps) hooks st = Ok st.
Proof.
  induction hooks as [|[nm spec] hooks IH]; intros H; [reflexivity|].
  rewrite num_sites_cons in H. simpl in H.
  pose proof (spec_sites_nonneg spec). pose proof (num_sites_nonneg hooks).
  simpl. rewrite InlineRun.hook_step_no_site by lia. simpl. apply IH. lia.
Qed.

Lemma appended_region buf (n : nat) :
  Spec.filler_run (buf ++ repeat x00 n) (Py.len buf) (Z.of_nat n).
Proof.
  pose proof (len_nonneg buf). split; [lia|]. split.
  - rewrite len_app, len_repeat. lia.
  - intros k Hk. unfold Spec.byte_at.
    rewrite app_nth2 by (unfold Py.len in *; lia).
    rewrite nth_repeat. reflexivity.
Qed.

Lemma alloc_arena_region buf need :
  1 <= need ->
  Spec.filler_run (fst (Inline.alloc_arena buf need))
                  (snd (Inline.alloc_arena buf need)) need.
Proof.
  intros Hneed. unfold Inline.alloc_arena.
  destruct (inline_cave_spec buf need Hneed) as [[E H] | [H Hmax]].
  - rewrite E. simpl. pose proof (appended_region buf (Z.to_nat need)) as R.
    rewrite Z2Nat.id in R by lia. exact R.
  - assert (H' := H). destruct H' as (H0 & _).
    destruct (Z.ltb_spec (Inline.find_code_cave buf need) 0); [lia|]. exact H.
Qed.

(** C10, the claim as stated fails in [make_bps.py]: with no hook at all
    the request is one slot of 0x40 bytes, and on an image without filler
    that slot is neither located nor appended; the run stops. *)
Lemma C10_counterexample :
  BPS.arena_total [] = 0x40 /\
  BPS.main_loop Fixtures.thumb_detour Fixtures.stub_bw Fixtures.image2 []
  = Fatal NoCodeCave.
Proof. split; reflexivity. Qed.

(** C10 (amended). The cave request is the slot size times the maximum of 1
    and the site count taken before resolution ([num_sites] and 0x60 in
    [make_inline.py], the number of hooks and 0x40 in [make_bps.py]); it is
    never less than one slot and, in [make_inline.py], has a slot for every
    site of the run. In [make_inline.py], when the hook set counts zero
    sites, one slot of 0x60 bytes is still located or appended, and on an
    image without such a cave the run succeeds with the image grown by
    exactly 0x60 zero bytes. In [make_bps.py] the slot is located, or else
    the run stops with [NoCodeCave]: nothing is appended. *)
Theorem C10_arena_request :
  (forall hooks,
     Inline.arena_need hooks = Inline.per_tramp * Z.max 1 (Inline.num_sites hooks) /\
     0x60 <= Inline.arena_need hooks /\
     forall image,
       Inline.per_tramp * Py.len (Spec.inline_sites image hooks)
       <= Inline.arena_need hooks)
  /\
  (forall hooks image, Inline.num_sites hooks = 0 ->
     Inline.arena_need hooks = 0x60 /\
     Spec.filler_run (fst (Inline.alloc_arena image (Inline.arena_need hooks)))
                     (snd (Inline.alloc_arena image (Inline.arena_need hooks)))
                     0x60)
  /\
  (forall ks ps hooks image, Inline.num_sites hooks = 0 ->
     (forall j, ~ Spec.filler_run image j 0x60) ->
     exists st, Inline.main_loop ks ps image hooks = Ok st /\
                Inline.mod_ st = image ++ repeat x00 96 /\
                Py.len (Inline.mod_ st) = Py.len image + 0x60)
  /\
  (forall hooks,
     BPS.arena_total hooks = BPS.arena_need_each * Z.max 1 (Py.len hooks) /\
     0x40 <= BPS.arena_total hooks)
  /\
  (forall kd kb image hooks,
     (forall j, ~ Spec.filler_run image j (BPS.arena_total hooks)) ->
     BPS.main_loop kd kb image hooks = Fatal NoCodeCave).
Proof.
  split; [|split; [|split; [|split]]].
  - intros hooks. split; [reflexivity|]. split; [apply arena_need_min|].
    intros image. pose proof (inline_sites_bound image hooks).
    unfold Inline.arena_need, Inline.per_tramp. lia.
  - intros hooks image H0.
    assert (E : Inline.arena_need hooks = 0x60).
    { unfold Inline.arena_need. rewrite H0. reflexivity. }
    split; [exact E|]. rewrite E. apply alloc_arena_region. lia.
  - intros ks ps hooks image H0 Hno.
    assert (E : Inline.arena_need hooks = 0x60).
    { unfold Inline.arena_need. rewrite H0. reflexivity. }
    unfold Inline.main_loop. rewrite E. unfold Inline.alloc_arena.
    apply inline_cave_neg in Hno; [|lia].
    destruct (Z.ltb_spec (Inline.find_code_cave image 96) 0); [|lia].
    rewrite no_sites_fold by exact H0.
    eexists. split; [reflexivity|]. cbn [Inline.mod_]. split; [reflexivity|].
    rewrite len_app, len_repeat. reflexivity.
  - intros hooks. split; [reflexivity | apply arena_total_min].
  - intros kd kb image hooks Hno.
    now apply bps_no_cave_fatal.
Qed.

(** C10 (amended) at a concrete input: a run of [make_inline.py] without
    hooks on the 16-byte image that has no filler. *)
Lemma C10_witness :
  exists st,
    Inline.main_loop Fixtures.arm_abs_jump true Fixtures.image2 [] = Ok st /\
    Py.len (Inline.mod_ st) = 16 + 0x60.
Proof.
  destruct (proj1 (proj2 (proj2 C10_arena_request))
              Fixtures.arm_abs_jump true [] Fixtures.image2 eq_refl)
    as (st & Hrun & _ & Hlen).
  - apply (proj1 (inline_cave_neg Fixtures.image2 0x60 ltac:(lia))). reflexivity.
  - exists st. split; [exact Hrun | exact Hlen].
Defined.

(** ** C2: round-trip verification of the patch *)

Lemma bytes_eqb_false x y : x <> y -> Py.bytes_eqb x y = false.
Proof.
  intros H. destruct (Py.bytes_eqb x y) eqn:E; [|reflexivity].
  apply bytes_eqb_eq in E. contradiction.
Qed.

Lemma bytes_eqb_refl x : Py.bytes_eqb x x = true.
Proof. now apply bytes_eqb_eq. Qed.

(** C2, the claim as stated fails: one hook at the offset 1 of the fixture
    image, and a diff engine whose reconstruction is wrong. The run stops
    with the round-trip mismatch, but the patched image and the patch
    file, absent before the run, are on disk after it. *)
Lemma C2_counterexample :
  let res := BPS.main Fixtures.thumb_detour Fixtures.stub_bw true
               Fixtures.whole_file_create Fixtures.broken_apply
               Fixtures.disk1 "code.bin" [("h"%string, Fixtures.spec_addr 1)] in
  snd res = Fatal RoundtripMismatch /\
  Fixtures.disk1 !! BPS.out_bps = None /\
  Fixtures.disk1 !! BPS.out_mod = None /\
  (exists p, fst res !! BPS.out_bps = Some p) /\
  (exists m, fst res !! BPS.out_mod = Some m).
Proof.
  cbv zeta. split; [vm_compute; reflexivity|].
  split; [vm_compute; reflexivity|].
  split; [vm_compute; reflexivity|].
  split; eexists; vm_compute; reflexivity.
Qed.

(** C2 (amended). For every run of [make_bps.py] that reaches patch
    generation and whose base file is neither [build/code_mod.bin] nor
    [patch/code.bps] (the two files the run writes before FLIPS reads the
    base), the patch is applied to the original image and the
    reconstruction is compared byte for byte with the patched image. If they
    are equal the run succeeds and the patch is staged. If they differ the
    run fails with the round-trip mismatch and the patch is not staged: the
    staging path is as it was before the run; the patched image, the patch
    file and the reconstruction, written before the comparison, stay on
    disk. *)
Theorem C2_roundtrip_verification
    kd kb create apply (fs : gmap string (list byte)) base hooks image st patch recon :
  base <> BPS.out_mod -> base <> BPS.out_bps ->
  fs !! base = Some image ->
  BPS.main_loop kd kb image hooks = Ok st ->
  create image (BPS.mod_ st) = Some patch ->
  apply patch image = Some recon ->
  let res := BPS.main kd kb true create apply fs base hooks in
  (recon = BPS.mod_ st ->
   snd res = Ok tt /\
   fst res !! BPS.staged_bps = Some patch /\
   fst res !! BPS.out_bps = Some patch /\
   fst res !! BPS.out_mod = Some (BPS.mod_ st))
  /\
  (recon <> BPS.mod_ st ->
   snd res = Fatal RoundtripMismatch /\
   fst res !! BPS.staged_bps = fs !! BPS.staged_bps /\
   fst res !! BPS.out_bps = Some patch /\
   fst res !! BPS.out_mod = Some (BPS.mod_ st) /\
   fst res !! BPS.verify = Some recon).
Proof.
  intros Hb1 Hb2 Hbase Hrun Hcreate Happly res. subst res.
  unfold BPS.main. rewrite Hbase, Hrun. unfold BPS.emit. cbv zeta.
  unfold BPS.flips_create_bps. simpl negb. cbv iota.
  rewrite (lookup_insert_ne fs BPS.out_mod base) by congruence.
  rewrite Hbase, lookup_insert_eq, Hcreate.
  unfold BPS.flips_apply_bps.
  rewrite lookup_insert_eq.
  rewrite (lookup_insert_ne _ BPS.out_bps base) by congruence.
  rewrite (lookup_insert_ne fs BPS.out_mod base) by congruence.
  rewrite Hbase, Happly.
  rewrite lookup_insert_eq.
  rewrite (lookup_insert_ne _ BPS.verify BPS.out_mod) by discriminate.
  rewrite (lookup_insert_ne _ BPS.out_bps BPS.out_mod) by discriminate.
  rewrite lookup_insert_eq.
  split.
  - intros ->. rewrite bytes_eqb_refl. simpl negb. cbv iota.
    rewrite (lookup_insert_ne _ BPS.verify BPS.out_bps) by discriminate.
    rewrite lookup_insert_eq. simpl fst. simpl snd.
    split; [reflexivity|]. split; [apply lookup_insert_eq|].
    rewrite (lookup_insert_ne _ BPS.staged_bps BPS.out_bps) by discriminate.
    rewrite (lookup_insert_ne _ BPS.verify BPS.out_bps) by discriminate.
    rewrite lookup_insert_eq.
    rewrite (lookup_insert_ne _ BPS.staged_bps BPS.out_mod) by discriminate.
    rewrite (lookup_insert_ne _ BPS.verify BPS.out_mod) by discriminate.
    rewrite (lookup_insert_ne _ BPS.out_bps BPS.out_mod) by discriminate.
    rewrite lookup_insert_eq. split; reflexivity.
  - intros Hne. rewrite (bytes_eqb_false _ _ Hne). simpl negb. cbv iota.
    simpl fst. simpl snd.
    split; [reflexivity|].
    rewrite (lookup_insert_ne _ BPS.verify BPS.staged_bps) by discriminate.
    rewrite (lookup_insert_ne _ BPS.out_bps BPS.staged_bps) by discriminate.
    rewrite (lookup_insert_ne _ BPS.out_mod BPS.staged_bps) by discriminate.
    split; [reflexivity|].
    rewrite (lookup_insert_ne _ BPS.verify BPS.out_bps) by discriminate.
    rewrite lookup_insert_eq. split; [reflexivity|].
    rewrite (lookup_insert_ne _ BPS.verify BPS.out_mod) by discriminate.
    rewrite (lookup_insert_ne _ BPS.out_bps BPS.out_mod) by discriminate.
    rewrite !lookup_insert_eq. split; reflexivity.
Qed.

(** C2 (amended) at a concrete run, one hook at the offset 1, with the
    faithful diff engine: the patch is staged. *)
Lemma C2_witness :
  snd (BPS.main Fixtures.thumb_detour Fixtures.stub_bw true
         Fixtures.whole_file_create Fixtures.whole_file_apply
         Fixtures.disk1 "code.bin" [("h"%string, Fixtures.spec_addr 1)])
  = Ok tt.
Proof.
  destruct (BPS.main_loop Fixtures.thumb_detour Fixtures.stub_bw Fixtures.image1
              [("h"%string, Fixtures.spec_addr 1)]) as [st|e] eqn:E;
    [|vm_compute in E; discriminate E].
  refine (proj1 (proj1 (C2_roundtrip_verification
            Fixtures.thumb_detour Fixtures.stub_bw
            Fixtures.whole_file_create Fixtures.whole_file_apply
            Fixtures.disk1 "code.bin"%string [("h"%string, Fixtures.spec_addr 1)]
            Fixtures.image1 st (BPS.mod_ st) (BPS.mod_ st)
            _ _ _ E eq_refl eq_refl) eq_refl)).
  - discriminate.
  - discriminate.
  - vm_compute. reflexivity.
Defined.

(** ** C3: the guard pattern *)





(** ** C4: overlapping sites *)

(** C4, the claim as stated fails: the sites 0 and 4 of one hook have
    overlapping stolen windows (bytes 0-7 and 4-11), and the run accepts
    both instead of aborting. *)
Lemma C4_counterexample :
  exists st,
    Inline.main_loop Fixtures.arm_abs_jump true Fixtures.image1
      [("h"%string, Fixtures.spec_addrs [0; 4])] = Ok st /\
    map Inline.site_off (Inline.rows st) = [0; 4] /\
    0 < 4 < 0 + Inline.STOLEN_SIZE.
Proof.
  eexists. split; [vm_compute; reflexivity|].
  split; [reflexivity|]. unfold Inline.STOLEN_SIZE. lia.
Qed.

(** C4 (amended). The scripts have no overlap check: in a run whose
    assembler does not fail and whose pattern and guard strings parse (and,
    for [make_bps.py], whose addresses are integers and whose cave is
    found), the hook loop completes and accepts every site that resolves on
    the original image (and, in [make_bps.py], passes its guard), in order,
    whether or not its stolen window overlaps that of an earlier site. *)
Theorem C4_no_overlap_check :
  (forall ks ps image hooks,
     Spec.good_asm ks -> Spec.parseable Inline.aob_to_pat_mask hooks ->
     exists st,
       Inline.main_loop ks ps image hooks = Ok st /\
       map Inline.site_off (Inline.rows st)
       = map (fun x => fst (fst (snd x))) (Spec.inline_sites image hooks))
  /\
  (forall kd kb image hooks,
     Spec.good_thumb kd kb -> Spec.int_addrs hooks ->
     Spec.parseable BPS.aob_to_bytes_mask hooks ->
     0 <= BPS.find_code_cave image (BPS.arena_total hooks) None ->
     exists st,
       BPS.main_loop kd kb image hooks = Ok st /\
       map BPS.site_off (BPS.hook_records st)
       = map snd (Spec.bps_sites image hooks)).
Proof.
  split.
  - intros ks ps image hooks Hks Hp.
    destruct (InlineRun.main_loop_total ks ps image hooks Hks Hp) as [st Hst].
    exists st. split; [exact Hst|].
    apply InlineRun.main_loop_rows in Hst as (_ & Hr & _).
    rewrite Hr. apply InlineRun.mk_rows_sites.
  - intros kd kb image hooks Hks Ha Hp Hcave.
    assert (exists st, BPS.main_loop kd kb image hooks = Ok st) as [st Hst].
    { unfold BPS.main_loop. cbv zeta.
      destruct (Z.ltb_spec (BPS.find_code_cave image (BPS.arena_total hooks) None) 0);
        [lia|].
      now apply BPSRun.bps_hooks_fold_total. }
    exists st. split; [exact Hst|].
    apply BPSRun.main_loop_records in Hst as (_ & Hr).
    rewrite Hr. apply BPSRun.mk_records_sites.
Qed.

Lemma arm_abs_jump_good : Spec.good_asm Fixtures.arm_abs_jump.
Proof.
  intros to_va origin. eexists. split; reflexivity.
Qed.

Lemma thumb_fixtures_good : Spec.good_thumb Fixtures.thumb_detour Fixtures.stub_bw.
Proof.
  split.
  - eexists. split; reflexivity.
  - intros delta origin. eexists. reflexivity.
Qed.

(** C4 (amended) at a concrete input: the overlapping sites 0 and 4 are both
    accepted by [make_inline.py], and the sites 0 and 5 by [make_bps.py]. *)
Lemma C4_witness :
  (exists st,
     Inline.main_loop Fixtures.arm_abs_jump true Fixtures.image1
       [("h"%string, Fixtures.spec_addrs [0; 4])] = Ok st /\
     map Inline.site_off (Inline.rows st) = [0; 4])
  /\
  (exists st,
     BPS.main_loop Fixtures.thumb_detour Fixtures.stub_bw Fixtures.image3
       [("a"%string, Fixtures.spec_addr 0); ("b"%string, Fixtures.spec_addr 5)]
     = Ok st /\
     map BPS.site_off (BPS.hook_records st) = [0; 5]).
Proof.
  split.
  - destruct (proj1 C4_no_overlap_check Fixtures.arm_abs_jump true Fixtures.image1
                [("h"%string, Fixtures.spec_addrs [0; 4])] arm_abs_jump_good)
      as (st & Hrun & Hsites).
    + intros nm spec [E | []]. injection E as <- <-.
      split; intros s Hs; vm_compute in Hs; discriminate Hs.
    + exists st. split; [exact Hrun | rewrite Hsites; reflexivity].
  - destruct (proj2 C4_no_overlap_check Fixtures.thumb_detour Fixtures.stub_bw
                Fixtures.image3
                [("a"%string, Fixtures.spec_addr 0); ("b"%string, Fixtures.spec_addr 5)]
                thumb_fixtures_good)
      as (st & Hrun & Hsites).
    + intros nm spec [E | [E | []]]; injection E as <- <-; right; eexists; reflexivity.
    + intros nm spec [E | [E | []]]; injection E as <- <-;
        split; intros s Hs; vm_compute in Hs; discriminate Hs.
    + vm_compute. discriminate.
    + exists st. split; [exact Hrun | rewrite Hsites; reflexivity].
Defined.

(** ** C1: where the stolen bytes come from *)

Import TrampFacts.

(** C1, the claim as stated fails: with [--patch-sites], the second site
    (offset 4) of the hook is processed after the detour of the first site
    (offset 0) was written over bytes 0-7 of [mod]; the stolen bytes copied
    into its trampoline (at 216) are the last four detour bytes followed by
    four original bytes, not the original content of offsets 4-11. *)
Lemma C1_counterexample :
  exists st,
    Inline.main_loop Fixtures.arm_abs_jump true Fixtures.image1
      [("h"%string, Fixtures.spec_addrs [0; 4])] = Ok st /\
    map (fun r => (Inline.site_off r, Inline.tramp_off r)) (Inline.rows st)
    = [(0, 120); (4, 216)] /\
    Py.slice (Inline.mod_ st) 216 224
    = [x78; x00; x10; x00; x21; x22; x23; x24] /\
    Py.slice Fixtures.image1 4 12
    = [x15; x16; x17; x18; x21; x22; x23; x24] /\
    Py.slice (Inline.mod_ st) 216 224 <> Py.slice Fixtures.image1 4 12.
Proof.
  eexists. split; [vm_compute; reflexivity|].
  split; [reflexivity|]. split; [reflexivity|]. split; [reflexivity|].
  vm_compute. discriminate.
Qed.

(** C1 (amended). In both scripts the stolen bytes that start a trampoline
    are read from the mutable buffer [mod] as it stands when the site is
    processed, not from the original image. In [make_inline.py] they equal
    the original content at the site offset for every site of a run whose
    accepted sites lie inside the original image and outside the trampoline
    arena and whose stolen windows do not overlap one another: in such a run
    every trampoline of the written image starts with the eight bytes the
    original image has at its site. *)
Theorem C1_stolen_bytes :
  (forall ks st site tramp,
     Inline.build_tramp ks st site = Ok tramp ->
     exists j, Py.len j = 8 /\
       tramp = Py.slice (Inline.mod_ st) site (site + Inline.STOLEN_SIZE) ++ j)
  /\
  (forall kb st site tramp,
     BPS.build_tramp kb st site = Ok tramp ->
     exists rest,
       tramp = Py.slice (BPS.mod_ st) site (site + BPS.STOLEN_LEN) ++ rest)
  /\
  (forall ks ps image hooks st,
     Inline.main_loop ks ps image hooks = Ok st ->
     Spec.sites_clear (Py.len image)
       (snd (Inline.alloc_arena image (Inline.arena_need hooks)))
       (Inline.arena_need hooks) (Inline.rows st) ->
     forall r, In r (Inline.rows st) ->
       Py.slice (Inline.mod_ st) (Inline.tramp_off r)
                (Inline.tramp_off r + Inline.STOLEN_SIZE)
       = Py.slice image (Inline.site_off r)
                  (Inline.site_off r + Inline.STOLEN_SIZE)).
Proof.
  split; [|split].
  - intros ks st site tramp. unfold Inline.build_tramp.
    destruct (Inline.asm_abs_jump_va ks _ _) as [j|e] eqn:Ej; simpl; [|discriminate].
    intros E. injection E as <-. exists j. split; [|reflexivity].
    now apply asm_len in Ej.
  - intros kb st site tramp. unfold BPS.build_tramp. cbv zeta.
    destruct (kb _ _) as [enc|]; [|discriminate].
    intros E. injection E as <-. unfold BPS.STOLEN_LEN.
    set (stolen := Py.slice (BPS.mod_ st) site (site + 10)).
    destruct (negb (Z.land (Py.len stolen) 1 =? 0)).
    + destruct (negb (Z.land (Py.len (stolen ++ BPS.NOP16)) 3 =? 0));
        rewrite <- ?app_assoc; eauto.
    + destruct (negb (Z.land (Py.len stolen) 3 =? 0));
        rewrite <- ?app_assoc; eauto.
  - exact main_loop_trampolines.
Qed.

(** C1 (amended) at a concrete run: the sites 0 and 8 do not overlap, and
    the second trampoline holds the original bytes of offsets 8-15. *)
Lemma C1_witness :
  exists st,
    Inline.main_loop Fixtures.arm_abs_jump true Fixtures.image1
      [("h"%string, Fixtures.spec_addrs [0; 8])] = Ok st /\
    Py.slice (Inline.mod_ st) 216 224 = Py.slice Fixtures.image1 8 16.
Proof.
  destruct (Inline.main_loop Fixtures.arm_abs_jump true Fixtures.image1
              [("h"%string, Fixtures.spec_addrs [0; 8])]) as [st|e] eqn:E;
    [|vm_compute in E; discriminate E].
  exists st. split; [reflexivity|].
  pose proof (InlineRun.main_loop_rows _ _ _ _ _ E) as (_ & Hrows & _).
  assert (Hrows' : Inline.rows st
                   = [ {| Inline.name := "h"; Inline.site_off := 0;
                          Inline.tramp_off := 120; Inline.guard_bytes := [];
                          Inline.guard_len := 0 |};
                       {| Inline.name := "h"; Inline.site_off := 8;
                          Inline.tramp_off := 216; Inline.guard_bytes := [];
                          Inline.guard_len := 0 |} ])
    by (rewrite Hrows; reflexivity).
  refine (proj2 (proj2 C1_stolen_bytes) Fixtures.arm_abs_jump true Fixtures.image1
            [("h"%string, Fixtures.spec_addrs [0; 8])] st E _
            {| Inline.name := "h"; Inline.site_off := 8;
               Inline.tramp_off := 216; Inline.guard_bytes := [];
               Inline.guard_len := 0 |} _).
  - rewrite Hrows'. split.
    + intros r [<- | [<- | []]]; vm_compute; intuition discriminate.
    + vm_compute. intuition (subst; discriminate).
  - rewrite Hrows'. right. left. reflexivity.
Defined.

(* ===================================================================== *)
(** * Part XI: further properties of the scripts                           *)
(* ===================================================================== *)

Import LoopFacts.

(** ** The image written by [make_inline.py] *)

(** X1. Without [--patch-sites] the hook loop of [make_inline.py] writes
    inside the trampoline windows only (the sixteen bytes at [tramp_off] of
    each row): the written image has the length of the buffer the loop
    started from (the input, or the input grown by the arena when no cave
    was found), every byte of the input outside these windows, the hook
    sites included, is unchanged, and so is every zero byte of an appended
    arena. *)
Theorem X1_inline_sites_untouched ks image hooks st :
  Inline.main_loop ks false image hooks = Ok st ->
  let need := Inline.arena_need hooks in
  Py.len (Inline.mod_ st)
  = (if Inline.find_code_cave image need <? 0
     then Py.len image + need else Py.len image) /\
  forall p, 0 <= p < Py.len (Inline.mod_ st) ->
    (forall r, In r (Inline.rows st) ->
       p < Inline.tramp_off r \/ Inline.tramp_off r + 16 <= p) ->
    Spec.byte_at (Inline.mod_ st) p
    = if p <? Py.len image then Spec.byte_at image p else x00.
Proof.
  intros Hrun need.
  pose proof (rows_fit ks false image hooks st Hrun) as Hfit.
  pose proof (arena_need_min hooks) as Hneed. fold need in Hneed, Hfit.
  unfold Inline.main_loop in Hrun. fold need in Hrun.
  destruct (Inline.alloc_arena image need) as [mod0 off] eqn:Ea.
  destruct (alloc_geometry image need mod0 off ltac:(lia) Ea)
    as (Hoff & Hin & Himg & Hsame & Hshape).
  assert (Hinv : SpecX.frame_inv false mod0 off st).
  { refine (loop_invariant ks false (SpecX.frame_inv false mod0 off)
              (SpecX.frame_ok false mod0 need)
              (frame_ok_prefix false mod0 need)
              (frame_step ks false mod0 off need Hoff Hin) hooks _ st _ Hrun _).
    - unfold SpecX.frame_inv. simpl. repeat split; auto.
      unfold Inline.per_tramp, Py.len. simpl. lia.
    - split; [discriminate | exact Hfit]. }
  destruct Hinv as (Hlen & _ & Hout). split.
  - rewrite Hlen. unfold Inline.alloc_arena in Ea.
    destruct (Inline.find_code_cave image need <? 0); injection Ea as <- <-;
      [|reflexivity].
    rewrite len_app, len_repeat. lia.
  - intros p Hp Hslot. rewrite Hout; [| lia | exact Hslot | discriminate].
    destruct (Z.ltb_spec p (Py.len image)) as [Hlt|Hge]; [apply Hsame; lia|].
    destruct Hshape as [Hl | [_ ->]]; [lia|].
    unfold Spec.byte_at. rewrite app_nth2 by (unfold Py.len in Hge; lia).
    apply nth_repeat.
Qed.

(** X1 at a concrete run: one hook at offset 0 of the 120-byte image, whose
    trampoline is written at offset 24; byte 3 of the site is unchanged. *)
Lemma X1_witness :
  exists st,
    Inline.main_loop Fixtures.arm_abs_jump false Fixtures.image1
      [("h"%string, Fixtures.spec_addr 0)] = Ok st /\
    Spec.byte_at (Inline.mod_ st) 3 = Spec.byte_at Fixtures.image1 3.
Proof.
  destruct (Inline.main_loop Fixtures.arm_abs_jump false Fixtures.image1
              [("h"%string, Fixtures.spec_addr 0)]) as [st|e] eqn:E;
    [|vm_compute in E; discriminate E].
  exists st. split; [reflexivity|].
  pose proof (InlineRun.main_loop_rows _ _ _ _ _ E) as (_ & Hrows & _).
  assert (Hrows' : Inline.rows st
                   = [ {| Inline.name := "h"; Inline.site_off := 0;
                          Inline.tramp_off := 24; Inline.guard_bytes := [];
                          Inline.guard_len := 0 |} ])
    by (rewrite Hrows; reflexivity).
  destruct (X1_inline_sites_untouched Fixtures.arm_abs_jump Fixtures.image1
              [("h"%string, Fixtures.spec_addr 0)] st E) as [Hlen Hb].
  apply (Hb 3).
  - rewrite Hlen. vm_compute. split; [discriminate | reflexivity].
  - rewrite Hrows'. intros r [<- | []]. left. vm_compute. reflexivity.
Defined.

(** X2. With [--patch-sites], when the eight-byte window of every recorded
    site ends inside the buffer, the written image has the length of that
    buffer and differs from it only inside the trampoline windows and
    inside the windows of the recorded sites, overlapping sites included. *)
Theorem X2_inline_patched_frame ks image hooks st :
  Inline.main_loop ks true image hooks = Ok st ->
  let need := Inline.arena_need hooks in
  let mod0 := fst (Inline.alloc_arena image need) in
  (forall r, In r (Inline.rows st) -> Inline.site_off r + 8 <= Py.len mod0) ->
  Py.len (Inline.mod_ st) = Py.len mod0 /\
  forall p, 0 <= p < Py.len (Inline.mod_ st) ->
    (forall r, In r (Inline.rows st) ->
       p < Inline.tramp_off r \/ Inline.tramp_off r + 16 <= p) ->
    (forall r, In r (Inline.rows st) ->
       p < Inline.site_off r \/ Inline.site_off r + 8 <= p) ->
    Spec.byte_at (Inline.mod_ st) p
    = if p <? Py.len image then Spec.byte_at image p else x00.
Proof.
  intros Hrun need mod0 Hsites.
  pose proof (rows_fit ks true image hooks st Hrun) as Hfit.
  pose proof (arena_need_min hooks) as Hneed. fold need in Hneed, Hfit.
  unfold Inline.main_loop in Hrun. subst mod0. fold need in Hrun.
  destruct (Inline.alloc_arena image need) as [mod0 off] eqn:Ea.
  simpl in Hsites |- *.
  destruct (alloc_geometry image need mod0 off ltac:(lia) Ea)
    as (Hoff & Hin & Himg & Hsame & Hshape).
  assert (Hinv : SpecX.frame_inv true mod0 off st).
  { refine (loop_invariant ks true (SpecX.frame_inv true mod0 off)
              (SpecX.frame_ok true mod0 need)
              (frame_ok_prefix true mod0 need)
              (frame_step ks true mod0 off need Hoff Hin) hooks _ st _ Hrun _).
    - unfold SpecX.frame_inv. simpl. repeat split; auto.
      unfold Inline.per_tramp, Py.len. simpl. lia.
    - split; [intros _; exact Hsites | exact Hfit]. }
  destruct Hinv as (Hlen & _ & Hout). split; [exact Hlen|].
  intros p Hp Hslot Hwin.
  rewrite Hout; [| lia | exact Hslot | intros _; exact Hwin].
  destruct (Z.ltb_spec p (Py.len image)) as [Hlt|Hge]; [apply Hsame; lia|].
  destruct Hshape as [Hl | [_ ->]]; [lia|].
  unfold Spec.byte_at. rewrite app_nth2 by (unfold Py.len in Hge; lia).
  apply nth_repeat.
Qed.

(** X2 at a concrete run: sites 0 and 4 overlap, yet byte 12, outside both
    windows and outside the trampolines, is unchanged. *)
Lemma X2_witness :
  exists st,
    Inline.main_loop Fixtures.arm_abs_jump true Fixtures.image1
      [("h"%string, Fixtures.spec_addrs [0; 4])] = Ok st /\
    Spec.byte_at (Inline.mod_ st) 12 = Spec.byte_at Fixtures.image1 12.
Proof.
  destruct (Inline.main_loop Fixtures.arm_abs_jump true Fixtures.image1
              [("h"%string, Fixtures.spec_addrs [0; 4])]) as [st|e] eqn:E;
    [|vm_compute in E; discriminate E].
  exists st. split; [reflexivity|].
  pose proof (InlineRun.main_loop_rows _ _ _ _ _ E) as (_ & Hrows & _).
  assert (Hrows' : Inline.rows st
                   = [ {| Inline.name := "h"; Inline.site_off := 0;
                          Inline.tramp_off := 120; Inline.guard_bytes := [];
                          Inline.guard_len := 0 |};
                       {| Inline.name := "h"; Inline.site_off := 4;
                          Inline.tramp_off := 216; Inline.guard_bytes := [];
                          Inline.guard_len := 0 |} ])
    by (rewrite Hrows; reflexivity).
  destruct (X2_inline_patched_frame Fixtures.arm_abs_jump Fixtures.image1
              [("h"%string, Fixtures.spec_addrs [0; 4])] st E
              ltac:(rewrite Hrows'; intros r [<- | [<- | []]]; vm_compute;
                    discriminate)) as [Hlen Hb].
  apply (Hb 12).
  - rewrite Hlen. vm_compute. split; [discriminate | reflexivity].
  - rewrite Hrows'. intros r [<- | [<- | []]]; left; vm_compute; reflexivity.
  - rewrite Hrows'. intros r [<- | [<- | []]]; right; vm_compute; discriminate.
Defined.

(** X3. The trampoline slots of a run of [make_inline.py]: the arena lies
    inside the buffer the loop starts from, the row with index [i] has its
    trampoline [0x60 * i] bytes past the start of the arena, and its whole
    slot ends inside the arena, whatever the hooks resolve to. *)
Theorem X3_inline_slots ks ps image hooks st :
  Inline.main_loop ks ps image hooks = Ok st ->
  let need := Inline.arena_need hooks in
  let mod0 := fst (Inline.alloc_arena image need) in
  let off := snd (Inline.alloc_arena image need) in
  (0 <= off /\ off + need <= Py.len mod0) /\
  forall (i : nat) r, nth_error (Inline.rows st) i = Some r ->
    Inline.tramp_off r = off + Inline.per_tramp * Z.of_nat i /\
    Inline.tramp_off r + Inline.per_tramp <= off + need.
Proof.
  intros Hrun need mod0 off.
  pose proof (rows_fit ks ps image hooks st Hrun) as Hfit.
  pose proof (arena_need_min hooks) as Hneed. fold need in Hneed, Hfit.
  pose proof (InlineRun.main_loop_rows ks ps image hooks st Hrun) as (_ & Hrows & _).
  fold need in Hrows. fold off in Hrows. split.
  - subst mod0 off. destruct (Inline.alloc_arena image need) as [m o] eqn:Ea.
    destruct (alloc_geometry image need m o ltac:(lia) Ea) as (H1 & H2 & _).
    simpl. lia.
  - intros i r Hi.
    assert (Hlt : (i < length (Inline.rows st))%nat).
    { apply nth_error_Some. congruence. }
    rewrite Hrows in Hi. apply mk_rows_nth in Hi.
    unfold Inline.per_tramp, Py.len in *. lia.
Qed.

(** X3 at a concrete run: the second site of the hook gets the slot 96
    bytes after the first one. *)
Lemma X3_witness :
  exists st r,
    Inline.main_loop Fixtures.arm_abs_jump true Fixtures.image1
      [("h"%string, Fixtures.spec_addrs [0; 8])] = Ok st /\
    nth_error (Inline.rows st) 1 = Some r /\
    Inline.tramp_off r = 120 + Inline.per_tramp * 1.
Proof.
  destruct (Inline.main_loop Fixtures.arm_abs_jump true Fixtures.image1
              [("h"%string, Fixtures.spec_addrs [0; 8])]) as [st|e] eqn:E;
    [|vm_compute in E; discriminate E].
  pose proof (InlineRun.main_loop_rows _ _ _ _ _ E) as (_ & Hrows & _).
  destruct (nth_error (Inline.rows st) 1) as [r|] eqn:Er;
    [|rewrite Hrows in Er; vm_compute in Er; discriminate Er].
  exists st, r. split; [reflexivity|]. split; [exact Er|].
  exact (proj1 (proj2 (X3_inline_slots Fixtures.arm_abs_jump true Fixtures.image1
                         [("h"%string, Fixtures.spec_addrs [0; 8])] st E) 1%nat r Er)).
Defined.

(** X4. In a run of [make_inline.py] whose recorded sites lie inside the
    input, outside the arena and clear of one another, the written image is
    wired as the plugin expects: bytes 8-15 of every trampoline are the jump
    to the resume address [CODE_BASE + site + 8], assembled for the offset
    [tramp_off + 8], and with [--patch-sites] the eight bytes at every site
    are the jump to [CODE_BASE + tramp_off], assembled for the site. *)
Theorem X4_inline_wiring ks ps image hooks st :
  Inline.main_loop ks ps image hooks = Ok st ->
  Spec.sites_clear (Py.len image)
    (snd (Inline.alloc_arena image (Inline.arena_need hooks)))
    (Inline.arena_need hooks) (Inline.rows st) ->
  forall r, In r (Inline.rows st) ->
    Inline.asm_abs_jump_va ks (Inline.CODE_BASE + (Inline.site_off r + 8))
                           (Inline.tramp_off r + 8)
    = Ok (Py.slice (Inline.mod_ st) (Inline.tramp_off r + 8)
                   (Inline.tramp_off r + 16)) /\
    (ps = true ->
     Inline.asm_abs_jump_va ks (Inline.CODE_BASE + Inline.tramp_off r)
                            (Inline.site_off r)
     = Ok (Py.slice (Inline.mod_ st) (Inline.site_off r) (Inline.site_off r + 8))).
Proof.
  intros Hrun Hclear.
  pose proof (rows_fit ks ps image hooks st Hrun) as Hslots.
  pose proof (arena_need_min hooks) as Hneed.
  unfold Inline.main_loop in Hrun.
  destruct (Inline.alloc_arena image (Inline.arena_need hooks)) as [mod0 off] eqn:Ea.
  simpl in Hclear.
  destruct (alloc_geometry image (Inline.arena_need hooks) mod0 off ltac:(lia) Ea)
    as (Hoff & Hfit & Hlim & _).
  assert (Hinv : SpecX.wired_inv ks ps mod0 off (Inline.arena_need hooks) st).
  { refine (loop_invariant ks ps
              (SpecX.wired_inv ks ps mod0 off (Inline.arena_need hooks))
              (SpecX.wired_ok (Py.len image) off (Inline.arena_need hooks))
              (wired_ok_prefix (Py.len image) off (Inline.arena_need hooks))
              (wired_step ks ps mod0 off (Inline.arena_need hooks) (Py.len image)
                 Hoff Hfit Hlim) hooks _ st _ Hrun _).
    - split; [|intros r []].
      unfold Spec.inline_inv. simpl. repeat split; try tauto.
      unfold Py.len. simpl. lia.
    - split; assumption. }
  destruct Hinv as [_ Hw]. intros r Hr. exact (Hw r Hr).
Qed.

(** X4 at a concrete run: with [--patch-sites], the site at offset 8 holds
    the jump to its trampoline at offset 216. *)
Lemma X4_witness :
  exists st,
    Inline.main_loop Fixtures.arm_abs_jump true Fixtures.image1
      [("h"%string, Fixtures.spec_addrs [0; 8])] = Ok st /\
    Inline.asm_abs_jump_va Fixtures.arm_abs_jump (Inline.CODE_BASE + 216) 8
    = Ok (Py.slice (Inline.mod_ st) 8 16).
Proof.
  destruct (Inline.main_loop Fixtures.arm_abs_jump true Fixtures.image1
              [("h"%string, Fixtures.spec_addrs [0; 8])]) as [st|e] eqn:E;
    [|vm_compute in E; discriminate E].
  exists st. split; [reflexivity|].
  pose proof (InlineRun.main_loop_rows _ _ _ _ _ E) as (_ & Hrows & _).
  assert (Hrows' : Inline.rows st
                   = [ {| Inline.name := "h"; Inline.site_off := 0;
                          Inline.tramp_off := 120; Inline.guard_bytes := [];
                          Inline.guard_len := 0 |};
                       {| Inline.name := "h"; Inline.site_off := 8;
                          Inline.tramp_off := 216; Inline.guard_bytes := [];
                          Inline.guard_len := 0 |} ])
    by (rewrite Hrows; reflexivity).
  refine (proj2 (X4_inline_wiring Fixtures.arm_abs_jump true Fixtures.image1
                   [("h"%string, Fixtures.spec_addrs [0; 8])] st E _
                   {| Inline.name := "h"; Inline.site_off := 8;
                      Inline.tramp_off := 216; Inline.guard_bytes := [];
                      Inline.guard_len := 0 |} _) eq_refl).
  - rewrite Hrows'. split.
    + intros r [<- | [<- | []]]; vm_compute; intuition discriminate.
    + vm_compute. intuition (subst; discriminate).
  - rewrite Hrows'. right. left. reflexivity.
Defined.

(** X5. [make_inline.py] has no bounds check on an explicit address. For a
    single hook whose address lies at or past the end of the buffer (its
    guard, if it has one, parses), what the run does depends on the
    assembler alone. When the assembler returns eight bytes for the jump
    back and for the detour, the run succeeds: the trampoline holds no
    stolen byte, only the jump back (assembled for the start of the slot),
    and with [--patch-sites] the detour is appended to the image, which
    grows by eight bytes; the site and its slot are recorded. When the
    assembler fails for either jump (it raises, or returns another number
    of bytes), the run aborts with that error. *)
Theorem X5_inline_site_past_end ks image nm spec site :
  addr spec = AddrOne (AInt site) ->
  (forall g, Py.truthy (guard spec) = Some g ->
     exists pm, Inline.aob_to_pat_mask g = Ok pm) ->
  let need := Inline.arena_need [(nm, spec)] in
  let mod0 := fst (Inline.alloc_arena image need) in
  let off := snd (Inline.alloc_arena image need) in
  Py.len mod0 <= site ->
  (forall j d,
     Inline.asm_abs_jump_va ks (Inline.CODE_BASE + (site + 8)) off = Ok j ->
     Inline.asm_abs_jump_va ks (Inline.CODE_BASE + off) site = Ok d ->
     exists st,
       Inline.main_loop ks true image [(nm, spec)] = Ok st /\
       Inline.mod_ st = Py.slice_assign mod0 off (off + 8) j ++ d /\
       Py.len (Inline.mod_ st) = Py.len mod0 + 8 /\
       map Inline.site_off (Inline.rows st) = [site] /\
       map Inline.tramp_off (Inline.rows st) = [off]) /\
  (forall e,
     Inline.asm_abs_jump_va ks (Inline.CODE_BASE + (site + 8)) off = Fatal e ->
     Inline.main_loop ks true image [(nm, spec)] = Fatal e) /\
  (forall j e,
     Inline.asm_abs_jump_va ks (Inline.CODE_BASE + (site + 8)) off = Ok j ->
     Inline.asm_abs_jump_va ks (Inline.CODE_BASE + off) site = Fatal e ->
     Inline.main_loop ks true image [(nm, spec)] = Fatal e).
Proof.
  intros Haddr Hguard need mod0 off Hsite.
  pose proof (arena_need_min [(nm, spec)]) as Hneed. fold need in Hneed.
  unfold Inline.main_loop. subst mod0 off. fold need.
  destruct (Inline.alloc_arena image need) as [mod0 off] eqn:Ea.
  simpl in Hsite |- *.
  destruct (alloc_geometry image need mod0 off ltac:(lia) Ea)
    as (Hoff & Hfit & _).
  pose proof (len_nonneg mod0) as Hm0.
  unfold Inline.hook_step, Inline.targets. simpl. rewrite Haddr. simpl.
  unfold Inline.site_step, Inline.resolve. simpl.
  destruct (Z.ltb_spec site 0); [lia|]. simpl.
  assert (Hg : exists g, Inline.guard_snapshot
                 {| Inline.buf := image; Inline.mod_ := mod0; Inline.cur := off;
                    Inline.rows := []; Inline.hook_ids := [] |} spec site = Ok g).
  { unfold Inline.guard_snapshot. destruct (Py.truthy (guard spec)) as [g|] eqn:Et.
    - destruct (Hguard g eq_refl) as [pm ->]. simpl. eauto.
    - eauto. }
  destruct Hg as [g ->]. simpl.
  unfold Inline.build_tramp, Inline.STOLEN_SIZE. simpl.
  rewrite slice_beyond by lia.
  change (Py.len (@nil byte)) with 0. rewrite Z.add_0_r.
  split; [|split].
  - intros j d Ej Ed. rewrite Ej. simpl.
    pose proof (asm_len _ _ _ _ Ej) as Hj. rewrite Hj.
    rewrite Ed. simpl.
    pose proof (asm_len _ _ _ _ Ed) as Hd. rewrite Hd. simpl.
    eexists. split; [reflexivity|]. simpl.
    assert (L1 : Py.len (Py.slice_assign mod0 off (off + 8) j) = Py.len mod0).
    { rewrite <- Hj at 1. apply slice_assign_len; lia. }
    rewrite slice_assign_beyond by lia.
    split; [reflexivity|]. rewrite len_app.
    split; [lia|]. split; reflexivity.
  - intros e Ej. rewrite Ej. reflexivity.
  - intros j e Ej Ed. rewrite Ej. simpl.
    pose proof (asm_len _ _ _ _ Ej) as Hj. rewrite Hj.
    rewrite Ed. reflexivity.
Qed.

(** X5 at a concrete run: the address 4096 lies far beyond the 120-byte
    image; the written image has 128 bytes. *)
Lemma X5_witness :
  exists st,
    Inline.main_loop Fixtures.arm_abs_jump true Fixtures.image1
      [("h"%string, Fixtures.spec_addr 4096)] = Ok st /\
    Py.len (Inline.mod_ st) = 128 /\
    map Inline.site_off (Inline.rows st) = [4096].
Proof.
  destruct (proj1 (X5_inline_site_past_end Fixtures.arm_abs_jump Fixtures.image1
              "h"%string (Fixtures.spec_addr 4096) 4096 eq_refl
              ltac:(intros g Hg; vm_compute in Hg; discriminate Hg)
              ltac:(vm_compute; discriminate))
              _ _ eq_refl eq_refl) as (st & Hrun & _ & Hlen & Hsites & _).
  exists st. split; [exact Hrun|]. split; [exact Hlen | exact Hsites].
Defined.

(** ** The image and the files written by [make_bps.py] *)

Import BpsFacts BpsFrame.

(** X6. The trampoline slots of a run of [make_bps.py] that enters the hook
    loop: the arena lies inside the image, the record with index [i] has
    its trampoline [0x40 * i] bytes past the start of the arena with the
    whole slot inside the arena, its resume offset is ten bytes past its
    site, and its [stolen_len] is 10 whatever the site is. *)
Theorem X6_bps_slots kd kb image hooks st :
  BPS.main_loop kd kb image hooks = Ok st ->
  let total := BPS.arena_total hooks in
  let off := BPS.find_code_cave image total None in
  (0 <= off /\ off + total <= Py.len image) /\
  forall (i : nat) r, nth_error (BPS.hook_records st) i = Some r ->
    BPS.tramp_off r = off + BPS.arena_need_each * Z.of_nat i /\
    BPS.tramp_off r + BPS.arena_need_each <= off + total /\
    BPS.resume_off r = BPS.site_off r + 10 /\
    BPS.stolen_len r = 10.
Proof.
  intros Hrun total off.
  pose proof (records_fit kd kb image hooks st Hrun) as Hfit. fold total in Hfit.
  destruct (bps_arena_inside kd kb image hooks st Hrun) as (H0 & H1 & _).
  fold total in H0, H1. fold off in H0, H1.
  pose proof (BPSRun.main_loop_records kd kb image hooks st Hrun) as (_ & Hrec).
  fold total in Hrec. fold off in Hrec.
  split; [split; assumption|].
  intros i r Hi.
  assert (Hlt : (i < length (BPS.hook_records st))%nat).
  { apply nth_error_Some. congruence. }
  rewrite Hrec in Hi. apply mk_records_nth in Hi as (T & R & S).
  repeat split; try assumption.
  unfold BPS.arena_need_each, Py.len in *. lia.
Qed.

(** X6 at a concrete run: two hooks on the 256-byte image; the second
    record has its trampoline 64 bytes after the first. *)
Lemma X6_witness :
  exists st r,
    BPS.main_loop Fixtures.thumb_detour Fixtures.stub_bw Fixtures.image3
      [("a"%string, Fixtures.spec_addr 0); ("b"%string, Fixtures.spec_addr 4)]
    = Ok st /\
    nth_error (BPS.hook_records st) 1 = Some r /\
    BPS.tramp_off r = 128 + BPS.arena_need_each * 1.
Proof.
  destruct (BPS.main_loop Fixtures.thumb_detour Fixtures.stub_bw Fixtures.image3
              [("a"%string, Fixtures.spec_addr 0); ("b"%string, Fixtures.spec_addr 4)])
    as [st|e] eqn:E; [|vm_compute in E; discriminate E].
  pose proof (BPSRun.main_loop_records _ _ _ _ _ E) as (_ & Hrec).
  destruct (nth_error (BPS.hook_records st) 1) as [r|] eqn:Er;
    [|rewrite Hrec in Er; vm_compute in Er; discriminate Er].
  exists st, r. split; [reflexivity|]. split; [exact Er|].
  exact (proj1 (proj2 (X6_bps_slots Fixtures.thumb_detour Fixtures.stub_bw
                         Fixtures.image3 _ st E) 1%nat r Er)).
Defined.

(** X7. The trampoline of [make_bps.py] is the stolen bytes, NOP padding,
    then the branch, whose displacement is taken from the end of the
    padding. With ten stolen bytes the padding is one 16-bit NOP. The
    padded length is a multiple of four exactly when the number of stolen
    bytes is even: an odd number of stolen bytes (a site less than ten
    bytes before the end of the buffer) is padded by four bytes and stays
    odd. *)
Theorem X7_bps_trampoline_layout kb st site tramp :
  BPS.build_tramp kb st site = Ok tramp ->
  let stolen := Py.slice (BPS.mod_ st) site (site + 10) in
  exists pad enc,
    tramp = stolen ++ pad ++ enc /\
    kb (site + 10 - (BPS.arena_cur st + Py.len stolen + Py.len pad + 4))
       (Z.lor (BPS.arena_cur st) 1) = Some enc /\
    (Py.len stolen = 10 -> pad = BPS.NOP16) /\
    (Z.odd (Py.len stolen) = true -> pad = BPS.NOP16 ++ BPS.NOP16) /\
    ((Py.len stolen + Py.len pad) mod 4 = 0 <-> Z.even (Py.len stolen) = true).
Proof.
  unfold BPS.build_tramp. cbv zeta.
  set (stolen := Py.slice (BPS.mod_ st) site (site + 10)).
  pose proof (len_nonneg stolen) as Hn.
  assert (H1 : Z.land (Py.len stolen) 1 = Py.len stolen mod 2)
    by (change 1 with (Z.ones 1); rewrite Z.land_ones by lia; reflexivity).
  rewrite H1.
  destruct (Z.eqb_spec (Py.len stolen mod 2) 0) as [Heven|Hodd]; simpl negb; cbv iota.
  - assert (H3 : Z.land (Py.len stolen) 3 = Py.len stolen mod 4)
      by (change 3 with (Z.ones 2); rewrite Z.land_ones by lia; reflexivity).
    rewrite H3.
    assert (Hev : Z.even (Py.len stolen) = true)
      by (rewrite Zeven_mod, Heven; reflexivity).
    assert (Hod : Z.odd (Py.len stolen) = false)
      by (rewrite <- Z.negb_even, Hev; reflexivity).
    destruct (Z.eqb_spec (Py.len stolen mod 4) 0) as [H4|H4]; simpl negb; cbv iota.
    + destruct (kb _ _) as [enc|] eqn:E; [|discriminate].
      intros H. injection H as <-. exists [], enc.
      change (Py.len (@nil byte)) with 0. rewrite !Z.add_0_r.
      split; [reflexivity|]. split; [exact E|].
      split; [intros H10; rewrite H10 in H4; vm_compute in H4; discriminate|].
      split; [congruence|]. split; [intros _; exact Hev | intros _; exact H4].
    + rewrite len_app. change (Py.len BPS.NOP16) with 2.
      destruct (kb _ _) as [enc|] eqn:E; [|discriminate].
      intros H. injection H as <-. exists BPS.NOP16, enc.
      change (Py.len BPS.NOP16) with 2.
      split; [now rewrite <- app_assoc|].
      split; [rewrite <- E; f_equal; lia|].
      split; [reflexivity|]. split; [congruence|].
      split; [intros _; exact Hev|]. intros _.
      clear - Heven H4 Hn. Z.div_mod_to_equations. lia.
  - rewrite len_app. change (Py.len BPS.NOP16) with 2.
    assert (H3 : Z.land (Py.len stolen + 2) 3 = (Py.len stolen + 2) mod 4)
      by (change 3 with (Z.ones 2); rewrite Z.land_ones by lia; reflexivity).
    rewrite H3.
    assert (Hev : Z.even (Py.len stolen) = false).
    { rewrite Zeven_mod. destruct (Z.eqb_spec (Py.len stolen mod 2) 0); congruence. }
    assert (Hod : Z.odd (Py.len stolen) = true)
      by (rewrite <- Z.negb_even, Hev; reflexivity).
    destruct (Z.eqb_spec ((Py.len stolen + 2) mod 4) 0) as [H4|H4]; simpl negb; cbv iota.
    { exfalso. clear - Hodd H4 Hn. Z.div_mod_to_equations. lia. }
    rewrite !len_app. change (Py.len BPS.NOP16) with 2.
    destruct (kb _ _) as [enc|] eqn:E; [|discriminate].
    intros H. injection H as <-. exists (BPS.NOP16 ++ BPS.NOP16), enc.
    change (Py.len (BPS.NOP16 ++ BPS.NOP16)) with 4.
    split; [now rewrite <- !app_assoc|].
    split; [rewrite <- E; f_equal; lia|].
    split; [intros H10; rewrite H10 in Hodd; vm_compute in Hodd; congruence|].
    split; [reflexivity|].
    split; [|congruence]. intros Hm. exfalso.
    clear - Hodd Hm Hn. Z.div_mod_to_equations. lia.
Qed.

(** X7 at a concrete state: ten stolen bytes, one NOP, four branch bytes. *)
Lemma X7_witness :
  exists tramp,
    BPS.build_tramp Fixtures.stub_bw (Spec.bps_pristine Fixtures.image3) 0 = Ok tramp /\
    Py.len tramp = 16.
Proof.
  destruct (BPS.build_tramp Fixtures.stub_bw (Spec.bps_pristine Fixtures.image3) 0)
    as [tramp|e] eqn:E; [|vm_compute in E; discriminate E].
  exists tramp. split; [reflexivity|].
  destruct (X7_bps_trampoline_layout Fixtures.stub_bw
              (Spec.bps_pristine Fixtures.image3) 0 tramp E)
    as (pad & enc & -> & Henc & Hpad & _).
  rewrite (Hpad eq_refl) in *. vm_compute in Henc. injection Henc as <-.
  reflexivity.
Defined.

(** X8. When the branch encoder's output fits the slot and the ten-byte
    window of every recorded site lies inside the image, the image patched
    by [make_bps.py] has the length of the base image and differs from it
    only inside the slots of the records and inside the windows of the
    recorded sites. *)
Theorem X8_bps_frame kd kb image hooks st :
  SpecX.branch_fits kb ->
  BPS.main_loop kd kb image hooks = Ok st ->
  (forall r, In r (BPS.hook_records st) ->
     0 <= BPS.site_off r /\ BPS.site_off r + 10 <= Py.len image) ->
  Py.len (BPS.mod_ st) = Py.len image /\
  forall p, 0 <= p ->
    (forall r, In r (BPS.hook_records st) ->
       p < BPS.tramp_off r \/ BPS.tramp_off r + BPS.arena_need_each <= p) ->
    (forall r, In r (BPS.hook_records st) ->
       p < BPS.site_off r \/ BPS.site_off r + 10 <= p) ->
    Spec.byte_at (BPS.mod_ st) p = Spec.byte_at image p.
Proof.
  intros Hkb Hrun Hsites.
  pose proof (records_fit kd kb image hooks st Hrun) as Hfit.
  destruct (bps_arena_inside kd kb image hooks st Hrun) as (H0 & H1 & Hfold).
  set (total := BPS.arena_total hooks) in *.
  set (off := BPS.find_code_cave image total None) in *.
  assert (Hinv : SpecX.bps_frame_inv image off st).
  { refine (bps_loop_invariant kd kb (SpecX.bps_frame_inv image off)
              (SpecX.bps_frame_ok image total)
              (bps_frame_ok_prefix image total)
              (bps_frame_step kd kb image off total Hkb H0 H1) hooks _ st _ Hfold _).
    - unfold SpecX.bps_frame_inv. simpl. repeat split; auto.
      unfold BPS.arena_need_each, Py.len. simpl. lia.
    - split; assumption. }
  destruct Hinv as (Hlen & _ & Hout). split; [exact Hlen|]. exact Hout.
Qed.

(** X8 at a concrete run: the windows of the sites 0 and 4 overlap, yet
    byte 15, outside both and outside the slots, is unchanged. *)
Lemma X8_witness :
  exists st,
    BPS.main_loop Fixtures.thumb_detour Fixtures.stub_bw Fixtures.image3
      [("a"%string, Fixtures.spec_addr 0); ("b"%string, Fixtures.spec_addr 4)]
    = Ok st /\
    Spec.byte_at (BPS.mod_ st) 15 = Spec.byte_at Fixtures.image3 15.
Proof.
  destruct (BPS.main_loop Fixtures.thumb_detour Fixtures.stub_bw Fixtures.image3
              [("a"%string, Fixtures.spec_addr 0); ("b"%string, Fixtures.spec_addr 4)])
    as [st|e] eqn:E; [|vm_compute in E; discriminate E].
  exists st. split; [reflexivity|].
  pose proof (BPSRun.main_loop_records _ _ _ _ _ E) as (_ & Hrec).
  assert (Hrec' : BPS.hook_records st
                  = [ {| BPS.name := "a"; BPS.site_off := 0; BPS.tramp_off := 128;
                         BPS.resume_off := 10; BPS.stolen_len := 10 |};
                      {| BPS.name := "b"; BPS.site_off := 4; BPS.tramp_off := 192;
                         BPS.resume_off := 14; BPS.stolen_len := 10 |} ])
    by (rewrite Hrec; reflexivity).
  assert (Hkb : SpecX.branch_fits Fixtures.stub_bw).
  { intros delta origin enc H. unfold Fixtures.stub_bw in H. injection H as <-.
    vm_compute. discriminate. }
  apply (proj2 (X8_bps_frame Fixtures.thumb_detour Fixtures.stub_bw Fixtures.image3
                  [("a"%string, Fixtures.spec_addr 0); ("b"%string, Fixtures.spec_addr 4)]
                  st Hkb E
                  ltac:(rewrite Hrec'; intros r [<- | [<- | []]]; vm_compute;
                        split; discriminate)) 15).
  - discriminate.
  - rewrite Hrec'. intros r [<- | [<- | []]]; left; vm_compute; reflexivity.
  - rewrite Hrec'. intros r [<- | [<- | []]]; right; vm_compute; discriminate.
Defined.

(** X9. [make_bps.py] writes to four paths only: [build/code_mod.bin],
    [patch/code.bps], [build/code_mod_verify.bin] and the staged copy of the
    patch. Every other file, the base image among them when it is not one of
    the four, is as it was, whether the run succeeds or fails. *)
Theorem X9_bps_other_files kd kb found create apply
    (fs : gmap string (list byte)) base hooks path :
  path <> BPS.out_mod -> path <> BPS.out_bps ->
  path <> BPS.verify -> path <> BPS.staged_bps ->
  fst (BPS.main kd kb found create apply fs base hooks) !! path = fs !! path.
Proof.
  intros H1 H2 H3 H4. unfold BPS.main.
  destruct (fs !! base) as [image|]; [|reflexivity].
  destruct (BPS.main_loop kd kb image hooks) as [st|e]; [|reflexivity].
  unfold BPS.emit, BPS.flips_create_bps, BPS.flips_apply_bps. cbv zeta.
  repeat (match goal with
          | |- context [match ?x with _ => _ end] =>
              match x with
              | context [match _ with _ => _ end] => fail 1
              | _ => destruct x eqn:?
              end
          end; simpl fst; simpl snd);
    rewrite ?lookup_insert_ne by congruence; reflexivity.
Qed.

(** X9 at a concrete file store: an unrelated file survives a run. *)
Lemma X9_witness :
  fst (BPS.main Fixtures.thumb_detour Fixtures.stub_bw true
         Fixtures.whole_file_create Fixtures.whole_file_apply
         (<["notes.txt"%string := [x01]]> Fixtures.disk1) "code.bin"%string
         [("a"%string, Fixtures.spec_addr 0)]) !! "notes.txt"%string
  = (<["notes.txt"%string := [x01]]> Fixtures.disk1) !! "notes.txt"%string.
Proof.
  apply X9_bps_other_files; discriminate.
Defined.

(** X10. Once the hook loop of [make_bps.py] has succeeded, the patched
    image is written to [build/code_mod.bin] before anything can fail: it is
    there at the end of the run whatever FLIPS does; and when FLIPS is not
    found the run fails and nothing else has been written. *)
Theorem X10_bps_image_written_first kd kb found create apply
    (fs : gmap string (list byte)) base hooks image st :
  fs !! base = Some image ->
  BPS.main_loop kd kb image hooks = Ok st ->
  let res := BPS.main kd kb found create apply fs base hooks in
  fst res !! BPS.out_mod = Some (BPS.mod_ st) /\
  (found = false -> res = (<[BPS.out_mod := BPS.mod_ st]> fs, Fatal FlipsMissing)).
Proof.
  intros Hbase Hrun res. subst res. unfold BPS.main. rewrite Hbase, Hrun.
  split.
  - unfold BPS.emit, BPS.flips_create_bps, BPS.flips_apply_bps. cbv zeta.
    repeat (match goal with
            | |- context [match ?x with _ => _ end] =>
                match x with
                | context [match _ with _ => _ end] => fail 1
                | _ => destruct x eqn:?
                end
            end; simpl fst; simpl snd);
      rewrite ?lookup_insert_ne by discriminate; apply lookup_insert_eq.
  - intros ->. reflexivity.
Qed.

(** X10 at a concrete run without FLIPS. *)
Lemma X10_witness :
  exists st,
    BPS.main_loop Fixtures.thumb_detour Fixtures.stub_bw Fixtures.image1
      [("a"%string, Fixtures.spec_addr 0)] = Ok st /\
    fst (BPS.main Fixtures.thumb_detour Fixtures.stub_bw false
           Fixtures.whole_file_create Fixtures.whole_file_apply
           Fixtures.disk1 "code.bin"%string
           [("a"%string, Fixtures.spec_addr 0)]) !! BPS.out_mod
    = Some (BPS.mod_ st).
Proof.
  destruct (BPS.main_loop Fixtures.thumb_detour Fixtures.stub_bw Fixtures.image1
              [("a"%string, Fixtures.spec_addr 0)]) as [st|e] eqn:E;
    [|vm_compute in E; discriminate E].
  exists st. split; [reflexivity|].
  refine (proj1 (X10_bps_image_written_first Fixtures.thumb_detour Fixtures.stub_bw
                   false Fixtures.whole_file_create Fixtures.whole_file_apply
                   Fixtures.disk1 "code.bin"%string
                   [("a"%string, Fixtures.spec_addr 0)] Fixtures.image1 st _ E)).
  vm_compute. reflexivity.
Defined.

(** ** The pattern parsers *)

Import ParseFacts.

(** X11. Every mask byte [aob_to_pat_mask] of [make_inline.py] produces is
    0x00, 0x0F, 0xF0 or 0xFF, pattern and mask have one byte per token, and
    a pattern byte has no bit set outside its mask (a wildcard nibble is
    stored as zero). *)
Theorem X11_inline_mask_shapes s pat msk :
  Inline.aob_to_pat_mask s = Ok (pat, msk) ->
  length pat = length (Inline.tokens s) /\
  length msk = length (Inline.tokens s) /\
  forall k : nat, (k < length pat)%nat ->
    SpecX.nibble_mask (nth k msk x00) /\
    Py.band (nth k pat x00) (nth k msk x00) = Py.b2z (nth k pat x00).
Proof.
  unfold Inline.aob_to_pat_mask.
  destruct (omap _ _) as [vms|e] eqn:Em; simpl; [|discriminate].
  intros E. injection E as <- <-. apply omap_ok in Em.
  rewrite !length_map. rewrite (Forall2_length _ _ _ Em).
  split; [reflexivity|]. split; [reflexivity|].
  induction Em as [|t [v m] ts vms Ht _ IH]; intros k Hk; simpl in Hk; [lia|].
  destruct k as [|k]; simpl.
  - exact (inline_token_shape t v m Ht).
  - apply IH. lia.
Qed.

(** X11 at a concrete pattern with a high-nibble wildcard. *)
Lemma X11_witness :
  SpecX.nibble_mask (nth 1 [xff; x0f] x00) /\
  Py.band (nth 1 [x12; x0a] x00) (nth 1 [xff; x0f] x00) = Py.b2z (nth 1 [x12; x0a] x00).
Proof.
  apply (proj2 (proj2 (X11_inline_mask_shapes "12 ?A" [x12; x0a] [xff; x0f] eq_refl))
           1%nat).
  simpl. lia.
Defined.

(** X12. [aob_to_pat_mask] of [make_inline.py] succeeds exactly on the
    strings all of whose tokens are, once stripped, two characters out of
    the hexadecimal digits and ['?']; on every other string it raises
    ValueError (appending to the bytearrays never fails). *)
Theorem X12_inline_accepted_patterns s :
  (forallb SpecX.two_nibbles (Inline.tokens s) = true ->
   exists pat msk, Inline.aob_to_pat_mask s = Ok (pat, msk)) /\
  (forallb SpecX.two_nibbles (Inline.tokens s) = false ->
   Inline.aob_to_pat_mask s = Fatal ValueError).
Proof.
  split; [|apply inline_parse_fatal].
  unfold Inline.aob_to_pat_mask. intros H. rewrite forallb_forall in H.
  destruct (omap_total Inline.token_bytes (Inline.tokens s)) as [vms Hv].
  { apply List.Forall_forall. intros t Ht. apply inline_token_total. now apply H. }
  rewrite Hv. simpl. eauto.
Qed.

(** X12 at two concrete strings: a token of three characters is rejected,
    tokens with nibble wildcards are accepted. *)
Lemma X12_witness :
  (exists pat msk, Inline.aob_to_pat_mask "1? ?f" = Ok (pat, msk)) /\
  Inline.aob_to_pat_mask "12 345" = Fatal ValueError.
Proof.
  split.
  - apply (proj1 (X12_inline_accepted_patterns "1? ?f")). reflexivity.
  - apply (proj2 (X12_inline_accepted_patterns "12 345")). reflexivity.
Defined.

Import AgreeFacts.

(** X13. The two scripts agree on every pattern without nibble wildcards:
    when [aob_to_pat_mask] of [make_inline.py] accepts a string and every
    mask byte is 0x00 or 0xFF, [aob_to_bytes_mask] of [make_bps.py] accepts
    it too and returns the same pattern and mask, although it tokenises
    differently ([split()] on the stripped string instead of [split(" ")]
    after replacing tabs, with each token stripped); and the two scans then
    return the same offset on every image, although [scan_aob] compares
    bytes and [scan] compares masked values. *)
Theorem X13_scripts_agree_on_byte_patterns s pat msk :
  Inline.aob_to_pat_mask s = Ok (pat, msk) ->
  Spec.byte_mask msk ->
  BPS.aob_to_bytes_mask s = Ok (pat, msk) /\
  forall buf, BPS.scan_aob buf pat msk = Inline.scan buf pat msk.
Proof.
  intros Hp Hm. split.
  - assert (Htok : forallb SpecX.two_nibbles (Inline.tokens s) = true).
    { destruct (forallb SpecX.two_nibbles (Inline.tokens s)) eqn:E; [reflexivity|].
      rewrite (inline_parse_fatal s E) in Hp. discriminate. }
    unfold BPS.aob_to_bytes_mask. rewrite (tokens_agree s Htok).
    unfold Inline.aob_to_pat_mask in Hp.
    destruct (omap Inline.token_bytes (Inline.tokens s)) as [vms|e] eqn:Em;
      simpl in Hp; [|discriminate].
    injection Hp as <- <-. apply omap_ok in Em.
    assert (Hb : omap BPS.token_bytes (map Py.strip (Inline.tokens s)) = Ok vms).
    { clear Htok. unfold Spec.byte_mask in Hm.
      induction Em as [|t [v m] ts vms Ht _ IH]; simpl; [reflexivity|].
      simpl in Hm. apply List.Forall_cons_iff in Hm as [Hm0 Hm].
      rewrite (token_agree t v m Ht Hm0). simpl. rewrite (IH Hm). reflexivity. }
    rewrite Hb. reflexivity.
  - intros buf. pose proof (inline_parse_lengths s pat msk Hp) as Hlen.
    apply (lowest_unique (Spec.matches_at buf pat msk) (Spec.matches_at buf pat msk)).
    + tauto.
    + intros i (H0 & _). exact H0.
    + now apply bps_scan_spec.
    + now apply inline_scan_spec.
Qed.

(** X13 at a concrete pattern whose first two tokens are separated by a
    tab. *)
Lemma X13_witness :
  BPS.aob_to_bytes_mask (String "1" (String "2" (String "009" "?? 9a")))
  = Ok ([x12; x00; x9a], [xff; x00; xff]).
Proof.
  apply (X13_scripts_agree_on_byte_patterns
           (String "1" (String "2" (String "009" "?? 9a")))
           [x12; x00; x9a] [xff; x00; xff] eq_refl).
  repeat constructor; tauto.
Defined.

Import BlankFacts.

(** X14. A pattern string made only of spaces and tabs is truthy but has no
    token: both parsers return the empty pattern, the scan finds it at
    offset 0 of any image (even an empty one), and the hook is resolved to
    site 0 instead of being skipped. *)
Theorem X14_blank_pattern sti stb spec s :
  aob spec = Some s -> s <> ""%string ->
  Forall (fun c => c = " "%char \/ c = "009"%char) (list_ascii_of_string s) ->
  Inline.aob_to_pat_mask s = Ok ([], []) /\
  BPS.aob_to_bytes_mask s = Ok ([], []) /\
  Inline.resolve sti spec None = Ok (Some 0) /\
  (addr spec = AddrNone -> BPS.resolve stb spec = Ok (Some 0)).
Proof.
  intros Haob Hne Hblank.
  assert (Hi : Inline.aob_to_pat_mask s = Ok ([], []))
    by (unfold Inline.aob_to_pat_mask; now rewrite inline_blank_tokens).
  assert (Hb : BPS.aob_to_bytes_mask s = Ok ([], [])).
  { unfold BPS.aob_to_bytes_mask. rewrite bps_blank_tokens; [reflexivity|].
    apply forallb_forall. intros c Hc.
    rewrite List.Forall_forall in Hblank. destruct (Hblank c Hc) as [-> | ->];
      reflexivity. }
  split; [exact Hi|]. split; [exact Hb|]. split.
  - unfold Inline.resolve. rewrite Haob, (truthy_nonempty s Hne), Hi. simpl.
    now rewrite inline_scan_empty.
  - intros Haddr. unfold BPS.resolve.
    rewrite Haddr, Haob, (truthy_nonempty s Hne), Hb. simpl.
    now rewrite bps_scan_empty.
Qed.

(** X14 at a concrete hook whose pattern is one space. *)
Lemma X14_witness :
  Inline.resolve (Spec.inline_pristine []) (Fixtures.spec_aob " ") None
  = Ok (Some 0).
Proof.
  refine (proj1 (proj2 (proj2 (X14_blank_pattern (Spec.inline_pristine [])
            (Spec.bps_pristine []) (Fixtures.spec_aob " ") " " eq_refl _ _)))).
  - discriminate.
  - repeat constructor.
Defined.

(** ** The code cave with a preferred offset *)

(** X15. [find_code_cave] of [make_bps.py] with [prefer_from]: the search
    starts at the preferred offset clamped into [0, len(buf) - need] (a
    negative preference is taken as 0) and returns the greatest start of a
    run of [need] filler bytes at or below that offset, or -1 when there is
    none. *)
Theorem X15_bps_cave_preferred buf need p :
  1 <= need -> need <= Py.len buf ->
  let c := Z.max 0 (Z.min (Py.len buf - need) p) in
  let r := BPS.find_code_cave buf need (Some p) in
  (r = -1 /\ forall j, Spec.filler_run buf j need -> c < j) \/
  (Spec.filler_run buf r need /\ r <= c /\
   forall j, Spec.filler_run buf j need -> j <= c -> j <= r).
Proof.
  intros Hneed Hlen c r. subst r. unfold BPS.find_code_cave. fold c.
  pose proof (find_range_down
                (fun i => forallb is_filler (Py.slice buf i (i + need))) c) as H.
  assert (Hc : 0 <= c <= Py.len buf - need) by (subst c; lia).
  destruct (find _ _) as [i|].
  - right. destruct H as (Hr & Hi & Hmax). split; [|split].
    + apply bps_window_filler; [lia | lia | lia | exact Hi].
    + lia.
    + intros j Hj Hjc. destruct (Z.lt_ge_cases i j) as [Hlt|]; [|lia].
      exfalso. assert (Hj' := Hj). destruct Hj' as (H0 & Hfit & _).
      apply bps_window_filler in Hj; [|lia|lia|lia].
      rewrite Hmax in Hj by lia. discriminate.
  - left. split; [reflexivity|]. intros j Hj.
    destruct (Z.lt_ge_cases c j) as [|Hle]; [assumption|].
    exfalso. assert (Hj' := Hj). destruct Hj' as (H0 & Hfit & _).
    apply bps_window_filler in Hj; [|lia|lia|lia].
    rewrite H in Hj by lia. discriminate.
Qed.

(** X15 at a concrete image: 104 filler bytes follow sixteen code bytes;
    with the preference 20 the cave of 64 bytes starts at 20, not at the
    end-most offset 56. *)
Lemma X15_witness :
  Spec.filler_run Fixtures.image1
    (BPS.find_code_cave Fixtures.image1 64 (Some 20)) 64 /\
  BPS.find_code_cave Fixtures.image1 64 (Some 20) = 20.
Proof.
  split; [|vm_compute; reflexivity].
  destruct (X15_bps_cave_preferred Fixtures.image1 64 20 ltac:(lia)
              ltac:(vm_compute; discriminate)) as [[E _] | [H _]].
  - vm_compute in E. discriminate E.
  - exact H.
Defined.

(** X16. On a buffer shorter than the request, [find_code_cave] of
    [make_bps.py] without [prefer_from] returns -1, but with [prefer_from]
    the clamped start is 0 and the one window tested is the whole buffer:
    if the buffer holds filler bytes only, offset 0 is returned although
    the run is shorter than [need]. *)
Theorem X16_bps_cave_short_buffer buf need p :
  Py.len buf < need ->
  BPS.find_code_cave buf need None = -1 /\
  BPS.find_code_cave buf need (Some p)
  = if forallb is_filler buf then 0 else -1.
Proof.
  intros Hshort. pose proof (len_nonneg buf) as Hn. unfold BPS.find_code_cave. split.
  - unfold Py.range_down.
    replace (Z.to_nat (Py.len buf - need + 1)) with 0%nat by lia. reflexivity.
  - replace (Z.max 0 (Z.min (Py.len buf - need) p)) with 0 by lia.
    change (Py.range_down 0) with [0]. simpl find.
    assert (Hs : Py.slice buf 0 (0 + need) = buf).
    { unfold Py.slice. cbv zeta. unfold Py.index.
      destruct (Z.ltb_spec 0 0); [lia|].
      destruct (Z.ltb_spec (0 + need) 0); [lia|].
      rewrite (Z.min_l 0) by lia. rewrite (Z.min_r (0 + need)) by lia.
      rewrite Z.sub_0_r. simpl. unfold Py.len. rewrite Nat2Z.id. apply firstn_all. }
    rewrite Hs. now destruct (forallb is_filler buf).
Qed.

(** X16 at a concrete buffer of four filler bytes and a request of 64. *)
Lemma X16_witness :
  BPS.find_code_cave [x00; xff; x00; xff] 64 (Some 0) = 0.
Proof.
  exact (proj2 (X16_bps_cave_short_buffer [x00; xff; x00; xff] 64 0
                  ltac:(vm_compute; reflexivity))).
Defined.

(** ** The guard columns of the generated header *)

Import HeaderFacts.

(** X17. For every row of a successful run of [make_inline.py] there is a
    hook of that name in the hook set such that [guard_len] is the number of
    tokens of the hook's guard pattern (0 without a guard), as it is: it is
    limited neither to the eight bytes of the array nor to the number of
    bytes actually read. The guard snapshot is the slice of the original
    image that starts at the site and has that length (shorter when it runs
    past the end of the image, empty without a guard). The [HookEntry]
    always has eight guard bytes: byte [k] is the snapshot's byte [k], or 0
    when the snapshot has none; its [guard_len] is that of the row. *)
Theorem X17_header_guard_columns ks ps image hooks st r :
  Inline.main_loop ks ps image hooks = Ok st ->
  In r (Inline.rows st) ->
  let e := Inline.emit_entry r in
  (exists spec, In (Inline.name r, spec) hooks /\
     match Py.truthy (guard spec) with
     | Some g => Inline.guard_len r = Py.len (Inline.tokens g)
     | None => Inline.guard_len r = 0
     end) /\
  Inline.guard_bytes r
  = Py.slice image (Inline.site_off r) (Inline.site_off r + Inline.guard_len r) /\
  length (Inline.e_guard e) = 8%nat /\
  (forall k : nat, (k < 8)%nat ->
     nth k (Inline.e_guard e) x00 = nth k (Inline.guard_bytes r) x00) /\
  Inline.e_guard_len e = Inline.guard_len r.
Proof.
  intros Hrun Hr e. subst e. simpl.
  pose proof (InlineRun.main_loop_rows ks ps image hooks st Hrun) as (_ & Hrows & _).
  assert (Hin : In (Inline.name r,
                    (Inline.site_off r, Inline.guard_bytes r, Inline.guard_len r))
                   (Spec.inline_sites image hooks)).
  { rewrite <- (InlineRun.mk_rows_keys
                  (snd (Inline.alloc_arena image (Inline.arena_need hooks)))
                  (Spec.inline_sites image hooks)).
    rewrite <- Hrows.
    apply (in_map (fun r => (Inline.name r,
                     (Inline.site_off r, Inline.guard_bytes r, Inline.guard_len r)))).
    exact Hr. }
  split; [|split; [|split; [apply pad_guard_length | split; [|reflexivity]]]].
  - destruct (inline_sites_hook _ _ _ _ _ _ Hin) as (spec & Hspec & Hg).
    exists spec. split; [exact Hspec|].
    exact (guard_snapshot_len _ spec _ _ _ Hg).
  - exact (inline_sites_snapshot image hooks (Inline.name r) _ _ _ Hin).
  - intros k Hk. now apply pad_guard_nth.
Qed.

(** X17 at a concrete run: a guard of nine tokens on the site 0; the row
    and the table entry keep the length 9, the array has eight bytes. *)
Lemma X17_witness :
  exists st r,
    Inline.main_loop Fixtures.arm_abs_jump false Fixtures.image1
      [("h"%string, Fixtures.spec_guarded 0 "11 12 13 14 15 16 17 18 2?")] = Ok st /\
    In r (Inline.rows st) /\
    Inline.guard_len r = 9 /\
    Inline.e_guard_len (Inline.emit_entry r) = 9 /\
    length (Inline.e_guard (Inline.emit_entry r)) = 8%nat.
Proof.
  destruct (Inline.main_loop Fixtures.arm_abs_jump false Fixtures.image1
              [("h"%string, Fixtures.spec_guarded 0 "11 12 13 14 15 16 17 18 2?")])
    as [st|e] eqn:E; [|vm_compute in E; discriminate E].
  destruct (Inline.rows st) as [|r rs] eqn:Er.
  { exfalso.
    pose proof (InlineRun.main_loop_rows _ _ _ _ _ E) as (_ & Hrows & _).
    rewrite Er in Hrows. vm_compute in Hrows. discriminate Hrows. }
  assert (Hin : In r (Inline.rows st)) by (rewrite Er; now left).
  destruct (X17_header_guard_columns Fixtures.arm_abs_jump false Fixtures.image1
              [("h"%string, Fixtures.spec_guarded 0 "11 12 13 14 15 16 17 18 2?")]
              st r E Hin) as ((spec & Hspec & Hlen) & _ & H8 & _ & Hel).
  destruct Hspec as [Hspec|[]]. injection Hspec as _ <-.
  exists st, r. split; [reflexivity|]. split; [exact Hin|].
  assert (H9 : Inline.guard_len r = 9) by exact Hlen.
  split; [exact H9|]. split; [rewrite Hel; exact H9 | exact H8].
Defined.

(** ** The SHA-1 check *)

Import DigestFacts.

(** X18. The chunked reading of [sha1] terminates on every file and feeds
    the hash object non-empty chunks of at most [1 << 20] bytes whose
    concatenation, in order, is exactly the content of the file, whatever
    the hash object is. *)
Theorem X18_sha1_feeds_whole_file (hstate : Type) (h_new : hstate)
    (h_update : hstate -> list byte -> hstate) (h_hexdigest : hstate -> string)
    (content : list byte) (fuel : nat) :
  (length content < fuel)%nat ->
  exists chunks,
    Digest.sha1 hstate h_new h_update h_hexdigest fuel content
    = Some (h_hexdigest (fold_left h_update chunks h_new)) /\
    concat chunks = content /\
    Forall (fun c => 1 <= Py.len c <= Digest.CHUNK) chunks.
Proof.
  intros Hfuel.
  destruct (feed_rest hstate h_update content fuel 0 h_new) as (chunks & Hf & Hc & Hall).
  - pose proof (len_nonneg content). lia.
  - unfold Py.len. lia.
  - exists chunks. unfold Digest.sha1. rewrite Hf. auto.
Qed.

(** X18 at a concrete file, with a hash object that records its input. *)
Lemma X18_witness :
  Digest.sha1 (list byte) [] (fun h c => h ++ c) (fun _ => "digest"%string)
              17 Fixtures.image2
  = Some "digest"%string.
Proof.
  destruct (X18_sha1_feeds_whole_file (list byte) [] (fun h c => h ++ c)
              (fun _ => "digest"%string) Fixtures.image2 17
              ltac:(vm_compute; lia)) as (chunks & H & _).
  exact H.
Defined.

(** ** Negative addresses *)

Import NegFacts.

(** X19. A negative explicit address is skipped by [make_inline.py], but
    not by [make_bps.py]: there, for an address [z] with
    [-len(mod) <= z < -10] (no guard, the slot inside the buffer, a branch
    that fits), Python's slicing takes the ten stolen bytes from offset
    [len(mod) + z] and writes the detour there, while the record keeps the
    negative [site_off] and the branch back is assembled for the resume
    offset [z + 10]. *)
Theorem X19_negative_address kd kb st nm spec z st' :
  addr spec = AddrOne (AInt z) -> Py.truthy (guard spec) = None ->
  - Py.len (BPS.mod_ st) <= z -> z < -10 ->
  0 <= BPS.arena_cur st ->
  BPS.arena_cur st + BPS.arena_need_each <= Py.len (BPS.mod_ st) ->
  SpecX.branch_fits kb ->
  BPS.hook_step kd kb st (nm, spec) = Ok st' ->
  (forall ks ps sti, Inline.site_step ks ps nm spec sti (Some (AInt z)) = Ok sti) /\
  let site := Py.len (BPS.mod_ st) + z in
  exists enc d,
    kb (z + 10 - (BPS.arena_cur st + 16)) (Z.lor (BPS.arena_cur st) 1) = Some enc /\
    BPS.assemble_detour kd 0 0 = Ok d /\
    let tramp := Py.slice (BPS.mod_ st) site (site + 10) ++ BPS.NOP16 ++ enc in
    BPS.mod_ st'
    = Py.slice_assign
        (Py.slice_assign (BPS.mod_ st) (BPS.arena_cur st)
           (BPS.arena_cur st + Py.len tramp) tramp)
        site (site + 10) d /\
    BPS.hook_records st' = BPS.hook_records st ++
      [ {| BPS.name := nm; BPS.site_off := z; BPS.tramp_off := BPS.arena_cur st;
           BPS.resume_off := z + 10; BPS.stolen_len := 10 |} ].
Proof.
  intros Haddr Hguard Hlo Hhi Hcur Hslot Hkb Hstep. split.
  { intros ks ps sti. unfold Inline.site_step, Inline.resolve. simpl.
    destruct (Z.ltb_spec z 0); [reflexivity | lia]. }
  intros site.
  unfold BPS.hook_step in Hstep. cbv zeta in Hstep. simpl fst in Hstep.
  simpl snd in Hstep. unfold BPS.resolve, BPS.guard_check in Hstep.
  rewrite Haddr, Hguard in Hstep. simpl in Hstep.
  pose proof (len_nonneg (BPS.mod_ st)) as Hn.
  assert (Hsl : Py.slice (BPS.mod_ st) z (z + 10)
                = Py.slice (BPS.mod_ st) site (site + 10)).
  { subst site. rewrite slice_neg by lia. f_equal. lia. }
  assert (Hl : Py.len (Py.slice (BPS.mod_ st) site (site + 10)) = 10).
  { subst site. rewrite slice_len_in; lia. }
  unfold BPS.build_tramp in Hstep. cbv zeta in Hstep. rewrite Hsl in Hstep.
  rewrite Hl in Hstep. change (negb (Z.land 10 1 =? 0)) with false in Hstep.
  cbv iota in Hstep. rewrite Hl in Hstep.
  change (negb (Z.land 10 3 =? 0)) with true in Hstep. cbv iota in Hstep.
  rewrite len_app, Hl in Hstep. change (Py.len BPS.NOP16) with 2 in Hstep.
  replace (z + 10 - (BPS.arena_cur st + (10 + 2) + 4))
    with (z + 10 - (BPS.arena_cur st + 16)) in Hstep by lia.
  destruct (kb _ _) as [enc|] eqn:Eenc; simpl in Hstep; [|discriminate].
  destruct (BPS.assemble_detour kd 0 0) as [d|e] eqn:Ed; simpl in Hstep;
    [|discriminate].
  injection Hstep as <-. simpl. exists enc, d.
  split; [reflexivity|]. split; [reflexivity|]. split; [|reflexivity].
  rewrite <- app_assoc.
  set (tramp := Py.slice (BPS.mod_ st) site (site + 10) ++ BPS.NOP16 ++ enc).
  assert (Ht : Py.len tramp <= 64).
  { subst tramp. rewrite !len_app, Hl. change (Py.len BPS.NOP16) with 2.
    pose proof (Hkb _ _ _ Eenc). lia. }
  assert (L1 : Py.len (Py.slice_assign (BPS.mod_ st) (BPS.arena_cur st)
                         (BPS.arena_cur st + Py.len tramp) tramp)
               = Py.len (BPS.mod_ st)).
  { apply slice_assign_len; [lia|]. unfold BPS.arena_need_each in Hslot. lia. }
  rewrite slice_assign_neg by lia. rewrite L1. subst site. f_equal. lia.
Qed.

(** X19 at a concrete state: the address -16 on the 256-byte image. *)
Lemma X19_witness :
  exists st',
    BPS.hook_step Fixtures.thumb_detour Fixtures.stub_bw
      {| BPS.buf := Fixtures.image3; BPS.mod_ := Fixtures.image3;
         BPS.arena_cur := 128; BPS.hook_records := [] |}
      ("h"%string, Fixtures.spec_addr (-16)) = Ok st' /\
    map BPS.site_off (BPS.hook_records st') = [-16].
Proof.
  destruct (BPS.hook_step Fixtures.thumb_detour Fixtures.stub_bw
              {| BPS.buf := Fixtures.image3; BPS.mod_ := Fixtures.image3;
                 BPS.arena_cur := 128; BPS.hook_records := [] |}
              ("h"%string, Fixtures.spec_addr (-16))) as [st'|e] eqn:E;
    [|vm_compute in E; discriminate E].
  exists st'. split; [reflexivity|].
  assert (Hkb : SpecX.branch_fits Fixtures.stub_bw).
  { intros delta origin enc H. unfold Fixtures.stub_bw in H. injection H as <-.
    vm_compute. discriminate. }
  destruct (X19_negative_address Fixtures.thumb_detour Fixtures.stub_bw
              {| BPS.buf := Fixtures.image3; BPS.mod_ := Fixtures.image3;
                 BPS.arena_cur := 128; BPS.hook_records := [] |}
              "h"%string (Fixtures.spec_addr (-16)) (-16) st' eq_refl eq_refl
              ltac:(vm_compute; discriminate) ltac:(lia) ltac:(simpl; lia)
              ltac:(vm_compute; discriminate) Hkb E)
    as (_ & enc & d & _ & _ & _ & Hrec).
  rewrite Hrec. reflexivity.
Defined.

Import ExpectedFacts.

(** X20. The two scripts read the expected SHA-1 alike and compare alike:
    on every text of the [.sha1] file, [read_expected] of [make_inline.py]
    and [read_expected_sha1] of [make_bps.py] return the same digest or
    both find none (stripping the whole text first makes no difference),
    the digest is in lower case, and for every computed digest the checks
    of the two [main] functions give the same verdict. *)
Theorem X20_expected_sha1_agree text :
  Expected.read_expected_sha1 text = Expected.read_expected text /\
  (forall e, Expected.read_expected text = Some e -> Expected.lower e = e) /\
  forall act, Expected.bps_check text act = Expected.inline_check text act.
Proof.
  assert (H : Expected.read_expected_sha1 text = Expected.read_expected text)
    by apply first_usable_strip.
  split; [exact H|]. split.
  - intros e. apply first_usable_lower.
  - intros act. unfold Expected.bps_check, Expected.inline_check. rewrite H.
    destruct (Expected.read_expected text) as [e|] eqn:E; [|reflexivity].
    now rewrite (first_usable_lower _ e E).
Qed.

(** X20 at a concrete file: a comment line, then the digest in capitals
    between blanks. *)
Lemma X20_witness :
  Expected.bps_check
    (String "#" (String "x" (String "010" " AB12 "))) (list_ascii_of_string "ab12")
  = Expected.Accepted.
Proof.
  exact (eq_trans
           (proj2 (proj2 (X20_expected_sha1_agree
                            (String "#" (String "x" (String "010" " AB12 ")))))
                  (list_ascii_of_string "ab12"))
           eq_refl).
Defined.

(** ** The wiring of [make_bps.py] and its addresses *)

Import BpsWire.

(** X21. In a run of [make_bps.py] whose recorded sites lie inside the
    image, outside the arena and clear of one another (with a branch that
    fits the slot), the patched image is wired: every trampoline holds the
    ten bytes the base image has at its site, then one 16-bit NOP, then the
    branch assembled for the displacement [site + 10 - (tramp_off + 16)],
    and every site holds the ten-byte detour. *)
Theorem X21_bps_wiring kd kb image hooks st :
  SpecX.branch_fits kb ->
  BPS.main_loop kd kb image hooks = Ok st ->
  let total := BPS.arena_total hooks in
  let off := BPS.find_code_cave image total None in
  (forall r, In r (BPS.hook_records st) ->
     0 <= BPS.site_off r /\ BPS.site_off r + 10 <= Py.len image /\
     (BPS.site_off r + 10 <= off \/ off + total <= BPS.site_off r)) ->
  Spec.pairwise_apart 10 (map BPS.site_off (BPS.hook_records st)) ->
  forall r, In r (BPS.hook_records st) ->
    Py.slice (BPS.mod_ st) (BPS.tramp_off r) (BPS.tramp_off r + 10)
    = Py.slice image (BPS.site_off r) (BPS.site_off r + 10) /\
    Py.slice (BPS.mod_ st) (BPS.tramp_off r + 10) (BPS.tramp_off r + 12)
    = BPS.NOP16 /\
    (exists enc,
       kb (BPS.site_off r + 10 - (BPS.tramp_off r + 16)) (Z.lor (BPS.tramp_off r) 1)
       = Some enc /\
       Py.slice (BPS.mod_ st) (BPS.tramp_off r + 12)
                (BPS.tramp_off r + 12 + Py.len enc) = enc) /\
    (exists d,
       BPS.assemble_detour kd 0 0 = Ok d /\
       Py.slice (BPS.mod_ st) (BPS.site_off r) (BPS.site_off r + 10) = d).
Proof.
  intros Hkb Hrun total off Hsites Hpair.
  pose proof (records_fit kd kb image hooks st Hrun) as Hfit. fold total in Hfit.
  destruct (bps_arena_inside kd kb image hooks st Hrun) as (H0 & H1 & Hfold).
  fold total in H0, H1, Hfold. fold off in H0, H1, Hfold.
  assert (Hinv : SpecX.bps_wired_inv kd kb image off st).
  { refine (bps_loop_invariant kd kb (SpecX.bps_wired_inv kd kb image off)
              (SpecX.bps_clear image off total)
              (bps_clear_prefix image off total)
              (bps_wired_step kd kb image off total Hkb H0 H1) hooks _ st _ Hfold _).
    - split; [|intros r []].
      unfold SpecX.bps_frame_inv. simpl. repeat split; auto.
      unfold BPS.arena_need_each, Py.len. simpl. lia.
    - split; [exact Hsites | split; assumption]. }
  destruct Hinv as [_ Hw]. intros r Hr. destruct (Hw r Hr) as (_ & _ & W). exact W.
Qed.

(** X21 at a concrete run: sites 0 and 10 on the 256-byte image; the
    second trampoline starts with the bytes of offsets 10-19. *)
Lemma X21_witness :
  exists st,
    BPS.main_loop Fixtures.thumb_detour Fixtures.stub_bw Fixtures.image3
      [("a"%string, Fixtures.spec_addr 0); ("b"%string, Fixtures.spec_addr 10)]
    = Ok st /\
    Py.slice (BPS.mod_ st) 192 202 = Py.slice Fixtures.image3 10 20.
Proof.
  destruct (BPS.main_loop Fixtures.thumb_detour Fixtures.stub_bw Fixtures.image3
              [("a"%string, Fixtures.spec_addr 0); ("b"%string, Fixtures.spec_addr 10)])
    as [st|e] eqn:E; [|vm_compute in E; discriminate E].
  exists st. split; [reflexivity|].
  pose proof (BPSRun.main_loop_records _ _ _ _ _ E) as (_ & Hrec).
  assert (Hrec' : BPS.hook_records st
                  = [ {| BPS.name := "a"; BPS.site_off := 0; BPS.tramp_off := 128;
                         BPS.resume_off := 10; BPS.stolen_len := 10 |};
                      {| BPS.name := "b"; BPS.site_off := 10; BPS.tramp_off := 192;
                         BPS.resume_off := 20; BPS.stolen_len := 10 |} ])
    by (rewrite Hrec; reflexivity).
  assert (Hkb : SpecX.branch_fits Fixtures.stub_bw).
  { intros delta origin enc H. unfold Fixtures.stub_bw in H. injection H as <-.
    vm_compute. discriminate. }
  refine (proj1 (X21_bps_wiring Fixtures.thumb_detour Fixtures.stub_bw Fixtures.image3
                   [("a"%string, Fixtures.spec_addr 0);
                    ("b"%string, Fixtures.spec_addr 10)] st Hkb E _ _
                   {| BPS.name := "b"; BPS.site_off := 10; BPS.tramp_off := 192;
                      BPS.resume_off := 20; BPS.stolen_len := 10 |} _)).
  - rewrite Hrec'. intros r [<- | [<- | []]]; vm_compute; intuition discriminate.
  - rewrite Hrec'. vm_compute. intuition (subst; discriminate).
  - rewrite Hrec'. right. left. reflexivity.
Defined.

(** X22. [make_bps.py] has no support for address lists: a hook whose
    [addr] is a list (which [make_inline.py] processes entry by entry), or
    any other value [int(str(addr), 0)] rejects, makes every run fail,
    whatever the image, the other hooks and the tools are. *)
Theorem X22_bps_rejects_address_lists kd kb image hooks nm spec :
  In (nm, spec) hooks ->
  (exists l, addr spec = AddrList l) \/ addr spec = AddrOne ABad ->
  exists e, BPS.main_loop kd kb image hooks = Fatal e.
Proof.
  intros Hin Hbad. unfold BPS.main_loop. cbv zeta.
  destruct (_ <? 0); [eauto|].
  generalize {| BPS.buf := image; BPS.mod_ := image;
                BPS.arena_cur := BPS.find_code_cave image (BPS.arena_total hooks) None;
                BPS.hook_records := [] |}.
  clear - Hin Hbad. induction hooks as [|[nm' spec'] hooks IH]; intros s0;
    [destruct Hin|].
  simpl. destruct Hin as [Heq|Hin].
  - injection Heq as -> ->.
    assert (Hres : BPS.resolve s0 spec = Fatal ValueError).
    { unfold BPS.resolve. destruct Hbad as [[l ->] | ->]; reflexivity. }
    unfold BPS.hook_step. cbv zeta. simpl fst. simpl snd. rewrite Hres. simpl. eauto.
  - destruct (BPS.hook_step kd kb s0 (nm', spec')) as [s1|e]; simpl; [|eauto].
    apply IH. exact Hin.
Qed.

(** X22 at a concrete hook set: the list that [make_inline.py] accepts. *)
Lemma X22_witness :
  exists e,
    BPS.main_loop Fixtures.thumb_detour Fixtures.stub_bw Fixtures.image3
      [("h"%string, Fixtures.spec_addrs [0; 8])] = Fatal e.
Proof.
  apply (X22_bps_rejects_address_lists Fixtures.thumb_detour Fixtures.stub_bw
           Fixtures.image3 [("h"%string, Fixtures.spec_addrs [0; 8])]
           "h"%string (Fixtures.spec_addrs [0; 8])).
  - left. reflexivity.
  - left. eexists. reflexivity.
Defined.

(** ** The guard of [make_bps.py] *)

(** X23. The guard of [make_bps.py] compares only the positions that exist
    both in the image and in the pattern: the site passes exactly when, at
    every such position, the mask byte is zero or the image byte equals the
    pattern byte. At the end of the image the missing bytes are not
    compared, and a site at or past the end passes every guard. *)
Theorem X23_bps_guard_passes st spec g gpat gmsk site :
  Py.truthy (guard spec) = Some g ->
  BPS.aob_to_bytes_mask g = Ok (gpat, gmsk) ->
  let head := Py.slice (BPS.buf st) site (site + Py.len gpat) in
  (BPS.guard_check st spec site = Ok true <->
   forall k : nat, (k < length head)%nat -> (k < length gpat)%nat ->
     nth k gmsk x00 = x00 \/ nth k head x00 = nth k gpat x00) /\
  (Py.len (BPS.buf st) <= site -> BPS.guard_check st spec site = Ok true).
Proof.
  intros Hg Hp head.
  destruct (bps_parse_shape g gpat gmsk Hp) as [Hlen Hbm].
  assert (Hgc : BPS.guard_check st spec site = Ok (BPS.window_ok head gpat gmsk)).
  { unfold BPS.guard_check. rewrite Hg, Hp. reflexivity. }
  rewrite Hgc. split.
  - unfold BPS.window_ok. split.
    + intros E. injection E as E. rewrite (forallb_zip3 _ x00 x00 x00) in E.
      intros k Hk1 Hk2. specialize (E k Hk1 Hk2 ltac:(lia)).
      rewrite negb_true_iff in E. unfold BPS.mismatch in E.
      apply andb_false_iff in E as [E|E].
      * left. apply negb_false_iff in E. apply Z.eqb_eq in E.
        apply b2z_inj. rewrite E. reflexivity.
      * right. apply negb_false_iff in E. now apply byte_eqb_eq.
    + intros H. f_equal. rewrite (forallb_zip3 _ x00 x00 x00).
      intros k Hk1 Hk2 _. rewrite negb_true_iff. unfold BPS.mismatch.
      destruct (H k Hk1 Hk2) as [E|E]; rewrite E.
      * reflexivity.
      * rewrite byte_eqb_refl. simpl. apply andb_false_r.
  - intros Hend. subst head. pose proof (len_nonneg gpat).
    rewrite LoopFacts.slice_beyond by lia. reflexivity.
Qed.

(** X23 at a concrete hook: the site 120 is the end of the 120-byte image,
    and the guard "11 22" passes. *)
Lemma X23_witness :
  BPS.guard_check (Spec.bps_pristine Fixtures.image1)
    (Fixtures.spec_guarded 120 "11 22") 120 = Ok true.
Proof.
  apply (proj2 (X23_bps_guard_passes (Spec.bps_pristine Fixtures.image1)
                  (Fixtures.spec_guarded 120 "11 22") "11 22" [x11; x22] [xff; xff]
                  120 eq_refl eq_refl)).
  vm_compute. discriminate.
Defined.

(** ** When the base image is an output path *)

(** X24. When the base image given to [make_bps.py] is
    [build/code_mod.bin] itself, the patched image is written over it
    before FLIPS runs: the file ends up holding the patched image, FLIPS is
    asked for the difference between the patched image and itself, and
    that is the patch written to [patch/code.bps]. *)
Theorem X24_bps_base_is_output kd kb create apply
    (fs : gmap string (list byte)) hooks image st :
  fs !! BPS.out_mod = Some image ->
  BPS.main_loop kd kb image hooks = Ok st ->
  let res := BPS.main kd kb true create apply fs BPS.out_mod hooks in
  fst res !! BPS.out_mod = Some (BPS.mod_ st) /\
  (create (BPS.mod_ st) (BPS.mod_ st) = None -> snd res = Fatal FlipsCreateFailed) /\
  (forall patch, create (BPS.mod_ st) (BPS.mod_ st) = Some patch ->
     fst res !! BPS.out_bps = Some patch).
Proof.
  intros Hbase Hrun res. subst res. unfold BPS.main. rewrite Hbase, Hrun.
  unfold BPS.emit, BPS.flips_create_bps. cbv zeta. simpl negb. cbv iota.
  rewrite lookup_insert_eq.
  destruct (create (BPS.mod_ st) (BPS.mod_ st)) as [patch|] eqn:Ec.
  - unfold BPS.flips_apply_bps. rewrite lookup_insert_eq.
    rewrite (lookup_insert_ne _ BPS.out_bps BPS.out_mod) by discriminate.
    rewrite lookup_insert_eq.
    assert (Hgoal : forall r : gmap string (list byte) * outcome unit,
              (r.1 !! BPS.out_mod = Some (BPS.mod_ st) /\
               r.1 !! BPS.out_bps = Some patch) ->
              r.1 !! BPS.out_mod = Some (BPS.mod_ st) /\
              (Some patch = None -> r.2 = Fatal FlipsCreateFailed) /\
              (forall p, Some patch = Some p -> r.1 !! BPS.out_bps = Some p)).
    { intros r [H1 H2]. split; [exact H1|]. split; [discriminate|].
      intros p E. injection E as <-. exact H2. }
    apply Hgoal. clear Hgoal.
    repeat (match goal with
            | |- context [match ?x with _ => _ end] =>
                match x with
                | context [match _ with _ => _ end] => fail 1
                | _ => destruct x eqn:?
                end
            end; simpl fst; simpl snd);
      (split;
       [ rewrite ?lookup_insert_ne by discriminate; apply lookup_insert_eq
       | rewrite ?(lookup_insert_ne _ BPS.staged_bps BPS.out_bps) by discriminate;
         rewrite ?(lookup_insert_ne _ BPS.verify BPS.out_bps) by discriminate;
         apply lookup_insert_eq ]).
  - simpl. split; [apply lookup_insert_eq|]. split; [reflexivity | discriminate].
Qed.

(** X24 at a concrete file store whose [build/code_mod.bin] is the base. *)
Lemma X24_witness :
  exists st,
    BPS.main_loop Fixtures.thumb_detour Fixtures.stub_bw Fixtures.image1
      [("a"%string, Fixtures.spec_addr 0)] = Ok st /\
    fst (BPS.main Fixtures.thumb_detour Fixtures.stub_bw true
           Fixtures.whole_file_create Fixtures.whole_file_apply
           {[ BPS.out_mod := Fixtures.image1 ]} BPS.out_mod
           [("a"%string, Fixtures.spec_addr 0)]) !! BPS.out_bps
    = Some (BPS.mod_ st).
Proof.
  destruct (BPS.main_loop Fixtures.thumb_detour Fixtures.stub_bw Fixtures.image1
              [("a"%string, Fixtures.spec_addr 0)]) as [st|e] eqn:E;
    [|vm_compute in E; discriminate E].
  exists st. split; [reflexivity|].
  refine (proj2 (proj2 (X24_bps_base_is_output Fixtures.thumb_detour Fixtures.stub_bw
                          Fixtures.whole_file_create Fixtures.whole_file_apply
                          {[ BPS.out_mod := Fixtures.image1 ]}
                          [("a"%string, Fixtures.spec_addr 0)] Fixtures.image1 st _ E))
            (BPS.mod_ st) eq_refl).
  vm_compute. reflexivity.
Defined.

(** ** What the scripts never overwrite *)

(** X25. [make_inline.py] never overwrites code outside the hook sites:
    every byte of the input that differs in the written image was a filler
    byte (0x00 or 0xFF) of the cave, or, with [--patch-sites] (the window of
    every recorded site ending inside the buffer), lies in the window of a
    recorded site. *)
Theorem X25_inline_overwrites_filler_only ks ps image hooks st :
  Inline.main_loop ks ps image hooks = Ok st ->
  (ps = true -> forall r, In r (Inline.rows st) ->
     Inline.site_off r + 8
     <= Py.len (fst (Inline.alloc_arena image (Inline.arena_need hooks)))) ->
  forall p, 0 <= p < Py.len image ->
    Spec.byte_at (Inline.mod_ st) p <> Spec.byte_at image p ->
    is_filler (Spec.byte_at image p) = true \/
    (ps = true /\ exists r, In r (Inline.rows st) /\
                            Inline.site_off r <= p < Inline.site_off r + 8).
Proof.
  intros Hrun Hsites p Hp Hne.
  pose proof (rows_fit ks ps image hooks st Hrun) as Hfit.
  pose proof (arena_need_min hooks) as Hneed.
  pose proof (InlineRun.main_loop_rows ks ps image hooks st Hrun) as (_ & Hrows & _).
  set (need := Inline.arena_need hooks) in *.
  unfold Inline.main_loop in Hrun. fold need in Hrun.
  destruct (Inline.alloc_arena image need) as [mod0 off] eqn:Ea.
  simpl in Hsites, Hrows.
  destruct (alloc_geometry image need mod0 off ltac:(lia) Ea)
    as (Hoff & Hin & Himg & Hsame & Hshape).
  assert (Hinv : SpecX.frame_inv ps mod0 off st).
  { refine (loop_invariant ks ps (SpecX.frame_inv ps mod0 off)
              (SpecX.frame_ok ps mod0 need)
              (frame_ok_prefix ps mod0 need)
              (frame_step ks ps mod0 off need Hoff Hin) hooks _ st _ Hrun _).
    - unfold SpecX.frame_inv. simpl. repeat split; auto.
      unfold Inline.per_tramp, Py.len. simpl. lia.
    - split; assumption. }
  destruct Hinv as (Hlen & _ & Hout).
  destruct (List.Exists_dec
              (fun r => Inline.tramp_off r <= p < Inline.tramp_off r + 16)
              (Inline.rows st)) as [Hslot|Hslot].
  { intros r. destruct (Z_le_dec (Inline.tramp_off r) p);
      destruct (Z_lt_dec p (Inline.tramp_off r + 16)); (left; lia) || (right; lia). }
  - (* inside a trampoline window: a byte of the cave *)
    left. apply List.Exists_exists in Hslot as (r & Hr & Hwin).
    apply In_nth_error in Hr as [i Hi].
    assert (Hlt : (i < length (Inline.rows st))%nat)
      by (apply nth_error_Some; congruence).
    rewrite Hrows in Hi. apply mk_rows_nth in Hi.
    unfold Inline.per_tramp, Py.len in *.
    unfold Inline.alloc_arena in Ea.
    destruct (inline_cave_spec image need ltac:(lia)) as [[E _] | [(_ & _ & Hfill) _]].
    + rewrite E in Ea. simpl in Ea. injection Ea as <- <-. unfold Py.len in *. lia.
    + destruct (Z.ltb_spec (Inline.find_code_cave image need) 0) as [Hneg|Hpos].
      * injection Ea as <- <-. unfold Py.len in *. lia.
      * injection Ea as <- <-. apply Hfill. lia.
  - destruct (List.Exists_dec
                (fun r => Inline.site_off r <= p < Inline.site_off r + 8)
                (Inline.rows st)) as [Hsite|Hsite].
    { intros r. destruct (Z_le_dec (Inline.site_off r) p);
        destruct (Z_lt_dec p (Inline.site_off r + 8)); (left; lia) || (right; lia). }
    + destruct ps.
      * right. split; [reflexivity|].
        apply List.Exists_exists in Hsite as (r & Hr & Hwin). eauto.
      * exfalso. apply Hne. rewrite Hout; [apply Hsame; lia | lia | | discriminate].
        intros r Hr.
        destruct (Z_lt_dec p (Inline.tramp_off r)); [now left | right].
        destruct (Z_le_dec (Inline.tramp_off r + 16) p); [assumption|].
        exfalso. apply Hslot. apply List.Exists_exists. exists r. split; [exact Hr | lia].
    + exfalso. apply Hne. rewrite Hout; [apply Hsame; lia | lia | |].
      * intros r Hr.
        destruct (Z_lt_dec p (Inline.tramp_off r)); [now left | right].
        destruct (Z_le_dec (Inline.tramp_off r + 16) p); [assumption|].
        exfalso. apply Hslot. apply List.Exists_exists. exists r. split; [exact Hr | lia].
      * intros _ r Hr.
        destruct (Z_lt_dec p (Inline.site_off r)); [now left | right].
        destruct (Z_le_dec (Inline.site_off r + 8) p); [assumption|].
        exfalso. apply Hsite. apply List.Exists_exists. exists r. split; [exact Hr | lia].
Qed.

(** X25 at a concrete run: byte 30 of the 120-byte image is overwritten by
    the trampoline of the hook; it was a filler byte. *)
Lemma X25_witness :
  exists st,
    Inline.main_loop Fixtures.arm_abs_jump false Fixtures.image1
      [("h"%string, Fixtures.spec_addr 0)] = Ok st /\
    Spec.byte_at (Inline.mod_ st) 30 <> Spec.byte_at Fixtures.image1 30 /\
    is_filler (Spec.byte_at Fixtures.image1 30) = true.
Proof.
  destruct (Inline.main_loop Fixtures.arm_abs_jump false Fixtures.image1
              [("h"%string, Fixtures.spec_addr 0)]) as [st|e] eqn:E;
    [|vm_compute in E; discriminate E].
  exists st.
  assert (Hne : Spec.byte_at (Inline.mod_ st) 30 <> Spec.byte_at Fixtures.image1 30).
  { vm_compute in E. injection E as <-. vm_compute. discriminate. }
  split; [reflexivity|]. split; [exact Hne|].
  destruct (X25_inline_overwrites_filler_only Fixtures.arm_abs_jump false
              Fixtures.image1 [("h"%string, Fixtures.spec_addr 0)] st E
              ltac:(discriminate) 30 ltac:(vm_compute; split; [discriminate | reflexivity])
              Hne) as [H | [H _]]; [exact H | discriminate H].
Defined.

(** X26. [make_bps.py] never overwrites code outside the hook sites: when
    the branch fits its slot and the ten-byte window of every recorded site
    lies inside the image, every byte of the base image that differs in the
    patched image was a filler byte (0x00 or 0xFF) of the cave or lies in
    the window of a recorded site. *)
Theorem X26_bps_overwrites_filler_only kd kb image hooks st :
  SpecX.branch_fits kb ->
  BPS.main_loop kd kb image hooks = Ok st ->
  (forall r, In r (BPS.hook_records st) ->
     0 <= BPS.site_off r /\ BPS.site_off r + 10 <= Py.len image) ->
  forall p, 0 <= p ->
    Spec.byte_at (BPS.mod_ st) p <> Spec.byte_at image p ->
    is_filler (Spec.byte_at image p) = true \/
    exists r, In r (BPS.hook_records st) /\
              BPS.site_off r <= p < BPS.site_off r + 10.
Proof.
  intros Hkb Hrun Hsites p Hp Hne.
  pose proof (records_fit kd kb image hooks st Hrun) as Hfit.
  pose proof (arena_total_min hooks) as Hmin.
  pose proof (BPSRun.main_loop_records kd kb image hooks st Hrun) as (_ & Hrec).
  destruct (bps_arena_inside kd kb image hooks st Hrun) as (H0 & H1 & Hfold).
  set (total := BPS.arena_total hooks) in *.
  set (off := BPS.find_code_cave image total None) in *.
  assert (Hinv : SpecX.bps_frame_inv image off st).
  { refine (bps_loop_invariant kd kb (SpecX.bps_frame_inv image off)
              (SpecX.bps_frame_ok image total)
              (bps_frame_ok_prefix image total)
              (bps_frame_step kd kb image off total Hkb H0 H1) hooks _ st _ Hfold _).
    - unfold SpecX.bps_frame_inv. simpl. repeat split; auto.
      unfold BPS.arena_need_each, Py.len. simpl. lia.
    - split; assumption. }
  destruct Hinv as (Hlen & _ & Hout).
  destruct (List.Exists_dec
              (fun r => BPS.tramp_off r <= p < BPS.tramp_off r + BPS.arena_need_each)
              (BPS.hook_records st)) as [Hslot|Hslot].
  { intros r. destruct (Z_le_dec (BPS.tramp_off r) p);
      destruct (Z_lt_dec p (BPS.tramp_off r + BPS.arena_need_each));
      (left; lia) || (right; lia). }
  - left. apply List.Exists_exists in Hslot as (r & Hr & Hwin).
    apply In_nth_error in Hr as [i Hi].
    assert (Hlt : (i < length (BPS.hook_records st))%nat)
      by (apply nth_error_Some; congruence).
    rewrite Hrec in Hi. apply mk_records_nth in Hi as (Ht & _).
    fold off in Ht.
    destruct (bps_cave_spec image total ltac:(lia)) as [[E _] | [(_ & _ & Hfill) _]].
    + fold off in E. lia.
    + fold off in Hfill. apply Hfill.
      unfold BPS.arena_need_each, Py.len in *. lia.
  - destruct (List.Exists_dec
                (fun r => BPS.site_off r <= p < BPS.site_off r + 10)
                (BPS.hook_records st)) as [Hsite|Hsite].
    { intros r. destruct (Z_le_dec (BPS.site_off r) p);
        destruct (Z_lt_dec p (BPS.site_off r + 10)); (left; lia) || (right; lia). }
    + right. apply List.Exists_exists in Hsite as (r & Hr & Hwin). eauto.
    + exfalso. apply Hne. apply Hout; [exact Hp | |].
      * intros r Hr.
        destruct (Z_lt_dec p (BPS.tramp_off r)); [now left | right].
        destruct (Z_le_dec (BPS.tramp_off r + BPS.arena_need_each) p); [assumption|].
        exfalso. apply Hslot. apply List.Exists_exists. exists r. split; [exact Hr | lia].
      * intros r Hr.
        destruct (Z_lt_dec p (BPS.site_off r)); [now left | right].
        destruct (Z_le_dec (BPS.site_off r + 10) p); [assumption|].
        exfalso. apply Hsite. apply List.Exists_exists. exists r. split; [exact Hr | lia].
Qed.

(** X26 at a concrete run: byte 200 of the 256-byte image is overwritten by
    the trampoline of the hook; it was a filler byte. *)
Lemma X26_witness :
  exists st,
    BPS.main_loop Fixtures.thumb_detour Fixtures.stub_bw Fixtures.image3
      [("a"%string, Fixtures.spec_addr 0)] = Ok st /\
    Spec.byte_at (BPS.mod_ st) 200 <> Spec.byte_at Fixtures.image3 200 /\
    is_filler (Spec.byte_at Fixtures.image3 200) = true.
Proof.
  destruct (BPS.main_loop Fixtures.thumb_detour Fixtures.stub_bw Fixtures.image3
              [("a"%string, Fixtures.spec_addr 0)]) as [st|e] eqn:E;
    [|vm_compute in E; discriminate E].
  exists st.
  assert (Hne : Spec.byte_at (BPS.mod_ st) 200 <> Spec.byte_at Fixtures.image3 200).
  { vm_compute in E. injection E as <-. vm_compute. discriminate. }
  split; [reflexivity|]. split; [exact Hne|].
  pose proof (BPSRun.main_loop_records _ _ _ _ _ E) as (_ & Hrec).
  assert (Hrec' : BPS.hook_records st
                  = [ {| BPS.name := "a"; BPS.site_off := 0; BPS.tramp_off := 192;
                         BPS.resume_off := 10; BPS.stolen_len := 10 |} ])
    by (rewrite Hrec; reflexivity).
  assert (Hkb : SpecX.branch_fits Fixtures.stub_bw).
  { intros delta origin enc H. unfold Fixtures.stub_bw in H. injection H as <-.
    vm_compute. discriminate. }
  destruct (X26_bps_overwrites_filler_only Fixtures.thumb_detour Fixtures.stub_bw
              Fixtures.image3 [("a"%string, Fixtures.spec_addr 0)] st Hkb E
              ltac:(rewrite Hrec'; intros r [<- | []]; vm_compute; split; discriminate)
              200 ltac:(lia) Hne) as [H | (r & Hr & Hwin)]; [exact H|].
  exfalso. rewrite Hrec' in Hr. destruct Hr as [<- | []]. simpl in Hwin. lia.
Defined.
